(** * The pipeline build planner of the CI server (server/procBuilder.go)

    A shallow embedding of [procBuilder.Build], the dependency resolver
    [filterItemsWithMissingDependencies], the process flattener
    [setBuildStepsOnBuild], the substitution helpers and [sanitizePath],
    and of the calls of the Gitea remote that fetch the documents and
    list the repositories, followed by their properties.

    Conventions of the embedding:
    - a Go [string] is a [string] (a sequence of bytes), a Go [int] or
      [int64] is a [Z] kept in range by [int_wrap];
    - a Go [map[string]string] is a [gmap string string]; where the code
      tells a nil map from an empty one (the labels of an item) the map is
      an [option];
    - a slice is a [list], a nil slice is the empty list;
    - the [(value, error)] result of a collaborator is a [result], the
      value or the error; the result of [Build] is the pair it returns,
      the items and an [option error];
    - the packages the planner calls but does not define (matrix, envsubst,
      yaml, linter, compiler, frontend metadata, sort, rand) are the fields
      of the class [Collaborators]. *)

From Stdlib Require Import ZArith Lia String Ascii DecimalString.
From stdpp Require Import gmap strings list fin_maps sorting.
From Equations Require Import Equations.

Local Open Scope string_scope.
Local Open Scope list_scope.
Local Open Scope Z_scope.

(** ** Go strings: the functions of package [strings] the planner uses *)

(** [s[lo:hi]] *)
Definition slice (s : string) (lo hi : nat) : string :=
  substring lo (hi - lo) s.

(** [strings.HasPrefix]: [len(s) >= len(prefix) && s[:len(prefix)] == prefix] *)
Definition HasPrefix (s prefix : string) : bool :=
  (String.length prefix <=? String.length s)%nat
  && String.eqb (slice s 0 (String.length prefix)) prefix.

(** [strings.HasSuffix]: [len(s) >= len(suffix) && s[len(s)-len(suffix):] == suffix] *)
Definition HasSuffix (s suffix : string) : bool :=
  (String.length suffix <=? String.length s)%nat
  && String.eqb
       (slice s (String.length s - String.length suffix) (String.length s))
       suffix.

(** [strings.TrimPrefix] *)
Definition TrimPrefix (s prefix : string) : string :=
  if HasPrefix s prefix then slice s (String.length prefix) (String.length s)
  else s.

(** [strings.TrimSuffix] *)
Definition TrimSuffix (s suffix : string) : string :=
  if HasSuffix s suffix then slice s 0 (String.length s - String.length suffix)
  else s.

(** [strings.Contains]: some position of [s] starts with [substr]. *)
Fixpoint Contains (s substr : string) : bool :=
  HasPrefix s substr
  || match s with
     | EmptyString => false
     | String _ rest => Contains rest substr
     end.

(** The one-character string holding a line feed, Go's ["\n"]. *)
Definition newline : string := String (ascii_of_nat 10) EmptyString.

(** ** sanitizePath *)

Definition sanitizePath (path configFolder : string) : string :=
  let path := TrimSuffix path ".yml" in
  let path := TrimPrefix path configFolder in
  let path := TrimPrefix path "." in
  path.

(** ** Go integers *)

(** A Go [int] (64 bits, two's complement): the value an arithmetic result
    wraps to. *)
Definition int_wrap (z : Z) : Z := (z + 2 ^ 63) mod 2 ^ 64 - 2 ^ 63.

(** [n++] on an [int]. *)
Definition int_succ (n : Z) : Z := int_wrap (n + 1).

(** [fmt.Sprintf("%d", n)] *)
Definition itoa (n : Z) : string := NilZero.string_of_int (Z.to_int n).

(** ** Results and errors *)

(** A Go [error] value that is not nil, by its message. *)
Definition error : Type := string.

(** A [(value, error)] result of a collaborator: the value, or the error. *)
Inductive result (A : Type) : Type :=
| Ok (a : A)
| Err (err : error).
Arguments Ok {A} a.
Arguments Err {A} err.

#[global] Instance result_bind : MBind result :=
  fun A B f m => match m with Ok a => f a | Err err => Err err end.

(** [for _, x := range l { ... }] over a body that may return an error:
    the first error ends the loop. *)
Fixpoint forEach {A S : Type} (body : S -> A -> result S) (l : list A) (s : S)
  : result S :=
  match l with
  | [] => Ok s
  | x :: rest => s' ← body s x; forEach body rest s'
  end.

(** A [map[string]string]: an environment, a matrix axis, a label set. *)
Abbreviation Env := (gmap string string).

(** [for k, v := range src { dst[k] = v }] *)
Definition overwrite (dst src : Env) : Env :=
  map_fold (fun k v acc => <[k := v]> acc) dst src.

(** ** Package model *)

Module model.

(** Modelled from the spec: the status constants of package model, which
    the process descriptor's State ranges over (section 3 of the
    specification: Pending, Skipped, Running, Success, Failure, ...). *)
Inductive Status : Type :=
| StatusSkipped
| StatusPending
| StatusRunning
| StatusSuccess
| StatusFailure.

#[global] Instance Status_eq_dec : EqDecision Status.
Proof. solve_decision. Defined.

Module Proc.
Record t : Type := mk {
  ID : Z;
  BuildID : Z;
  PID : Z;
  PPID : Z;
  PGID : Z;
  Name : string;
  State : Status;
  Environ : Env
}.
End Proc.

Module Build.
Record t : Type := mk {
  ID : Z;
  Number : Z;
  Parent : Z;
  Created : Z;
  Started : Z;
  Finished : Z;
  Status : string;
  Event : string;
  Link : string;
  Deploy : string;
  Commit : string;
  Ref : string;
  Refspec : string;
  Branch : string;
  Message : string;
  Author : string;
  Email : string;
  Avatar : string;
  ChangedFiles : list string;
  Procs : list Proc.t
}.
End Build.

Module Repo.
Record t : Type := mk {
  FullName : string;
  Link : string;
  Clone : string;
  Branch : string;
  Config : string;
  IsPrivate : bool;
  IsTrusted : bool
}.
End Repo.

Module Netrc.
Record t : Type := mk {
  Machine : string;
  Login : string;
  Password : string
}.
End Netrc.

Module Secret.
Record t : Type := mk {
  Name : string;
  Value : string;
  Images : list string;
  Events : list string
}.
End Secret.

Module Registry.
Record t : Type := mk {
  Address : string;
  Username : string;
  Password : string;
  Email : string
}.
End Registry.

End model.

(** ** Package remote: a pipeline document *)

Module FileMeta.
Record t : Type := mk {
  Name : string;
  Data : string
}.
End FileMeta.

(** ** Package frontend: the metadata of a job *)

Module frontend.

Module Repo.
Record t : Type := mk {
  Name : string;
  Link : string;
  Remote : string;
  Private : bool;
  Branch : string
}.
End Repo.

Module Author.
Record t : Type := mk {
  Name : string;
  Email : string;
  Avatar : string
}.
End Author.

Module Commit.
Record t : Type := mk {
  Sha : string;
  Ref : string;
  Refspec : string;
  Branch : string;
  Message : string;
  Author : Author.t;
  ChangedFiles : list string
}.
End Commit.

Module Build.
Record t : Type := mk {
  Number : Z;
  Parent : Z;
  Created : Z;
  Started : Z;
  Finished : Z;
  Status : string;
  Event : string;
  Link : string;
  Target : string;
  Commit : Commit.t
}.
End Build.

Module Job.
Record t : Type := mk {
  Number : Z;
  Matrix : Env
}.
End Job.

Module System.
Record t : Type := mk {
  Name : string;
  Link : string;
  Host : string;
  Arch : string
}.
End System.

Module Metadata.
Record t : Type := mk {
  Repo : Repo.t;
  Curr : Build.t;
  Prev : Build.t;
  Job : Job.t;
  Sys : System.t
}.
End Metadata.

End frontend.

(** ** Package backend: the compiled configuration *)

Module backend.

Module Step.
Record t : Type := mk {
  Name : string;
  Alias : string
}.
End Step.

Module Stage.
Record t : Type := mk {
  Name : string;
  Alias : string;
  Steps : list Step.t
}.
End Stage.

Module Config.
Record t : Type := mk {
  Stages : list Stage.t
}.
End Config.

End backend.

(** ** Package compiler: what [compiler.New] is configured with *)

Module compiler.

Module Secret.
Record t : Type := mk {
  Name : string;
  Value : string;
  Match : list string
}.
End Secret.

Module Registry.
Record t : Type := mk {
  Hostname : string;
  Username : string;
  Password : string;
  Email : string
}.
End Registry.

Module Limits.
Record t : Type := mk {
  MemSwapLimit : Z;
  MemLimit : Z;
  ShmSize : Z;
  CPUQuota : Z;
  CPUShares : Z;
  CPUSet : string
}.
End Limits.

(** The options of one [compiler.New(...)] call, in the order the planner
    passes them. [Environ] lists the arguments of the successive
    [WithEnviron] options; [Netrc] is [None] when [WithOption] drops the
    option it guards. *)
Module Options.
Record t : Type := mk {
  Environ : list Env;
  Escalated : list string;
  ResourceLimit : Limits.t;
  Volumes : list string;
  Networks : list string;
  Local : bool;
  Netrc : option (string * string * string);
  Registry : list Registry.t;
  Secret : list Secret.t;
  Prefix : string;
  Proxy : bool;
  Workspace : string * string;
  Metadata : frontend.Metadata.t
}.
End Options.

End compiler.

(** ** The server-wide configuration read by the planner ([Config.Pipeline]) *)

Module Pipeline.
Record t : Type := mk {
  Limits : compiler.Limits.t;
  Volumes : list string;
  Networks : list string;
  Privileged : list string
}.
End Pipeline.

(** ** The planner's own types *)

Module procBuilder.
Record t : Type := mk {
  Repo : model.Repo.t;
  Curr : model.Build.t;
  Last : model.Build.t;
  Netrc : model.Netrc.t;
  Secs : list model.Secret.t;
  Regs : list model.Registry.t;
  Link : string;
  Yamls : list FileMeta.t;
  Envs : Env
}.
End procBuilder.

Module buildItem.
Record t : Type := mk {
  Proc : model.Proc.t;
  Platform : string;
  Labels : option Env;
  DependsOn : list string;
  RunsOn : list string;
  Config : backend.Config.t
}.
End buildItem.

(** The name an item is known by: [item.Proc.Name]. *)
Definition itemName (item : buildItem.t) : string :=
  model.Proc.Name (buildItem.Proc item).

(** ** The collaborators of the planner

    The packages whose functions [Build] calls and whose code is outside
    the planner. A parsed pipeline ([yaml.Config]) is known through the
    fields the planner reads. *)
Class Collaborators : Type := {
  (** package yaml *)
  yaml_Config : Type;
  yaml_ParseString : string -> result yaml_Config;
  (** [parsed.Branches.Match(branch)] *)
  Branches_Match : yaml_Config -> string -> bool;
  yaml_Platform : yaml_Config -> string;
  (** [parsed.Labels], [None] for a nil map *)
  yaml_Labels : yaml_Config -> option Env;
  yaml_DependsOn : yaml_Config -> list string;
  yaml_RunsOn : yaml_Config -> list string;
  (** package matrix *)
  matrix_ParseString : string -> result (list Env);
  (** package envsubst *)
  envsubst_Eval : string -> (string -> string) -> result string;
  (** [linter.New(linter.WithTrusted(trusted)).Lint(parsed)] *)
  linter_Lint : bool -> yaml_Config -> option error;
  (** [compiler.New(options...).Compile(parsed)] *)
  compiler_Compile : compiler.Options.t -> yaml_Config -> backend.Config.t;
  (** package frontend *)
  Metadata_Environ : frontend.Metadata.t -> Env;
  Metadata_EnvironDrone : frontend.Metadata.t -> Env;
  Metadata_SetPlatform : frontend.Metadata.t -> string -> frontend.Metadata.t;
  (** [url.Parse(link)] followed by [uri.Host] *)
  url_Parse_Host : string -> result string;
  (** [secret.Match(event)] *)
  Secret_Match : model.Secret.t -> string -> bool;
  (** [fmt.Sprintf("%q", s)] *)
  Sprintf_q : string -> string;
  (** [sort.Sort(remote.ByName(files))] *)
  sort_ByName : list FileMeta.t -> list FileMeta.t;
  sort_ByName_Permutation : forall files, sort_ByName files ≡ₚ files;
  (** package math/rand: the state of the global generator, and [rand.Int()] *)
  Rand : Type;
  rand_Int : Rand -> Z * Rand;
  (** the global [Config.Pipeline] of package server *)
  Config_Pipeline : Pipeline.t
}.

(** ** The dependency resolver *)

Fixpoint containsItemWithName (name : string) (items : list buildItem.t) : bool :=
  match items with
  | [] => false
  | item :: rest =>
      if String.eqb name (itemName item) then true
      else containsItemWithName name rest
  end.

(** The first loop of [filterItemsWithMissingDependencies]: an item is
    appended once for each of its dependencies that names no item. *)
Definition itemsToRemove (items : list buildItem.t) : list buildItem.t :=
  flat_map
    (fun item =>
       flat_map
         (fun dep =>
            if negb (containsItemWithName dep items) then [item] else [])
         (buildItem.DependsOn item))
    items.

(** The second loop: the items whose name is the name of no item to remove. *)
Definition filtered (items toRemove : list buildItem.t) : list buildItem.t :=
  List.filter
    (fun item => negb (containsItemWithName (itemName item) toRemove))
    items.

(** A value together with the equation that names it: lets a branch on
    [len(itemsToRemove) > 0] remember what was tested. *)
Definition inspect {A : Type} (a : A) : {b : A | a = b} := exist _ a eq_refl.

Equations? filterItemsWithMissingDependencies (items : list buildItem.t)
  : list buildItem.t by wf (length items) lt :=
  filterItemsWithMissingDependencies items with inspect (itemsToRemove items) := {
    | exist _ nil _ => items
    | exist _ (cons marked _) Hmarked =>
        filterItemsWithMissingDependencies (filtered items (itemsToRemove items)) }.
Proof.
  (* the first marked item is an item, and its own name removes it *)
  assert (Hin : forall x, In x (itemsToRemove items) -> In x items).
  { unfold itemsToRemove. intros x Hx.
    apply in_flat_map in Hx as (item & Hitem & Hx).
    apply in_flat_map in Hx as (dep & _ & Hx).
    destruct (negb _); simpl in Hx; [|contradiction].
    destruct Hx as [<-|[]]. exact Hitem. }
  assert (Hself : forall x its,
             In x its -> containsItemWithName (itemName x) its = true).
  { intros x its. induction its as [|a its IH]; simpl; [contradiction|].
    intros [->|Hx]; [now rewrite String.eqb_refl|].
    destruct (String.eqb _ _); [reflexivity | now apply IH]. }
  assert (Hshort : forall (f : buildItem.t -> bool) its x,
             In x its -> f x = false ->
             (length (List.filter f its) < length its)%nat).
  { intros f its x. induction its as [|a its IH]; simpl; [contradiction|].
    pose proof (List.filter_length_le f its) as Hle.
    intros [->|Hx] Hf.
    - rewrite Hf. lia.
    - specialize (IH Hx Hf). destruct (f a); simpl; lia. }
  unfold filtered. rewrite Hmarked.
  apply (Hshort _ items marked).
  - apply Hin. rewrite Hmarked. now left.
  - apply negb_false_iff. apply Hself. now left.
Qed.

(** ** The process graph flattener *)

(** The first loop of [setBuildStepsOnBuild]: append the item's descriptor
    and keep the largest PID seen. *)
Definition appendItemProc (st : Z * list model.Proc.t) (item : buildItem.t)
  : Z * list model.Proc.t :=
  let '(pidSequence, procs) := st in
  let procs := procs ++ [buildItem.Proc item] in
  let pidSequence :=
    if pidSequence <? model.Proc.PID (buildItem.Proc item)
    then model.Proc.PID (buildItem.Proc item)
    else pidSequence in
  (pidSequence, procs).

(** The descriptor of one step. *)
Definition stepProc (build : model.Build.t) (item : buildItem.t)
  (step : backend.Step.t) (pidSequence gid : Z) : model.Proc.t :=
  let proc :=
    {| model.Proc.ID := 0;
       model.Proc.BuildID := model.Build.ID build;
       model.Proc.Name := backend.Step.Alias step;
       model.Proc.PID := pidSequence;
       model.Proc.PPID := model.Proc.PID (buildItem.Proc item);
       model.Proc.PGID := gid;
       model.Proc.State := model.StatusPending;
       model.Proc.Environ := ∅ |} in
  if decide (model.Proc.State (buildItem.Proc item) = model.StatusSkipped)
  then {| model.Proc.ID := model.Proc.ID proc;
          model.Proc.BuildID := model.Proc.BuildID proc;
          model.Proc.Name := model.Proc.Name proc;
          model.Proc.PID := model.Proc.PID proc;
          model.Proc.PPID := model.Proc.PPID proc;
          model.Proc.PGID := model.Proc.PGID proc;
          model.Proc.State := model.StatusSkipped;
          model.Proc.Environ := model.Proc.Environ proc |}
  else proc.

(** The body of [for _, step := range stage.Steps]; the state is
    [(pidSequence, gid, build.Procs)]. *)
Definition appendStep (build : model.Build.t) (item : buildItem.t)
  (st : Z * Z * list model.Proc.t) (step : backend.Step.t)
  : Z * Z * list model.Proc.t :=
  let '(pidSequence, gid, procs) := st in
  let pidSequence := int_succ pidSequence in
  let gid := if gid =? 0 then pidSequence else gid in
  (pidSequence, gid, procs ++ [stepProc build item step pidSequence gid]).

(** The body of [for _, stage := range item.Config.Stages]: [gid] starts
    at zero in every stage. *)
Definition appendStage (build : model.Build.t) (item : buildItem.t)
  (st : Z * list model.Proc.t) (stage : backend.Stage.t)
  : Z * list model.Proc.t :=
  let '(pidSequence, procs) := st in
  let '(pidSequence, _, procs) :=
    fold_left (appendStep build item) (backend.Stage.Steps stage)
      (pidSequence, 0, procs) in
  (pidSequence, procs).

(** The body of the second [for _, item := range buildItems]. *)
Definition appendItemSteps (build : model.Build.t)
  (st : Z * list model.Proc.t) (item : buildItem.t) : Z * list model.Proc.t :=
  fold_left (appendStage build item)
    (backend.Config.Stages (buildItem.Config item)) st.

(** [build] with [build.Procs] replaced. *)
Definition withProcs (build : model.Build.t) (procs : list model.Proc.t)
  : model.Build.t :=
  {| model.Build.ID := model.Build.ID build;
     model.Build.Number := model.Build.Number build;
     model.Build.Parent := model.Build.Parent build;
     model.Build.Created := model.Build.Created build;
     model.Build.Started := model.Build.Started build;
     model.Build.Finished := model.Build.Finished build;
     model.Build.Status := model.Build.Status build;
     model.Build.Event := model.Build.Event build;
     model.Build.Link := model.Build.Link build;
     model.Build.Deploy := model.Build.Deploy build;
     model.Build.Commit := model.Build.Commit build;
     model.Build.Ref := model.Build.Ref build;
     model.Build.Refspec := model.Build.Refspec build;
     model.Build.Branch := model.Build.Branch build;
     model.Build.Message := model.Build.Message build;
     model.Build.Author := model.Build.Author build;
     model.Build.Email := model.Build.Email build;
     model.Build.Avatar := model.Build.Avatar build;
     model.Build.ChangedFiles := model.Build.ChangedFiles build;
     model.Build.Procs := procs |}.

Definition setBuildStepsOnBuild (build : model.Build.t)
  (buildItems : list buildItem.t) : model.Build.t :=
  let '(pidSequence, procs) :=
    fold_left appendItemProc buildItems (0, model.Build.Procs build) in
  let '(_, procs) :=
    fold_left (appendItemSteps build) buildItems (pidSequence, procs) in
  withProcs build procs.

(** The descriptors one call of [setBuildStepsOnBuild] appends: the final
    process list of the plan. *)
Definition emittedProcs (build : model.Build.t) (buildItems : list buildItem.t)
  : list model.Proc.t :=
  drop (length (model.Build.Procs build))
    (model.Build.Procs (setBuildStepsOnBuild build buildItems)).

(** The number of steps of an item's compiled configuration. *)
Definition stepCount (item : buildItem.t) : nat :=
  length
    (flat_map backend.Stage.Steps
       (backend.Config.Stages (buildItem.Config item))).

(** ** The planner *)

Section Planner.
Context `{Collaborators}.

(** The resolver [envsubst_] hands to [envsubst.Eval]: what a placeholder
    named [name] is replaced by. *)
Definition envsubst_mapping (environ : Env) (name : string) : string :=
  let env := default EmptyString (environ !! name) in
  if Contains env newline then Sprintf_q env else env.

Definition envsubst_ (b : procBuilder.t) (y : string) (environ : Env)
  : result string :=
  envsubst_Eval y (envsubst_mapping environ).

Definition environmentVariables (b : procBuilder.t)
  (metadata : frontend.Metadata.t) (axis : Env) : Env :=
  let environ := Metadata_Environ metadata in
  let environ := overwrite environ (Metadata_EnvironDrone metadata) in
  let environ := overwrite environ axis in
  environ.

Definition metadataFromStruct (repo : model.Repo.t) (build last : model.Build.t)
  (proc : model.Proc.t) (link : string) : frontend.Metadata.t :=
  let host := match url_Parse_Host link with Ok h => h | Err _ => link end in
  {| frontend.Metadata.Repo :=
       {| frontend.Repo.Name := model.Repo.FullName repo;
          frontend.Repo.Link := model.Repo.Link repo;
          frontend.Repo.Remote := model.Repo.Clone repo;
          frontend.Repo.Private := model.Repo.IsPrivate repo;
          frontend.Repo.Branch := model.Repo.Branch repo |};
     frontend.Metadata.Curr :=
       {| frontend.Build.Number := model.Build.Number build;
          frontend.Build.Parent := model.Build.Parent build;
          frontend.Build.Created := model.Build.Created build;
          frontend.Build.Started := model.Build.Started build;
          frontend.Build.Finished := model.Build.Finished build;
          frontend.Build.Status := model.Build.Status build;
          frontend.Build.Event := model.Build.Event build;
          frontend.Build.Link := model.Build.Link build;
          frontend.Build.Target := model.Build.Deploy build;
          frontend.Build.Commit :=
            {| frontend.Commit.Sha := model.Build.Commit build;
               frontend.Commit.Ref := model.Build.Ref build;
               frontend.Commit.Refspec := model.Build.Refspec build;
               frontend.Commit.Branch := model.Build.Branch build;
               frontend.Commit.Message := model.Build.Message build;
               frontend.Commit.Author :=
                 {| frontend.Author.Name := model.Build.Author build;
                    frontend.Author.Email := model.Build.Email build;
                    frontend.Author.Avatar := model.Build.Avatar build |};
               frontend.Commit.ChangedFiles := model.Build.ChangedFiles build |} |};
     frontend.Metadata.Prev :=
       {| frontend.Build.Number := model.Build.Number last;
          frontend.Build.Parent := 0;
          frontend.Build.Created := model.Build.Created last;
          frontend.Build.Started := model.Build.Started last;
          frontend.Build.Finished := model.Build.Finished last;
          frontend.Build.Status := model.Build.Status last;
          frontend.Build.Event := model.Build.Event last;
          frontend.Build.Link := model.Build.Link last;
          frontend.Build.Target := model.Build.Deploy last;
          frontend.Build.Commit :=
            {| frontend.Commit.Sha := model.Build.Commit last;
               frontend.Commit.Ref := model.Build.Ref last;
               frontend.Commit.Refspec := model.Build.Refspec last;
               frontend.Commit.Branch := model.Build.Branch last;
               frontend.Commit.Message := model.Build.Message last;
               frontend.Commit.Author :=
                 {| frontend.Author.Name := model.Build.Author last;
                    frontend.Author.Email := model.Build.Email last;
                    frontend.Author.Avatar := model.Build.Avatar last |};
               frontend.Commit.ChangedFiles := model.Build.ChangedFiles last |} |};
     frontend.Metadata.Job :=
       {| frontend.Job.Number := model.Proc.PID proc;
          frontend.Job.Matrix := model.Proc.Environ proc |};
     frontend.Metadata.Sys :=
       {| frontend.System.Name := "drone";
          frontend.System.Link := link;
          frontend.System.Host := host;
          frontend.System.Arch := "linux/amd64" |} |}.

(** [toInternalRepresentation]; [rnd] is the value [rand.Int()] returns
    for the prefix. *)
Definition toInternalRepresentation (b : procBuilder.t) (parsed : yaml_Config)
  (environ : Env) (metadata : frontend.Metadata.t) (procID : Z) (rnd : Z)
  : backend.Config.t :=
  let secrets :=
    flat_map
      (fun sec =>
         if negb (Secret_Match sec (model.Build.Event (procBuilder.Curr b)))
         then []
         else [ {| compiler.Secret.Name := model.Secret.Name sec;
                   compiler.Secret.Value := model.Secret.Value sec;
                   compiler.Secret.Match := model.Secret.Images sec |} ])
      (procBuilder.Secs b) in
  let registries :=
    map
      (fun reg =>
         {| compiler.Registry.Hostname := model.Registry.Address reg;
            compiler.Registry.Username := model.Registry.Username reg;
            compiler.Registry.Password := model.Registry.Password reg;
            compiler.Registry.Email := model.Registry.Email reg |})
      (procBuilder.Regs b) in
  compiler_Compile
    {| compiler.Options.Environ := [environ; procBuilder.Envs b];
       compiler.Options.Escalated := Pipeline.Privileged Config_Pipeline;
       compiler.Options.ResourceLimit := Pipeline.Limits Config_Pipeline;
       compiler.Options.Volumes := Pipeline.Volumes Config_Pipeline;
       compiler.Options.Networks := Pipeline.Networks Config_Pipeline;
       compiler.Options.Local := false;
       compiler.Options.Netrc :=
         if model.Repo.IsPrivate (procBuilder.Repo b)
         then Some (model.Netrc.Login (procBuilder.Netrc b),
                    model.Netrc.Password (procBuilder.Netrc b),
                    model.Netrc.Machine (procBuilder.Netrc b))
         else None;
       compiler.Options.Registry := registries;
       compiler.Options.Secret := secrets;
       compiler.Options.Prefix := itoa procID +:+ "_" +:+ itoa rnd;
       compiler.Options.Proxy := true;
       compiler.Options.Workspace := ("/drone", model.Repo.Link (procBuilder.Repo b));
       compiler.Options.Metadata := metadata |}
    parsed.

(** The descriptor [Build] creates for a document and an axis. *)
Definition newProc (b : procBuilder.t) (y : FileMeta.t) (pidSequence : Z)
  (axis : Env) : model.Proc.t :=
  {| model.Proc.ID := 0;
     model.Proc.BuildID := model.Build.ID (procBuilder.Curr b);
     model.Proc.PID := pidSequence;
     model.Proc.PPID := 0;
     model.Proc.PGID := pidSequence;
     model.Proc.State := model.StatusPending;
     model.Proc.Environ := axis;
     model.Proc.Name :=
       sanitizePath (FileMeta.Name y) (model.Repo.Config (procBuilder.Repo b)) |}.

(** [proc.State = state] *)
Definition withState (proc : model.Proc.t) (state : model.Status) : model.Proc.t :=
  {| model.Proc.ID := model.Proc.ID proc;
     model.Proc.BuildID := model.Proc.BuildID proc;
     model.Proc.PID := model.Proc.PID proc;
     model.Proc.PPID := model.Proc.PPID proc;
     model.Proc.PGID := model.Proc.PGID proc;
     model.Proc.State := state;
     model.Proc.Environ := model.Proc.Environ proc;
     model.Proc.Name := model.Proc.Name proc |}.

(** [item.Labels = labels] *)
Definition withLabels (item : buildItem.t) (labels : Env) : buildItem.t :=
  {| buildItem.Proc := buildItem.Proc item;
     buildItem.Config := buildItem.Config item;
     buildItem.Labels := Some labels;
     buildItem.DependsOn := buildItem.DependsOn item;
     buildItem.RunsOn := buildItem.RunsOn item;
     buildItem.Platform := buildItem.Platform item |}.

(** The variables of [Build] that live across its loops. *)
Record loopState : Type := mkLoopState {
  items : list buildItem.t;
  pidSequence : Z;
  rng : Rand
}.

(** The body of [for _, axis := range axes]. *)
Definition buildAxis (b : procBuilder.t) (y : FileMeta.t) (st : loopState)
  (axis : Env) : result loopState :=
  let proc := newProc b y (pidSequence st) axis in
  let metadata :=
    metadataFromStruct (procBuilder.Repo b) (procBuilder.Curr b)
      (procBuilder.Last b) proc (procBuilder.Link b) in
  let environ := environmentVariables b metadata axis in
  substituted ← envsubst_ b (FileMeta.Data y) environ;
  parsed ← yaml_ParseString substituted;
  match linter_Lint (model.Repo.IsTrusted (procBuilder.Repo b)) parsed with
  | Some lerr => Err lerr
  | None =>
      let proc :=
        if negb (Branches_Match parsed (model.Build.Branch (procBuilder.Curr b)))
        then withState proc model.StatusSkipped
        else proc in
      let metadata := Metadata_SetPlatform metadata (yaml_Platform parsed) in
      let '(rnd, rng') := rand_Int (rng st) in
      let ir :=
        toInternalRepresentation b parsed environ metadata
          (model.Proc.ID proc) rnd in
      if (length (backend.Config.Stages ir) =? 0)%nat
      then Ok {| items := items st; pidSequence := pidSequence st; rng := rng' |}
      else
        let item :=
          {| buildItem.Proc := proc;
             buildItem.Config := ir;
             buildItem.Labels := yaml_Labels parsed;
             buildItem.DependsOn := yaml_DependsOn parsed;
             buildItem.RunsOn := yaml_RunsOn parsed;
             buildItem.Platform :=
               frontend.System.Arch (frontend.Metadata.Sys metadata) |} in
        let item :=
          match buildItem.Labels item with
          | None => withLabels item ∅
          | Some _ => item
          end in
        Ok {| items := items st ++ [item];
              pidSequence := int_succ (pidSequence st);
              rng := rng' |}
  end.

(** The axes of a document: one empty axis when it declares no matrix. *)
Definition documentAxes (y : FileMeta.t) : result (list Env) :=
  axes ← matrix_ParseString (FileMeta.Data y);
  Ok (if (length axes =? 0)%nat then axes ++ [∅] else axes).

(** The body of [for _, y := range b.Yamls]. *)
Definition buildDocument (b : procBuilder.t) (st : loopState) (y : FileMeta.t)
  : result loopState :=
  axes ← documentAxes y;
  forEach (buildAxis b y) axes st.

(** The two loops of [Build], from the sorted documents on. *)
Definition compileItems (b : procBuilder.t) (r : Rand) : result loopState :=
  forEach (buildDocument b)
    (sort_ByName (procBuilder.Yamls b))
    {| items := []; pidSequence := 1; rng := r |}.

(** [Build]: the items and the error it returns; [r] is the state of the
    random generator when it is called. *)
Definition Build (b : procBuilder.t) (r : Rand)
  : list buildItem.t * option error :=
  match compileItems b r with
  | Err err => ([], Some err)
  | Ok st => (filterItemsWithMissingDependencies (items st), None)
  end.

(** The definition [Build] parses for document [y] on [axis] when the
    next PID is [pid]: lines 75 to 97 of the loop body. *)
Definition parsedDefinition (b : procBuilder.t) (y : FileMeta.t) (pid : Z)
  (axis : Env) : result yaml_Config :=
  let proc := newProc b y pid axis in
  let metadata :=
    metadataFromStruct (procBuilder.Repo b) (procBuilder.Curr b)
      (procBuilder.Last b) proc (procBuilder.Link b) in
  let environ := environmentVariables b metadata axis in
  substituted ← envsubst_ b (FileMeta.Data y) environ;
  yaml_ParseString substituted.

End Planner.


(** ** The Gitea remote (package gitea)

    The remote lists the pipeline documents of a commit ([Dir], [File])
    and the repositories of an account ([Repos]) through a client of the
    Gitea server. The calls of the client are the fields of the class
    [Gitea]: what the server answers is taken as a function of the
    request. *)

Module gitea.

(** The settings of the remote. *)
Module oauthclient.
Record t : Type := mk {
  URL : string;
  Context : string;
  Machine : string;
  Client : string;
  Secret : string;
  Username : string;
  Password : string;
  PrivateMode : bool;
  SkipVerify : bool
}.
End oauthclient.

(** What the remote reads of a [model.User]. *)
Module User.
Record t : Type := mk {
  Login : string;
  Token : string
}.
End User.

(** What the remote reads of a [model.Repo] to address it. *)
Module Repo.
Record t : Type := mk {
  Owner : string;
  Name : string
}.
End Repo.

(** An entry of a git tree. *)
Module GitEntry.
Record t : Type := mk {
  Path : string;
  Type_ : string
}.
End GitEntry.

End gitea.

Class Gitea : Type := {
  (** a [*gitea.Client] *)
  Client : Type;
  (** [gitea.NewClient(url, gitea.SetToken(token), gitea.SetHTTPClient(...))],
      the last argument telling whether certificates go unverified *)
  NewClient : string -> string -> bool -> result Client;
  (** [client.GetTrees(owner, name, ref, recursive)], the entries of the tree *)
  GetTrees :
    Client -> string -> string -> string -> bool -> result (list gitea.GitEntry.t);
  (** [client.GetFile(owner, name, ref, path)] *)
  GetFile : Client -> string -> string -> string -> string -> result string;
  (** a [*gitea.Repository] *)
  Repository : Type;
  (** [client.ListMyRepos] with the page and the page size of its options *)
  ListMyRepos : Client -> Z -> Z -> result (list Repository);
  (** the helper [toRepo] of the package *)
  toRepo : Repository -> bool -> model.Repo.t;
  (** [path.Clean] *)
  path_Clean : string -> string;
  (** [filepath.Match(pattern, name)]: whether the name matches; an error
      of the pattern is dropped by the caller and counts as no match *)
  filepath_Match : string -> string -> bool
}.

Section GiteaRemote.
Context `{Gitea}.

Definition newClientToken (c : gitea.oauthclient.t) (token : string)
  : result Client :=
  NewClient (gitea.oauthclient.URL c) token (gitea.oauthclient.SkipVerify c).

(** [File]: the content of the file [f] at the commit of the build. *)
Definition File (c : gitea.oauthclient.t) (u : gitea.User.t) (r : gitea.Repo.t)
  (b : model.Build.t) (f : string) : result string :=
  client ← newClientToken c (gitea.User.Token u);
  GetFile client (gitea.Repo.Owner r) (gitea.Repo.Name r) (model.Build.Commit b) f.

(** The body of [for _, e := range tree.Entries] in [Dir]; [f] is the
    pattern. *)
Definition dirEntry (c : gitea.oauthclient.t) (u : gitea.User.t)
  (r : gitea.Repo.t) (b : model.Build.t) (f : string)
  (configs : list FileMeta.t) (e : gitea.GitEntry.t) : result (list FileMeta.t) :=
  if filepath_Match f (gitea.GitEntry.Path e)
     && String.eqb (gitea.GitEntry.Type_ e) "blob"
  then
    match File c u r b (gitea.GitEntry.Path e) with
    | Err err =>
        Err ("multi-pipeline cannot get " +:+ gitea.GitEntry.Path e
             +:+ ": " +:+ err)
    | Ok data =>
        Ok (configs ++ [ {| FileMeta.Name := gitea.GitEntry.Path e;
                            FileMeta.Data := data |} ])
    end
  else Ok configs.

(** [Dir]: the pipeline documents in the folder [f]. *)
Definition Dir (c : gitea.oauthclient.t) (u : gitea.User.t) (r : gitea.Repo.t)
  (b : model.Build.t) (f : string) : result (list FileMeta.t) :=
  client ← newClientToken c (gitea.User.Token u);
  tree ← GetTrees client (gitea.Repo.Owner r) (gitea.Repo.Name r)
           (model.Build.Commit b) true;
  let f := path_Clean f in
  let f := f +:+ "/" +:+ "*" in
  forEach (dirEntry c u r b f) tree [].

(** The loop of [Repos], run for at most [fuel] pages: the repositories
    gathered and the error, or [None] when the pages do not end within
    [fuel]. *)
Fixpoint reposLoop (fuel : nat) (c : gitea.oauthclient.t) (client : Client)
  (page : Z) (repos : list model.Repo.t)
  : option (list model.Repo.t * option error) :=
  match fuel with
  | O => None
  | S fuel' =>
      match ListMyRepos client page 50 with
      | Err err => Some (repos, Some err)
      | Ok all =>
          let repos :=
            repos ++ map (fun repo => toRepo repo (gitea.oauthclient.PrivateMode c))
                       all in
          if (length all =? 0)%nat then Some (repos, None)
          else reposLoop fuel' c client (int_wrap (page + 1)) repos
      end
  end.

(** [Repos]: all the repositories of the account, page by page. *)
Definition Repos (fuel : nat) (c : gitea.oauthclient.t) (u : gitea.User.t)
  : option (list model.Repo.t * option error) :=
  match newClientToken c (gitea.User.Token u) with
  | Err err => Some ([], Some err)
  | Ok client => reposLoop fuel c client 1 []
  end.

(** [Netrc]: the machine account when one is configured, the login and
    token of the user otherwise. *)
Definition Netrc (c : gitea.oauthclient.t) (u : gitea.User.t) : model.Netrc.t :=
  if negb (String.eqb (gitea.oauthclient.Password c) EmptyString)
  then {| model.Netrc.Login := gitea.oauthclient.Username c;
          model.Netrc.Password := gitea.oauthclient.Password c;
          model.Netrc.Machine := gitea.oauthclient.Machine c |}
  else {| model.Netrc.Login := gitea.User.Login u;
          model.Netrc.Password := gitea.User.Token u;
          model.Netrc.Machine := gitea.oauthclient.Machine c |}.

End GiteaRemote.

(** * What the planner is measured against *)

(** ** The dependency resolver *)

(** A set of names every one of which names an item, and which holds the
    dependencies of every item it names. *)
Definition names_closed (items : list buildItem.t) (S : string -> Prop) : Prop :=
  (forall name, S name -> containsItemWithName name items = true)
  /\ (forall item, In item items -> S (itemName item) ->
      forall dep, In dep (buildItem.DependsOn item) -> S dep).

(** [survivors] are the items of [items], in their order, whose name lies
    in the greatest closed set of names. *)
Definition survivors_by_name (items survivors : list buildItem.t) : Prop :=
  survivors
  = List.filter (fun item => containsItemWithName (itemName item) survivors) items
  /\ names_closed items (fun name => containsItemWithName name survivors = true)
  /\ (forall S, names_closed items S ->
      forall name, S name -> containsItemWithName name survivors = true).

(** Every dependency of every item of [survivors] is the name of one of
    them: the rule of the specification. *)
Definition dependencies_resolved (survivors : list buildItem.t) : Prop :=
  forall item, In item survivors ->
  forall dep, In dep (buildItem.DependsOn item) ->
  containsItemWithName dep survivors = true.

(** [survivors] is the greatest selection of [items] that obeys the rule,
    item by item. *)
Definition greatest_resolved_selection (items survivors : list buildItem.t) : Prop :=
  survivors `sublist_of` items
  /\ dependencies_resolved survivors
  /\ (forall selection, selection `sublist_of` items ->
      dependencies_resolved selection -> selection `sublist_of` survivors).

(** The resolver as the specification words it. *)
Definition resolver_is_greatest_fixed_point : Prop :=
  forall items,
    greatest_resolved_selection items (filterItemsWithMissingDependencies items).

(** An item is marked in some round of the resolver: it is appended to
    [itemsToRemove] in the call on [items] or in a recursive call. *)
Inductive marked : list buildItem.t -> buildItem.t -> Prop :=
| marked_now items item :
    In item (itemsToRemove items) -> marked items item
| marked_later items item :
    itemsToRemove items <> [] ->
    marked (filtered items (itemsToRemove items)) item ->
    marked items item.

(** ** [sanitizePath] *)

(** A name on which [sanitizePath] has nothing left to strip. *)
Definition sanitized (s configFolder : string) : bool :=
  negb (HasSuffix s ".yml")
  && negb (HasPrefix s configFolder && negb (String.eqb configFolder EmptyString))
  && negb (HasPrefix s ".").

(** The round trip as the specification words it. *)
Definition sanitizePath_idempotent : Prop :=
  forall x c : string, sanitizePath (sanitizePath x c) c = sanitizePath x c.

(** ** The environment of the substitution *)

(** [b] with another extra environment [b.Envs]. *)
Definition withEnvs (b : procBuilder.t) (envs : Env) : procBuilder.t :=
  {| procBuilder.Repo := procBuilder.Repo b;
     procBuilder.Curr := procBuilder.Curr b;
     procBuilder.Last := procBuilder.Last b;
     procBuilder.Netrc := procBuilder.Netrc b;
     procBuilder.Secs := procBuilder.Secs b;
     procBuilder.Regs := procBuilder.Regs b;
     procBuilder.Link := procBuilder.Link b;
     procBuilder.Yamls := procBuilder.Yamls b;
     procBuilder.Envs := envs |}.

(** The precedence of the extra environment as the specification words
    it: a key of [b.Envs] resolves to its value there. *)
Definition extra_environment_wins : Prop :=
  forall (C : Collaborators) (b : procBuilder.t)
         (metadata : frontend.Metadata.t) (axis : Env) (key value : string),
    procBuilder.Envs b !! key = Some value ->
    environmentVariables b metadata axis !! key = Some value.

(** The value last written for [key]: the axis, else the legacy
    metadata, else the metadata. *)
Definition lastWritten `{Collaborators} (metadata : frontend.Metadata.t)
  (axis : Env) (key : string) : option string :=
  match axis !! key with
  | Some value => Some value
  | None =>
      match Metadata_EnvironDrone metadata !! key with
      | Some value => Some value
      | None => Metadata_Environ metadata !! key
      end
  end.

(** ** The process list *)

(** The step descriptors of the final process list: what
    [setBuildStepsOnBuild] appends after the descriptors of the items. *)
Definition stepProcs (build : model.Build.t) (buildItems : list buildItem.t)
  : list model.Proc.t :=
  drop (length buildItems) (emittedProcs build buildItems).

(** The [n] values a sequence takes when it is incremented [n] times
    from [p]. *)
Fixpoint pidsFrom (p : Z) (n : nat) : list Z :=
  match n with
  | O => []
  | S n' => int_wrap (p + 1) :: pidsFrom (p + 1) n'
  end.

(** The largest PID of the items, or [p] when none is larger: the value
    of [pidSequence] after the first loop of [setBuildStepsOnBuild]. *)
Definition maxPID (p : Z) (buildItems : list buildItem.t) : Z :=
  fold_left
    (fun p item =>
       if p <? model.Proc.PID (buildItem.Proc item)
       then model.Proc.PID (buildItem.Proc item)
       else p)
    buildItems p.

(** The number of steps of all the items. *)
Definition totalSteps (buildItems : list buildItem.t) : nat :=
  sum_list (map stepCount buildItems).

(** [proc] is the descriptor [setBuildStepsOnBuild] makes in [build] for
    one of the [steps] of [item]. *)
Definition stepAmong (build : model.Build.t) (item : buildItem.t)
  (steps : list backend.Step.t) (proc : model.Proc.t) : Prop :=
  model.Proc.PPID proc = model.Proc.PID (buildItem.Proc item)
  /\ model.Proc.BuildID proc = model.Build.ID build
  /\ model.Proc.State proc
     = (if decide (model.Proc.State (buildItem.Proc item) = model.StatusSkipped)
        then model.StatusSkipped
        else model.StatusPending)
  /\ exists step,
       In step steps /\ model.Proc.Name proc = backend.Step.Alias step.

(** [proc] is the descriptor of a step of [item] in [build]. *)
Definition stepOf (build : model.Build.t) (item : buildItem.t)
  (proc : model.Proc.t) : Prop :=
  stepAmong build item
    (flat_map backend.Stage.Steps
       (backend.Config.Stages (buildItem.Config item)))
    proc.

(** [new] are the descriptors of [steps], numbered on from [p]. *)
Definition appends (build : model.Build.t) (item : buildItem.t)
  (steps : list backend.Step.t) (p : Z) (new : list model.Proc.t) : Prop :=
  map model.Proc.PID new = pidsFrom p (length steps)
  /\ Forall (stepAmong build item steps) new.

(** ** The planner *)

(** The name [Build] gives the items of document [y]. *)
Definition documentName (b : procBuilder.t) (y : FileMeta.t) : string :=
  sanitizePath (FileMeta.Name y) (model.Repo.Config (procBuilder.Repo b)).

(** The environment document [y] is substituted in on [axis] when the
    next PID is [pid]. *)
Definition axisEnviron `{Collaborators} (b : procBuilder.t) (y : FileMeta.t)
  (pid : Z) (axis : Env) : Env :=
  environmentVariables b
    (metadataFromStruct (procBuilder.Repo b) (procBuilder.Curr b)
       (procBuilder.Last b) (newProc b y pid axis) (procBuilder.Link b))
    axis.

(** [item] is what the loop body of [Build] makes of document [y] on
    [axis] at PID [pid], [parsed] being the definition it parses. *)
Definition compiled_from `{Collaborators} (b : procBuilder.t) (y : FileMeta.t)
  (axis : Env) (pid : Z) (parsed : yaml_Config) (item : buildItem.t) : Prop :=
  parsedDefinition b y pid axis = Ok parsed
  /\ linter_Lint (model.Repo.IsTrusted (procBuilder.Repo b)) parsed = None
  /\ buildItem.Proc item
     = (if negb (Branches_Match parsed (model.Build.Branch (procBuilder.Curr b)))
        then withState (newProc b y pid axis) model.StatusSkipped
        else newProc b y pid axis)
  /\ buildItem.Labels item = Some (default ∅ (yaml_Labels parsed))
  /\ buildItem.DependsOn item = yaml_DependsOn parsed
  /\ buildItem.RunsOn item = yaml_RunsOn parsed
  /\ backend.Config.Stages (buildItem.Config item) <> [].

(** [item] comes from one of the documents of [b], on one of its axes. *)
Definition item_of_plan `{Collaborators} (b : procBuilder.t)
  (parsed : yaml_Config) (item : buildItem.t) : Prop :=
  exists y axes axis,
    In y (procBuilder.Yamls b)
    /\ documentAxes y = Ok axes
    /\ In axis axes
    /\ compiled_from b y axis (model.Proc.PID (buildItem.Proc item)) parsed item.

(** The number of items [Build] compiles, before the resolver runs. *)
Definition compiledCount `{Collaborators} (b : procBuilder.t) (r : Rand) : nat :=
  match compileItems b r with
  | Ok st => length (items st)
  | Err _ => O
  end.

(** The PIDs assigned in one build, in the order of assignment: those of
    the items [Build] has gathered when its loops end, before the
    resolver prunes them, then those [setBuildStepsOnBuild] gives to the
    steps of the items that are left. *)
Definition assignedPIDs `{Collaborators} (b : procBuilder.t) (r : Rand)
  (build : model.Build.t) : list Z :=
  match compileItems b r with
  | Err _ => []
  | Ok st =>
      map (fun item => model.Proc.PID (buildItem.Proc item)) (items st)
      ++ map model.Proc.PID
           (stepProcs build (filterItemsWithMissingDependencies (items st)))
  end.

(** The numbering as the specification words it: in a successful plan
    the PIDs of the final process list increase strictly, no two of them
    are equal, and no PID is assigned twice within the build. *)
Definition PIDs_never_reused : Prop :=
  forall (C : Collaborators) (b : procBuilder.t) (r : Rand)
         (build : model.Build.t) (survivors : list buildItem.t),
    Build b r = (survivors, None) ->
    Z.of_nat (compiledCount b r) + Z.of_nat (totalSteps survivors) < 2 ^ 63 ->
    StronglySorted Z.lt (map model.Proc.PID (emittedProcs build survivors))
    /\ NoDup (map model.Proc.PID (emittedProcs build survivors))
    /\ NoDup (assignedPIDs b r build).

(** The uniqueness of names as the specification words it. *)
Definition surviving_names_unique : Prop :=
  forall (C : Collaborators) (b : procBuilder.t) (r : Rand)
         (survivors : list buildItem.t),
    Build b r = (survivors, None) -> NoDup (map itemName survivors).

(** Document [y] fails on [axis] when it is planned at [pid]: in the
    substitution, in the parser or in the linter. *)
Definition axisFailsAt `{Collaborators} (b : procBuilder.t) (y : FileMeta.t)
  (pid : Z) (axis : Env) : Prop :=
  (exists err,
      envsubst_ b (FileMeta.Data y) (axisEnviron b y pid axis) = Err err)
  \/ (exists substituted err,
        envsubst_ b (FileMeta.Data y) (axisEnviron b y pid axis) = Ok substituted
        /\ yaml_ParseString substituted = Err err)
  \/ (exists parsed err,
        parsedDefinition b y pid axis = Ok parsed
        /\ linter_Lint (model.Repo.IsTrusted (procBuilder.Repo b)) parsed
           = Some err).

(** The loops of [Build], started with the random state [r], come to
    [axis] of document [y] in the state [st]: the documents sorted before
    [y] and the axes of [y] before [axis] have passed. *)
Definition reachesAxis `{Collaborators} (b : procBuilder.t) (r : Rand)
  (y : FileMeta.t) (axis : Env) (st : loopState) : Prop :=
  exists before after st0 axes pre post,
    sort_ByName (procBuilder.Yamls b) = before ++ y :: after
    /\ forEach (buildDocument b) before
         {| items := []; pidSequence := 1; rng := r |} = Ok st0
    /\ documentAxes y = Ok axes
    /\ axes = pre ++ axis :: post
    /\ forEach (buildAxis b y) pre st0 = Ok st.

(** Document [y] fails in the run of [Build]: its matrix does not parse,
    or the loops come to one of its axes and it fails there, at the PID
    the sequence has reached. *)
Definition documentFails `{Collaborators} (b : procBuilder.t) (r : Rand)
  (y : FileMeta.t) : Prop :=
  (exists err, matrix_ParseString (FileMeta.Data y) = Err err)
  \/ (exists axis st,
        reachesAxis b r y axis st /\ axisFailsAt b y (pidSequence st) axis).

(** Document [y] fails on [axis] whatever the PID it is planned at. *)
Definition axisFails `{Collaborators} (b : procBuilder.t) (y : FileMeta.t)
  (axis : Env) : Prop :=
  forall pid, axisFailsAt b y pid axis.

(** Document [y] cannot pass, wherever the loops come to it: its matrix
    does not parse, or it fails on one of its axes whatever the PID. *)
Definition documentFailsAnywhere `{Collaborators} (b : procBuilder.t)
  (y : FileMeta.t) : Prop :=
  (exists err, matrix_ParseString (FileMeta.Data y) = Err err)
  \/ (exists axes axis,
        documentAxes y = Ok axes /\ In axis axes /\ axisFails b y axis).

(** The invariant of the loops: the items carry the PIDs 1, 2, ... in
    order, the next PID follows them, and each item is compiled from a
    document of the builder. *)
Definition loopInvariant `{Collaborators} (b : procBuilder.t) (st : loopState) : Prop :=
  map (fun item => model.Proc.PID (buildItem.Proc item)) (items st)
  = pidsFrom 0 (length (items st))
  /\ pidSequence st = int_wrap (Z.of_nat (length (items st)) + 1)
  /\ Forall (fun item => exists parsed, item_of_plan b parsed item) (items st).

(** ** The process list in closed form *)

(** The descriptor of [step] of [item] in [build], with PID [pid], in the
    group [gid]. *)
Definition expectedStep (build : model.Build.t) (item : buildItem.t)
  (step : backend.Step.t) (pid gid : Z) : model.Proc.t :=
  {| model.Proc.ID := 0;
     model.Proc.BuildID := model.Build.ID build;
     model.Proc.PID := pid;
     model.Proc.PPID := model.Proc.PID (buildItem.Proc item);
     model.Proc.PGID := gid;
     model.Proc.Name := backend.Step.Alias step;
     model.Proc.State :=
       if decide (model.Proc.State (buildItem.Proc item) = model.StatusSkipped)
       then model.StatusSkipped
       else model.StatusPending;
     model.Proc.Environ := ∅ |}.

(** The descriptors of [steps], numbered [pid + 1], [pid + 2], ..., all
    in the group [gid]. *)
Fixpoint expectedSteps (build : model.Build.t) (item : buildItem.t)
  (gid pid : Z) (steps : list backend.Step.t) : list model.Proc.t :=
  match steps with
  | [] => []
  | step :: rest =>
      expectedStep build item step (pid + 1) gid
      :: expectedSteps build item gid (pid + 1) rest
  end.

(** The descriptors of the steps of [stages], numbered on from [pid]: the
    group of a stage is the PID of its first step. *)
Fixpoint expectedStages (build : model.Build.t) (item : buildItem.t)
  (pid : Z) (stages : list backend.Stage.t) : list model.Proc.t :=
  match stages with
  | [] => []
  | stage :: rest =>
      expectedSteps build item (pid + 1) pid (backend.Stage.Steps stage)
      ++ expectedStages build item
           (pid + Z.of_nat (length (backend.Stage.Steps stage))) rest
  end.

(** The descriptors of the steps of [buildItems], numbered on from [pid]. *)
Fixpoint expectedItems (build : model.Build.t) (pid : Z)
  (buildItems : list buildItem.t) : list model.Proc.t :=
  match buildItems with
  | [] => []
  | item :: rest =>
      expectedStages build item pid
        (backend.Config.Stages (buildItem.Config item))
      ++ expectedItems build (pid + Z.of_nat (stepCount item)) rest
  end.

(** Every descriptor of [procs] names, as its group, a descriptor of
    [procs] that leads its own group and, as its parent, nothing or the
    descriptor of an item of [procs]. *)
Definition ids_resolve (procs : list model.Proc.t) : Prop :=
  forall proc, In proc procs ->
    (exists leader,
        In leader procs
        /\ model.Proc.PID leader = model.Proc.PGID proc
        /\ model.Proc.PGID leader = model.Proc.PID leader
        /\ model.Proc.PPID leader = model.Proc.PPID proc)
    /\ (model.Proc.PPID proc = 0
        \/ exists parent,
             In parent procs
             /\ model.Proc.PID parent = model.Proc.PPID proc
             /\ model.Proc.PPID parent = 0).

(** ** The jobs of a plan *)

(** The axes [Build] runs document [y] on: none when its matrix does not
    parse. *)
Definition axesOf `{Collaborators} (y : FileMeta.t) : list Env :=
  match documentAxes y with
  | Ok axes => axes
  | Err _ => []
  end.

(** The jobs of the builder: for each document in sorted order, for each
    of its axes in order, the name of the document and the axis. *)
Definition jobs `{Collaborators} (b : procBuilder.t) : list (string * Env) :=
  flat_map
    (fun y => map (fun axis => (documentName b y, axis)) (axesOf y))
    (sort_ByName (procBuilder.Yamls b)).

(** The job an item stands for: its name and its environment. *)
Definition itemJob (item : buildItem.t) : string * Env :=
  (itemName item, model.Proc.Environ (buildItem.Proc item)).

(** [item] holds what the compiler made of a parsed definition under the
    options of [toInternalRepresentation], the process id being zero. *)
Definition compiledWith `{Collaborators} (b : procBuilder.t)
  (item : buildItem.t) : Prop :=
  exists parsed environ metadata rnd,
    buildItem.Config item
    = toInternalRepresentation b parsed environ metadata 0 rnd
    /\ buildItem.Platform item
       = frontend.System.Arch (frontend.Metadata.Sys metadata).

(** ** The Gitea remote *)

(** The pattern [Dir] matches the paths of a tree against. *)
Definition dirPattern `{Gitea} (f : string) : string :=
  path_Clean f +:+ "/*".

(** The entries [Dir] fetches: the blobs whose path matches the pattern. *)
Definition wanted `{Gitea} (f : string) (tree : list gitea.GitEntry.t)
  : list gitea.GitEntry.t :=
  List.filter
    (fun e =>
       filepath_Match (dirPattern f) (gitea.GitEntry.Path e)
       && String.eqb (gitea.GitEntry.Type_ e) "blob")
    tree.

(** [config] is the document of the entry [e]: named by its path, with
    the content [File] fetches. *)
Definition documentOf `{Gitea} (c : gitea.oauthclient.t) (u : gitea.User.t)
  (r : gitea.Repo.t) (b : model.Build.t) (e : gitea.GitEntry.t)
  (config : FileMeta.t) : Prop :=
  FileMeta.Name config = gitea.GitEntry.Path e
  /\ File c u r b (gitea.GitEntry.Path e) = Ok (FileMeta.Data config).

(** The pages from [page] on are [pages], none of them empty. *)
Fixpoint pagesFrom `{Gitea} (client : Client) (page : Z)
  (pages : list (list Repository)) : Prop :=
  match pages with
  | [] => True
  | all :: rest =>
      ListMyRepos client page 50 = Ok all
      /\ all <> []
      /\ pagesFrom client (page + 1) rest
  end.

(** The repositories of [pages] as [Repos] converts them. *)
Definition convertedRepos `{Gitea} (c : gitea.oauthclient.t)
  (pages : list (list Repository)) : list model.Repo.t :=
  map (fun repo => toRepo repo (gitea.oauthclient.PrivateMode c)) (concat pages).

(** * Sample collaborators and inputs

    Small stand-ins for the packages behind [Collaborators], and a few
    documents, to run the planner on. *)

Module Sample.

(** What the sample parser keeps of a pipeline. *)
Record Config : Type := mkConfig {
  branches : list string;
  platform : string;
  labels : option Env;
  dependsOn : list string;
  runsOn : list string;
  privileged : bool;
  steps : list string
}.

(** What follows the first occurrence of [marker] in [s]. *)
Fixpoint after (s marker : string) : option string :=
  if HasPrefix s marker then Some (TrimPrefix s marker)
  else match s with
       | EmptyString => None
       | String _ rest => after rest marker
       end.

(** The characters of [s] before the first [stop]. *)
Fixpoint upto (s : string) (stop : ascii) : string :=
  match s with
  | EmptyString => EmptyString
  | String c rest =>
      if Ascii.eqb c stop then EmptyString else String c (upto rest stop)
  end.

(** Reads [branches: NAME], [depends_on: [ NAME ]], [labels:],
    [privileged: true] and the steps [build:] and [test:] of a
    [pipeline:] section. *)
Definition parse (s : string) : result Config :=
  if negb (Contains s "pipeline:") then Err "yaml: no pipeline section"
  else
    Ok {| branches :=
            match after s "branches: " with
            | Some rest => [upto rest (ascii_of_nat 10)]
            | None => []
            end;
          platform := EmptyString;
          labels :=
            if Contains s "labels:" then Some {[ "location" := "europe" ]}
            else None;
          dependsOn :=
            match after s "depends_on: [ " with
            | Some rest => [upto rest " "]
            | None => []
            end;
          runsOn := [];
          privileged := Contains s "privileged: true";
          steps :=
            (if Contains s "  build:" then ["build"] else [])
            ++ (if Contains s "  test:" then ["test"] else []) |}.

(** An empty include list matches every branch. *)
Definition branchesMatch (c : Config) (branch : string) : bool :=
  match branches c with
  | [] => true
  | include => existsb (String.eqb branch) include
  end.

Definition matrixParse (data : string) : result (list Env) :=
  if negb (Contains data "matrix:") then Ok []
  else if Contains data "GO_VERSION:"
       then Ok [ {[ "GO_VERSION" := "1.10" ]}; {[ "GO_VERSION" := "1.11" ]} ]
       else Err "matrix: cannot parse the axes".

(** Replaces every [${NAME}]; [name] holds the characters read since an
    opening brace, last first. *)
Fixpoint eval (mapping : string -> string) (s : string) (name : option string)
  : result string :=
  match s, name with
  | EmptyString, None => Ok EmptyString
  | EmptyString, Some _ => Err "envsubst: missing closing brace"
  | String c rest, None =>
      match rest with
      | String c' rest' =>
          if Ascii.eqb c "$" && Ascii.eqb c' "{"
          then eval mapping rest' (Some EmptyString)
          else r ← eval mapping rest None; Ok (String c r)
      | EmptyString => Ok (String c EmptyString)
      end
  | String c rest, Some read =>
      if Ascii.eqb c "}"
      then r ← eval mapping rest None; Ok (mapping (String.rev read) +:+ r)
      else eval mapping rest (Some (String c read))
  end.

Definition lint (trusted : bool) (c : Config) : option error :=
  if negb trusted && privileged c
  then Some "Insufficient privileges to use privileged mode"
  else None.

(** A clone stage, then one stage for each step; nothing at all for a
    pipeline without steps. *)
Definition compile (opts : compiler.Options.t) (c : Config) : backend.Config.t :=
  let stage (alias : string) :=
    {| backend.Stage.Name := compiler.Options.Prefix opts +:+ "_stage_" +:+ alias;
       backend.Stage.Alias := alias;
       backend.Stage.Steps :=
         [ {| backend.Step.Name := compiler.Options.Prefix opts +:+ "_" +:+ alias;
              backend.Step.Alias := alias |} ] |} in
  {| backend.Config.Stages :=
       match steps c with
       | [] => []
       | aliases => stage "clone" :: map stage aliases
       end |}.

Definition environ (m : frontend.Metadata.t) : Env :=
  {[ "CI_JOB_NUMBER" := itoa (frontend.Job.Number (frontend.Metadata.Job m));
     "CI_BUILD_EVENT" := frontend.Build.Event (frontend.Metadata.Curr m);
     "CI_REPO" := frontend.Repo.Name (frontend.Metadata.Repo m) ]}.

Definition environDrone (m : frontend.Metadata.t) : Env :=
  {[ "DRONE_JOB_NUMBER" := itoa (frontend.Job.Number (frontend.Metadata.Job m));
     "DRONE_REPO" := frontend.Repo.Name (frontend.Metadata.Repo m) ]}.

Definition setPlatform (m : frontend.Metadata.t) (platform : string)
  : frontend.Metadata.t :=
  {| frontend.Metadata.Repo := frontend.Metadata.Repo m;
     frontend.Metadata.Curr := frontend.Metadata.Curr m;
     frontend.Metadata.Prev := frontend.Metadata.Prev m;
     frontend.Metadata.Job := frontend.Metadata.Job m;
     frontend.Metadata.Sys :=
       {| frontend.System.Name := frontend.System.Name (frontend.Metadata.Sys m);
          frontend.System.Link := frontend.System.Link (frontend.Metadata.Sys m);
          frontend.System.Host := frontend.System.Host (frontend.Metadata.Sys m);
          frontend.System.Arch :=
            if String.eqb platform EmptyString then "linux/amd64" else platform |} |}.

Definition host (link : string) : result string :=
  Ok (TrimPrefix link "https://").

Definition secretMatch (sec : model.Secret.t) (event : string) : bool :=
  match model.Secret.Events sec with
  | [] => true
  | events => existsb (String.eqb event) events
  end.

(** A double quote, the value with each line feed written as a backslash
    and an n, a double quote. *)
Fixpoint escape (s : string) : string :=
  match s with
  | EmptyString => EmptyString
  | String c rest =>
      if Ascii.eqb c (ascii_of_nat 10) then String "\" (String "n" (escape rest))
      else String c (escape rest)
  end.

Definition quote (s : string) : string :=
  String (ascii_of_nat 34) (escape s +:+ String (ascii_of_nat 34) EmptyString).

Definition byName (files : list FileMeta.t) : list FileMeta.t :=
  merge_sort (fun x y => String.leb (FileMeta.Name x) (FileMeta.Name y)) files.

Definition limits : compiler.Limits.t :=
  {| compiler.Limits.MemSwapLimit := 0; compiler.Limits.MemLimit := 0;
     compiler.Limits.ShmSize := 0; compiler.Limits.CPUQuota := 0;
     compiler.Limits.CPUShares := 0; compiler.Limits.CPUSet := EmptyString |}.

Definition collaborators : Collaborators :=
  {| yaml_Config := Config;
     yaml_ParseString := parse;
     Branches_Match := branchesMatch;
     yaml_Platform := platform;
     yaml_Labels := labels;
     yaml_DependsOn := dependsOn;
     yaml_RunsOn := runsOn;
     matrix_ParseString := matrixParse;
     envsubst_Eval := fun s mapping => eval mapping s None;
     linter_Lint := lint;
     compiler_Compile := compile;
     Metadata_Environ := environ;
     Metadata_EnvironDrone := environDrone;
     Metadata_SetPlatform := setPlatform;
     url_Parse_Host := host;
     Secret_Match := secretMatch;
     Sprintf_q := quote;
     sort_ByName := byName;
     sort_ByName_Permutation := merge_sort_Permutation _;
     Rand := nat;
     rand_Int := fun n => (7919 * Z.of_nat n + 17, S n);
     Config_Pipeline :=
       {| Pipeline.Limits := limits; Pipeline.Volumes := [];
          Pipeline.Networks := []; Pipeline.Privileged := ["plugins/docker"] |} |}.

(** *** A repository, a build and some documents *)

Definition repo : model.Repo.t :=
  {| model.Repo.FullName := "octocat/hello";
     model.Repo.Link := "https://git.example.com/octocat/hello";
     model.Repo.Clone := "https://git.example.com/octocat/hello.git";
     model.Repo.Branch := "main";
     model.Repo.Config := ".woodpecker/";
     model.Repo.IsPrivate := false;
     model.Repo.IsTrusted := false |}.

Definition build (id : Z) : model.Build.t :=
  {| model.Build.ID := id; model.Build.Number := id; model.Build.Parent := 0;
     model.Build.Created := 0; model.Build.Started := 0; model.Build.Finished := 0;
     model.Build.Status := "pending"; model.Build.Event := "push";
     model.Build.Link := "https://git.example.com/octocat/hello/commit/4f2a";
     model.Build.Deploy := EmptyString; model.Build.Commit := "4f2a";
     model.Build.Ref := "refs/heads/main"; model.Build.Refspec := EmptyString;
     model.Build.Branch := "main"; model.Build.Message := "fix the build";
     model.Build.Author := "octocat"; model.Build.Email := "octocat@example.com";
     model.Build.Avatar := EmptyString; model.Build.ChangedFiles := [];
     model.Build.Procs := [] |}.

Definition builder (yamls : list FileMeta.t) (envs : Env) : procBuilder.t :=
  {| procBuilder.Repo := repo;
     procBuilder.Curr := build 7;
     procBuilder.Last := build 6;
     procBuilder.Netrc :=
       {| model.Netrc.Machine := "git.example.com"; model.Netrc.Login := "octocat";
          model.Netrc.Password := "token" |};
     procBuilder.Secs := [];
     procBuilder.Regs := [];
     procBuilder.Link := "https://ci.example.com";
     procBuilder.Yamls := yamls;
     procBuilder.Envs := envs |}.

(** No matrix, no branch filter, two steps. *)
Definition ci_yml : FileMeta.t :=
  {| FileMeta.Name := ".woodpecker/ci.yml";
     FileMeta.Data := "pipeline:
  build:
    image: golang
  test:
    image: golang
" |}.

(** A matrix of two Go versions. *)
Definition matrix_yml : FileMeta.t :=
  {| FileMeta.Name := ".woodpecker/matrix.yml";
     FileMeta.Data := "matrix:
  GO_VERSION:
    - 1.10
    - 1.11
pipeline:
  build:
    image: golang:${GO_VERSION}
" |}.

(** Runs on the release branch only. *)
Definition release_yml : FileMeta.t :=
  {| FileMeta.Name := ".woodpecker/release.yml";
     FileMeta.Data := "branches: release
pipeline:
  build:
    image: golang
" |}.

(** No pipeline section: the parser rejects it. *)
Definition broken_yml : FileMeta.t :=
  {| FileMeta.Name := ".woodpecker/broken.yml";
     FileMeta.Data := "steps:
  build:
    image: golang
" |}.

(** A pipeline without steps: it compiles to no stage. *)
Definition empty_yml : FileMeta.t :=
  {| FileMeta.Name := ".woodpecker/a-empty.yml";
     FileMeta.Data := "pipeline:
" |}.

(** A matrix of two Go versions, each leg of which depends on the lint
    pipeline of its version. *)
Definition deploy_yml : FileMeta.t :=
  {| FileMeta.Name := ".woodpecker/deploy.yml";
     FileMeta.Data := "matrix:
  GO_VERSION:
    - 1.10
    - 1.11
depends_on: [ lint-${GO_VERSION} ]
pipeline:
  build:
    image: golang:${GO_VERSION}
" |}.

(** The lint pipeline of Go 1.11; there is none for Go 1.10. *)
Definition lint_yml : FileMeta.t :=
  {| FileMeta.Name := ".woodpecker/lint-1.11.yml";
     FileMeta.Data := "pipeline:
  test:
    image: golang:1.11
" |}.

(** Depends on a lint pipeline that no document defines. *)
Definition notify_yml : FileMeta.t :=
  {| FileMeta.Name := ".woodpecker/notify.yml";
     FileMeta.Data := "depends_on: [ lint-1.10 ]
pipeline:
  build:
    image: mailer
" |}.

(** *** Items for the resolver *)

Definition item (pid : Z) (name : string) (dependsOn : list string)
  : buildItem.t :=
  {| buildItem.Proc :=
       {| model.Proc.ID := 0; model.Proc.BuildID := 7;
          model.Proc.PID := pid; model.Proc.PPID := 0; model.Proc.PGID := pid;
          model.Proc.Name := name; model.Proc.State := model.StatusPending;
          model.Proc.Environ := ∅ |};
     buildItem.Platform := "linux/amd64";
     buildItem.Labels := Some ∅;
     buildItem.DependsOn := dependsOn;
     buildItem.RunsOn := [];
     buildItem.Config := {| backend.Config.Stages := [] |} |}.

(** The items of [deploy_yml] and [lint_yml] as far as the resolver reads
    them: two legs named "deploy", the first of which depends on the
    missing "lint-1.10", and the lint pipeline of Go 1.11. *)
Definition deploy_1_10 : buildItem.t := item 1 "deploy" ["lint-1.10"].
Definition deploy_1_11 : buildItem.t := item 2 "deploy" ["lint-1.11"].
Definition lint_1_11 : buildItem.t := item 3 "lint-1.11" [].

(** *** Plans *)

(** The items planned for [yamls], with no extra environment. *)
(** The first state of the random generator. *)
Definition seed : @Rand collaborators := 0%nat.

Definition planned (yamls : list FileMeta.t) : list buildItem.t :=
  fst (Build (builder yamls ∅) seed).

(** The item planned for [ci_yml] alone. *)
Definition ci_item : buildItem.t :=
  hd (item 1 "ci" []) (planned [ci_yml]).


(** *** A parser with a rule on retries *)

(** The sample parser, which besides accepts no [retries: 2]. *)
Definition strictParse (s : string) : result Config :=
  if Contains s "retries: 2" then Err "yaml: retries must be below 2"
  else parse s.

(** The sample collaborators with that parser. *)
Definition strict : Collaborators :=
  {| yaml_Config := Config;
     yaml_ParseString := strictParse;
     Branches_Match := branchesMatch;
     yaml_Platform := platform;
     yaml_Labels := labels;
     yaml_DependsOn := dependsOn;
     yaml_RunsOn := runsOn;
     matrix_ParseString := matrixParse;
     envsubst_Eval := fun s mapping => eval mapping s None;
     linter_Lint := lint;
     compiler_Compile := compile;
     Metadata_Environ := environ;
     Metadata_EnvironDrone := environDrone;
     Metadata_SetPlatform := setPlatform;
     url_Parse_Host := host;
     Secret_Match := secretMatch;
     Sprintf_q := quote;
     sort_ByName := byName;
     sort_ByName_Permutation := merge_sort_Permutation _;
     Rand := nat;
     rand_Int := fun n => (7919 * Z.of_nat n + 17, S n);
     Config_Pipeline :=
       {| Pipeline.Limits := limits; Pipeline.Volumes := [];
          Pipeline.Networks := []; Pipeline.Privileged := ["plugins/docker"] |} |}.

Definition strictSeed : @Rand strict := 0%nat.

(** The retries follow the job number: the document parses when it is
    planned at PID 1, and not when it is planned at PID 2. *)
Definition retry_yml : FileMeta.t :=
  {| FileMeta.Name := ".woodpecker/retry.yml";
     FileMeta.Data := "pipeline:
  build:
    image: golang
    retries: ${CI_JOB_NUMBER}
" |}.

(** The state of the loops of [Build] after [ci_yml], with the strict
    parser. *)
Definition after_ci : @loopState strict :=
  let start := {| items := []; pidSequence := 1; rng := strictSeed |} in
  match
    forEach (@buildDocument strict (builder [ci_yml; retry_yml] ∅)) [ci_yml] start
  with
  | Ok st => st
  | Err _ => start
  end.

(** *** A Gitea server *)

(** A repository as the server lists it. *)
Record ListedRepo : Type := mkListedRepo {
  fullName : string;
  private : bool
}.

(** The tree of octocat/hello: two pipeline documents in the folder, a
    folder below it with a document of its own, and a README. *)
Definition helloTree : list gitea.GitEntry.t :=
  [ {| gitea.GitEntry.Path := ".woodpecker"; gitea.GitEntry.Type_ := "tree" |};
    {| gitea.GitEntry.Path := ".woodpecker/ci.yml"; gitea.GitEntry.Type_ := "blob" |};
    {| gitea.GitEntry.Path := ".woodpecker/scripts"; gitea.GitEntry.Type_ := "tree" |};
    {| gitea.GitEntry.Path := ".woodpecker/scripts/run.yml";
       gitea.GitEntry.Type_ := "blob" |};
    {| gitea.GitEntry.Path := ".woodpecker/release.yml";
       gitea.GitEntry.Type_ := "blob" |};
    {| gitea.GitEntry.Path := "README.md"; gitea.GitEntry.Type_ := "blob" |} ].

(** The tree of octocat/stale lists a document the server cannot serve. *)
Definition gone_yml : gitea.GitEntry.t :=
  {| gitea.GitEntry.Path := ".woodpecker/gone.yml"; gitea.GitEntry.Type_ := "blob" |}.

Definition staleTree : list gitea.GitEntry.t :=
  [ {| gitea.GitEntry.Path := ".woodpecker/ci.yml"; gitea.GitEntry.Type_ := "blob" |};
    gone_yml;
    {| gitea.GitEntry.Path := ".woodpecker/release.yml";
       gitea.GitEntry.Type_ := "blob" |} ].

(** A pattern "dir/*" matches the names directly below "dir". *)
Definition matchPattern (pattern name : string) : bool :=
  let dir := TrimSuffix pattern "*" in
  HasSuffix pattern "/*" && HasPrefix name dir
  && negb (Contains (TrimPrefix name dir) "/").

Definition listed (client : string) (page : Z) : result (list ListedRepo) :=
  if page =? 1
  then Ok [ {| fullName := "octocat/hello"; private := false |};
            {| fullName := "octocat/stale"; private := true |} ]
  else if String.eqb client "flaky" then Err "502 Bad Gateway"
  else if page =? 2
  then Ok [ {| fullName := "octocat/spoon"; private := false |} ]
  else Ok [].

Definition convert (listedRepo : ListedRepo) (privateMode : bool) : model.Repo.t :=
  {| model.Repo.FullName := fullName listedRepo;
     model.Repo.Link := "https://git.example.com/" +:+ fullName listedRepo;
     model.Repo.Clone :=
       "https://git.example.com/" +:+ fullName listedRepo +:+ ".git";
     model.Repo.Branch := "main";
     model.Repo.Config := EmptyString;
     model.Repo.IsPrivate := private listedRepo || privateMode;
     model.Repo.IsTrusted := false |}.

(** The client is its token. *)
Definition server : Gitea :=
  {| Client := string;
     NewClient := fun _ token _ =>
       if String.eqb token EmptyString then Err "token required" else Ok token;
     GetTrees := fun _ _ name _ _ =>
       if String.eqb name "hello" then Ok helloTree
       else if String.eqb name "stale" then Ok staleTree
       else Err "404 Not Found";
     GetFile := fun _ _ _ _ path =>
       if String.eqb path (FileMeta.Name ci_yml) then Ok (FileMeta.Data ci_yml)
       else if String.eqb path (FileMeta.Name release_yml)
       then Ok (FileMeta.Data release_yml)
       else Err "404 Not Found";
     Repository := ListedRepo;
     ListMyRepos := fun client page _ => listed client page;
     toRepo := convert;
     path_Clean := fun f => TrimSuffix f "/";
     filepath_Match := matchPattern |}.

Definition remote : gitea.oauthclient.t :=
  {| gitea.oauthclient.URL := "https://git.example.com";
     gitea.oauthclient.Context := EmptyString;
     gitea.oauthclient.Machine := "git.example.com";
     gitea.oauthclient.Client := "woodpecker";
     gitea.oauthclient.Secret := "s3cr3t";
     gitea.oauthclient.Username := EmptyString;
     gitea.oauthclient.Password := EmptyString;
     gitea.oauthclient.PrivateMode := false;
     gitea.oauthclient.SkipVerify := false |}.

Definition octocat : gitea.User.t :=
  {| gitea.User.Login := "octocat"; gitea.User.Token := "token" |}.

(** The same user on a connection that fails after the first page. *)
Definition flaky : gitea.User.t :=
  {| gitea.User.Login := "octocat"; gitea.User.Token := "flaky" |}.

Definition hello : gitea.Repo.t :=
  {| gitea.Repo.Owner := "octocat"; gitea.Repo.Name := "hello" |}.

Definition stale : gitea.Repo.t :=
  {| gitea.Repo.Owner := "octocat"; gitea.Repo.Name := "stale" |}.

End Sample.

(** * Properties *)

(** ** Strings and [sanitizePath] *)

(** *** Lengths of slices *)

Lemma substring_length (s : string) :
  forall n m : nat,
    (n + m <= String.length s)%nat -> String.length (substring n m s) = m.
Proof.
  induction s as [|a s IH]; intros n m Hle; simpl in *.
  - destruct n, m; simpl; lia.
  - destruct n as [|n].
    + destruct m as [|m]; simpl; [reflexivity|].
      rewrite IH by lia. reflexivity.
    + apply IH. lia.
Qed.

Lemma substring_all (s : string) : substring 0 (String.length s) s = s.
Proof. induction s as [|a s IH]; simpl; [reflexivity | now rewrite IH]. Qed.

Lemma TrimSuffix_length (s suffix : string) :
  String.length (TrimSuffix s suffix)
  = if HasSuffix s suffix
    then (String.length s - String.length suffix)%nat
    else String.length s.
Proof.
  unfold TrimSuffix. destruct (HasSuffix s suffix) eqn:E; [|reflexivity].
  unfold slice. rewrite substring_length; lia.
Qed.

Lemma TrimPrefix_length (s prefix : string) :
  String.length (TrimPrefix s prefix)
  = if HasPrefix s prefix
    then (String.length s - String.length prefix)%nat
    else String.length s.
Proof.
  unfold TrimPrefix. destruct (HasPrefix s prefix) eqn:E; [|reflexivity].
  unfold HasPrefix in E. apply andb_true_iff in E as [E _].
  apply Nat.leb_le in E.
  unfold slice. rewrite substring_length; lia.
Qed.

Lemma TrimPrefix_empty (s : string) : TrimPrefix s EmptyString = s.
Proof.
  unfold TrimPrefix, slice. destruct (HasPrefix s EmptyString); [|reflexivity].
  simpl. rewrite Nat.sub_0_r. apply substring_all.
Qed.

Lemma HasPrefix_le (s prefix : string) :
  HasPrefix s prefix = true -> (String.length prefix <= String.length s)%nat.
Proof.
  unfold HasPrefix. intros E. apply andb_true_iff in E as [E _].
  now apply Nat.leb_le in E.
Qed.

Lemma HasSuffix_le (s suffix : string) :
  HasSuffix s suffix = true -> (String.length suffix <= String.length s)%nat.
Proof.
  unfold HasSuffix. intros E. apply andb_true_iff in E as [E _].
  now apply Nat.leb_le in E.
Qed.

Lemma length_pos_of_ne_empty (c : string) :
  String.eqb c EmptyString = false -> (0 < String.length c)%nat.
Proof. destruct c; simpl; [discriminate | lia]. Qed.

(** [sanitizePath] never lengthens a name. *)
Lemma sanitizePath_length_le (s c : string) :
  (String.length (sanitizePath s c) <= String.length s)%nat.
Proof.
  unfold sanitizePath. cbv zeta.
  rewrite TrimPrefix_length.
  destruct (HasPrefix _ "."); rewrite TrimPrefix_length;
    destruct (HasPrefix _ c); rewrite TrimSuffix_length;
    destruct (HasSuffix s ".yml"); lia.
Qed.

(** [sanitizePath] leaves a name alone exactly when no affix is left on it. *)
Lemma sanitizePath_fixed_iff (s c : string) :
  sanitizePath s c = s <-> sanitized s c = true.
Proof.
  unfold sanitized. split.
  - intros Hfix.
    assert (Hlen : String.length (sanitizePath s c) = String.length s)
      by now rewrite Hfix.
    unfold sanitizePath in Hlen. cbv zeta in Hlen.
    destruct (HasSuffix s ".yml") eqn:E1.
    { exfalso. apply HasSuffix_le in E1 as Hle. simpl in Hle.
      pose proof (sanitizePath_length_le s c) as Hs.
      unfold sanitizePath in Hs. cbv zeta in Hs.
      rewrite TrimPrefix_length in Hlen.
      destruct (HasPrefix _ ".");
        rewrite TrimPrefix_length in Hlen;
        destruct (HasPrefix _ c);
        rewrite TrimSuffix_length, E1 in Hlen; simpl in Hlen; lia. }
    assert (T1 : TrimSuffix s ".yml" = s) by (unfold TrimSuffix; now rewrite E1).
    rewrite T1 in Hlen.
    destruct (HasPrefix s c && negb (String.eqb c EmptyString)) eqn:E2.
    { exfalso. apply andb_true_iff in E2 as [E2 E2'].
      apply negb_true_iff, length_pos_of_ne_empty in E2'.
      apply HasPrefix_le in E2 as Hle.
      rewrite TrimPrefix_length in Hlen.
      destruct (HasPrefix _ ".");
        rewrite TrimPrefix_length, E2 in Hlen; lia. }
    assert (T2 : TrimPrefix s c = s).
    { apply andb_false_iff in E2 as [E2|E2].
      - unfold TrimPrefix. now rewrite E2.
      - apply negb_false_iff, String.eqb_eq in E2. subst c.
        apply TrimPrefix_empty. }
    rewrite T2 in Hlen.
    destruct (HasPrefix s ".") eqn:E3; [|reflexivity].
    exfalso. apply HasPrefix_le in E3 as Hle. simpl in Hle.
    rewrite TrimPrefix_length, E3 in Hlen. simpl in Hlen. lia.
  - intros H. apply andb_true_iff in H as [H E3].
    apply andb_true_iff in H as [E1 E2].
    apply negb_true_iff in E1, E2, E3.
    unfold sanitizePath. cbv zeta.
    assert (T1 : TrimSuffix s ".yml" = s) by (unfold TrimSuffix; now rewrite E1).
    rewrite T1.
    assert (T2 : TrimPrefix s c = s).
    { apply andb_false_iff in E2 as [E2|E2].
      - unfold TrimPrefix. now rewrite E2.
      - apply negb_false_iff, String.eqb_eq in E2. subst c.
        apply TrimPrefix_empty. }
    rewrite T2. unfold TrimPrefix. now rewrite E3.
Qed.

Example sanitizePath_woodpecker :
  sanitizePath ".woodpecker/test.yml" ".woodpecker/" = "test".
Proof. reflexivity. Qed.

Example sanitizePath_second_pass :
  sanitizePath "a.yml.yml" EmptyString = "a.yml"
  /\ sanitizePath "a.yml" EmptyString = "a".
Proof. split; reflexivity. Qed.

(** C8 (as amended). Sanitizing a second time changes nothing exactly
    when the once-sanitized name has no ".yml" suffix, no non-empty
    config-folder prefix and no leading dot left. *)
Theorem sanitizePath_twice (x c : string) :
  sanitizePath (sanitizePath x c) c = sanitizePath x c
  <-> sanitized (sanitizePath x c) c = true.
Proof. apply sanitizePath_fixed_iff. Qed.

(** C8 (counterexample). A second pass strips the next ".yml". *)
Lemma sanitizePath_not_idempotent : ~ sanitizePath_idempotent.
Proof.
  intros Hclaim. specialize (Hclaim "a.yml.yml" EmptyString).
  vm_compute in Hclaim. discriminate.
Qed.

(** ** The environment and the substitution *)

Section Environment.
Context `{Collaborators}.

Lemma overwrite_lookup (dst src : Env) (key : string) :
  overwrite dst src !! key
  = match src !! key with
    | Some value => Some value
    | None => dst !! key
    end.
Proof.
  unfold overwrite.
  apply (map_fold_weak_ind
           (fun (r : Env) (m : Env) =>
              r !! key = match m !! key with
                         | Some value => Some value
                         | None => dst !! key
                         end)).
  - now rewrite lookup_empty.
  - intros k v m r _ IH.
    destruct (decide (k = key)) as [->|Hne].
    + now rewrite !lookup_insert_eq.
    + now rewrite !lookup_insert_ne.
Qed.

Lemma overwrite_union (dst src : Env) : overwrite dst src = src ∪ dst.
Proof.
  apply map_eq. intros key. rewrite overwrite_lookup.
  destruct (src !! key) eqn:E.
  - symmetry. now apply lookup_union_Some_l.
  - symmetry. now rewrite lookup_union_r.
Qed.

Lemma environmentVariables_lookup (b : procBuilder.t)
  (metadata : frontend.Metadata.t) (axis : Env) (key : string) :
  environmentVariables b metadata axis !! key = lastWritten metadata axis key.
Proof.
  unfold environmentVariables, lastWritten. cbv zeta.
  now rewrite !overwrite_lookup.
Qed.

(** C6 (as amended). The environment of the substitution is the metadata
    environment overwritten by the legacy metadata environment and then
    by the axis; the extra environment [b.Envs] is no part of it and does
    not change what a document is substituted and parsed to; it reaches
    the compiler only, after the merged environment. *)
Theorem substitution_environment (b : procBuilder.t)
  (metadata : frontend.Metadata.t) (axis : Env) :
  (forall key,
      environmentVariables b metadata axis !! key = lastWritten metadata axis key)
  /\ (forall envs,
        environmentVariables (withEnvs b envs) metadata axis
        = environmentVariables b metadata axis)
  /\ (forall envs y pid,
        parsedDefinition (withEnvs b envs) y pid axis
        = parsedDefinition b y pid axis)
  /\ (forall parsed environ procID rnd,
        exists options,
          toInternalRepresentation b parsed environ metadata procID rnd
          = compiler_Compile options parsed
          /\ compiler.Options.Environ options = [environ; procBuilder.Envs b]).
Proof.
  split; [|split; [|split]].
  - intros key. apply environmentVariables_lookup.
  - reflexivity.
  - reflexivity.
  - intros parsed environ procID rnd. eexists. split; reflexivity.
Qed.

(** X3. The compiler is given the secrets whose event list matches the
    event of the build, and every registry. *)
Lemma compiled_secrets_match (b : procBuilder.t) (parsed : yaml_Config)
  (environ : Env) (metadata : frontend.Metadata.t) (procID rnd : Z) :
  exists options,
    toInternalRepresentation b parsed environ metadata procID rnd
    = compiler_Compile options parsed
    /\ (forall secret,
          In secret (compiler.Options.Secret options)
          <-> exists sec,
                In sec (procBuilder.Secs b)
                /\ Secret_Match sec (model.Build.Event (procBuilder.Curr b)) = true
                /\ secret
                   = {| compiler.Secret.Name := model.Secret.Name sec;
                        compiler.Secret.Value := model.Secret.Value sec;
                        compiler.Secret.Match := model.Secret.Images sec |})
    /\ length (compiler.Options.Registry options) = length (procBuilder.Regs b).
Proof.
  eexists. split; [reflexivity|]. simpl. split.
  - intros secret. rewrite in_flat_map. split.
    + intros (sec & Hsec & Hin).
      destruct (Secret_Match sec _) eqn:E; simpl in Hin; [|contradiction].
      destruct Hin as [<-|[]]. now exists sec.
    + intros (sec & Hsec & E & ->). exists sec. split; [exact Hsec|].
      rewrite E. simpl. now left.
  - apply length_map.
Qed.

(** *** The resolver of placeholders *)

Lemma substring_0_0 (s : string) : substring 0 0 s = EmptyString.
Proof. now destruct s. Qed.

Lemma HasPrefix_newline (s : string) :
  HasPrefix s newline = true
  <-> exists rest, s = String (ascii_of_nat 10) rest.
Proof.
  unfold HasPrefix, slice, newline. destruct s as [|c rest]; simpl.
  - split; [discriminate | intros [? ?]; discriminate].
  - rewrite substring_0_0.
    destruct (Ascii.eqb_spec c (ascii_of_nat 10)) as [->|Hne]; simpl.
    + split; [intros _; now exists rest | reflexivity].
    + split; [discriminate | intros [r E]; congruence].
Qed.

(** [Contains s "\n"] holds exactly of the strings with a line feed
    among their characters. *)
Lemma Contains_newline (s : string) :
  Contains s newline = true
  <-> In (ascii_of_nat 10) (list_ascii_of_string s).
Proof.
  induction s as [|c rest IH].
  - simpl. split; [discriminate | contradiction].
  - change (Contains (String c rest) newline)
      with (HasPrefix (String c rest) newline || Contains rest newline).
    rewrite orb_true_iff, IH, HasPrefix_newline. simpl. split.
    + intros [[r E]|Hin]; [injection E as -> _; now left | now right].
    + intros [->|Hin]; [left; now exists rest | now right].
Qed.

(** C7. A placeholder whose value holds a line feed is replaced by the
    quoted form of the value, any other value by itself, and a variable
    the environment lacks by the empty string; the resolver is a total
    function and has no error to raise. *)
Theorem envsubst_mapping_spec (environ : Env) (name : string) :
  (forall value,
      environ !! name = Some value ->
      In (ascii_of_nat 10) (list_ascii_of_string value) ->
      envsubst_mapping environ name = Sprintf_q value)
  /\ (forall value,
        environ !! name = Some value ->
        ~ In (ascii_of_nat 10) (list_ascii_of_string value) ->
        envsubst_mapping environ name = value)
  /\ (environ !! name = None -> envsubst_mapping environ name = EmptyString)
  /\ (forall b y, envsubst_ b y environ = envsubst_Eval y (envsubst_mapping environ)).
Proof.
  unfold envsubst_mapping. split; [|split; [|split]].
  - intros value -> Hnl. simpl.
    now rewrite (proj2 (Contains_newline value) Hnl).
  - intros value -> Hnl. simpl.
    destruct (Contains value newline) eqn:E; [|reflexivity].
    exfalso. now apply Hnl, Contains_newline.
  - intros ->. reflexivity.
  - reflexivity.
Qed.

End Environment.

(** ** The dependency resolver *)

(** *** Membership by name *)

Lemma containsItemWithName_true (name : string) (items : list buildItem.t) :
  containsItemWithName name items = true
  <-> exists item, In item items /\ itemName item = name.
Proof.
  induction items as [|a items IH]; simpl.
  - split; [discriminate | intros (? & [] & _)].
  - destruct (String.eqb name (itemName a)) eqn:E.
    + apply String.eqb_eq in E. split; [|reflexivity].
      intros _. exists a. split; [now left | now symmetry].
    + apply String.eqb_neq in E. rewrite IH. split.
      * intros (x & Hx & Hn). exists x. split; [now right | exact Hn].
      * intros (x & [->|Hx] & Hn); [congruence|]. now exists x.
Qed.

Lemma containsItemWithName_self (item : buildItem.t) (items : list buildItem.t) :
  In item items -> containsItemWithName (itemName item) items = true.
Proof. intros Hin. apply containsItemWithName_true. now exists item. Qed.

Lemma containsItemWithName_incl (name : string) (l1 l2 : list buildItem.t) :
  (forall x, In x l1 -> In x l2) ->
  containsItemWithName name l1 = true -> containsItemWithName name l2 = true.
Proof.
  intros Hincl H1. apply containsItemWithName_true in H1 as (x & Hx & Hn).
  apply containsItemWithName_true. exists x. auto.
Qed.

Lemma itemsToRemove_In (items : list buildItem.t) (item : buildItem.t) :
  In item (itemsToRemove items)
  <-> In item items
      /\ exists dep, In dep (buildItem.DependsOn item)
                     /\ containsItemWithName dep items = false.
Proof.
  unfold itemsToRemove. rewrite in_flat_map. split.
  - intros (x & Hx & Hin). apply in_flat_map in Hin as (dep & Hdep & Hin).
    destruct (containsItemWithName dep items) eqn:E; simpl in Hin; [contradiction|].
    destruct Hin as [<-|[]]. split; [exact Hx|]. now exists dep.
  - intros (Hin & dep & Hdep & E). exists item. split; [exact Hin|].
    apply in_flat_map. exists dep. split; [exact Hdep|].
    rewrite E. simpl. now left.
Qed.

Lemma itemsToRemove_nil (items : list buildItem.t) :
  itemsToRemove items = [] <-> dependencies_resolved items.
Proof.
  split.
  - intros Hnil item Hin dep Hdep.
    destruct (containsItemWithName dep items) eqn:E; [reflexivity|].
    assert (Hm : In item (itemsToRemove items))
      by (apply itemsToRemove_In; eauto).
    rewrite Hnil in Hm. contradiction.
  - intros Hres. destruct (itemsToRemove items) as [|x l] eqn:E; [reflexivity|].
    assert (Hm : In x (itemsToRemove items)) by (rewrite E; now left).
    apply itemsToRemove_In in Hm as (Hin & dep & Hdep & Hc).
    rewrite (Hres x Hin dep Hdep) in Hc. discriminate.
Qed.

Lemma filtered_In (items toRemove : list buildItem.t) (item : buildItem.t) :
  In item (filtered items toRemove)
  <-> In item items /\ containsItemWithName (itemName item) toRemove = false.
Proof.
  unfold filtered. rewrite filter_In, negb_true_iff. reflexivity.
Qed.

(** *** The recursion of the resolver *)

Lemma filterItems_done (items : list buildItem.t) :
  itemsToRemove items = [] -> filterItemsWithMissingDependencies items = items.
Proof.
  intros Hnil. funelim (filterItemsWithMissingDependencies items).
  - reflexivity.
  - congruence.
Qed.

Lemma filterItems_step (items : list buildItem.t) :
  itemsToRemove items <> [] ->
  filterItemsWithMissingDependencies items
  = filterItemsWithMissingDependencies (filtered items (itemsToRemove items)).
Proof.
  intros Hne. funelim (filterItemsWithMissingDependencies items).
  - congruence.
  - reflexivity.
Qed.

(** Induction along the calls of the resolver. *)
Lemma filterItems_ind (P : list buildItem.t -> list buildItem.t -> Prop) :
  (forall items, itemsToRemove items = [] -> P items items) ->
  (forall items, itemsToRemove items <> [] ->
     P (filtered items (itemsToRemove items))
       (filterItemsWithMissingDependencies (filtered items (itemsToRemove items))) ->
     P items
       (filterItemsWithMissingDependencies (filtered items (itemsToRemove items)))) ->
  forall items, P items (filterItemsWithMissingDependencies items).
Proof.
  intros Hdone Hstep items.
  apply (filterItemsWithMissingDependencies_elim P).
  - intros its Hnil _. now apply Hdone.
  - intros its x l Hm IH _. apply Hstep; [congruence | exact IH].
Qed.

Lemma filterItems_In (items : list buildItem.t) :
  forall item,
    In item (filterItemsWithMissingDependencies items) -> In item items.
Proof.
  apply (filterItems_ind (fun items R => forall item, In item R -> In item items)).
  - auto.
  - intros its _ IH item Hin. apply IH, filtered_In in Hin. tauto.
Qed.

(** No dependency of a survivor is missing: the recursion ends on a list
    in which nothing is marked. *)
Lemma filterItems_resolved (items : list buildItem.t) :
  dependencies_resolved (filterItemsWithMissingDependencies items).
Proof.
  apply (filterItems_ind (fun _ R => dependencies_resolved R)).
  - intros its Hnil. now apply itemsToRemove_nil.
  - auto.
Qed.

Lemma filter_all {A : Type} (f : A -> bool) (l : list A) :
  (forall x, In x l -> f x = true) -> List.filter f l = l.
Proof.
  induction l as [|a l IH]; simpl; intros Hall; [reflexivity|].
  rewrite (Hall a) by now left. f_equal. apply IH. intros x Hx. apply Hall. now right.
Qed.

Lemma filter_filter_ext {A : Type} (f g : A -> bool) (l : list A) :
  (forall x, In x l -> f x = true -> g x = true) ->
  List.filter f (List.filter g l) = List.filter f l.
Proof.
  induction l as [|a l IH]; simpl; intros Himp; [reflexivity|].
  assert (IH' : List.filter f (List.filter g l) = List.filter f l)
    by (apply IH; intros x Hx; apply Himp; now right).
  destruct (g a) eqn:Eg; simpl.
  - now rewrite IH'.
  - destruct (f a) eqn:Ef; [|exact IH'].
    rewrite (Himp a) in Eg by (now left || assumption). discriminate.
Qed.

(** The survivors are the items that bear a surviving name, in the order
    of the input. *)
Lemma filterItems_by_name (items : list buildItem.t) :
  filterItemsWithMissingDependencies items
  = List.filter
      (fun item =>
         containsItemWithName (itemName item)
           (filterItemsWithMissingDependencies items))
      items.
Proof.
  apply (filterItems_ind
           (fun items R =>
              R = List.filter
                    (fun item => containsItemWithName (itemName item) R) items)).
  - intros its _. symmetry. apply filter_all.
    intros x Hx. now apply containsItemWithName_self.
  - intros its _ IH. etransitivity; [exact IH|].
    unfold filtered at 2. apply filter_filter_ext.
    intros x Hx Hc. apply negb_true_iff.
    apply containsItemWithName_true in Hc as (y & Hy & Hn).
    apply filterItems_In, filtered_In in Hy as [_ Hy]. now rewrite <- Hn.
Qed.

Lemma names_closed_filtered (items : list buildItem.t) (S : string -> Prop) :
  names_closed items S -> names_closed (filtered items (itemsToRemove items)) S.
Proof.
  intros [Hnames Hdeps]. split.
  - intros name HS.
    destruct (proj1 (containsItemWithName_true _ _) (Hnames name HS))
      as (x & Hx & Hn).
    apply containsItemWithName_true. exists x. split; [|exact Hn].
    apply filtered_In. split; [exact Hx|].
    destruct (containsItemWithName (itemName x) (itemsToRemove items)) eqn:E;
      [exfalso | reflexivity].
    apply containsItemWithName_true in E as (y & Hy & Hyn).
    apply itemsToRemove_In in Hy as (Hyin & dep & Hdep & Hmiss).
    assert (HSd : S dep).
    { apply (Hdeps y Hyin); [|exact Hdep]. rewrite Hyn, Hn. exact HS. }
    rewrite (Hnames dep HSd) in Hmiss. discriminate.
  - intros item Hin. apply filtered_In in Hin as [Hin _]. now apply Hdeps.
Qed.

Lemma filterItems_greatest (items : list buildItem.t) :
  forall S, names_closed items S ->
  forall name, S name ->
    containsItemWithName name (filterItemsWithMissingDependencies items) = true.
Proof.
  apply (filterItems_ind
           (fun items R =>
              forall S, names_closed items S ->
              forall name, S name -> containsItemWithName name R = true)).
  - intros its _ S [Hnames _]. exact Hnames.
  - intros its _ IH S HS. apply (IH S). now apply names_closed_filtered.
Qed.

Lemma filterItems_names_closed (items : list buildItem.t) :
  names_closed items
    (fun name =>
       containsItemWithName name (filterItemsWithMissingDependencies items) = true).
Proof.
  split.
  - intros name. apply containsItemWithName_incl, filterItems_In.
  - intros item Hin Hname dep Hdep.
    apply (filterItems_resolved items item); [|exact Hdep].
    rewrite filterItems_by_name. apply filter_In. split; assumption.
Qed.

(** C2 (as amended). The resolver returns, in the order of the input,
    exactly the items whose name lies in the greatest set of item names
    that holds the [DependsOn] names of every item it names. *)
Theorem filterItems_survivors_by_name (items : list buildItem.t) :
  survivors_by_name items (filterItemsWithMissingDependencies items).
Proof.
  split; [|split].
  - apply filterItems_by_name.
  - apply filterItems_names_closed.
  - apply filterItems_greatest.
Qed.

Lemma marked_name_gone (items : list buildItem.t) (item : buildItem.t) :
  marked items item ->
  containsItemWithName (itemName item)
    (filterItemsWithMissingDependencies items) = false.
Proof.
  induction 1 as [items item Hin | items item Hne _ IH].
  - assert (Hne : itemsToRemove items <> [])
      by (intros E; rewrite E in Hin; contradiction).
    rewrite (filterItems_step items Hne).
    destruct (containsItemWithName _ _) eqn:E; [exfalso | reflexivity].
    apply containsItemWithName_true in E as (y & Hy & Hn).
    apply filterItems_In, filtered_In in Hy as [_ Hy].
    rewrite Hn, (containsItemWithName_self item _ Hin) in Hy. discriminate.
  - now rewrite (filterItems_step items Hne).
Qed.

(** C9. An item marked in any round takes its name with it: no item of
    that name is among the survivors, whatever its own dependencies. *)
Theorem marked_name_removed (items : list buildItem.t) (item : buildItem.t) :
  marked items item ->
  containsItemWithName (itemName item)
    (filterItemsWithMissingDependencies items) = false
  /\ forall other, In other items -> itemName other = itemName item ->
       ~ In other (filterItemsWithMissingDependencies items).
Proof.
  intros Hm. pose proof (marked_name_gone items item Hm) as Hgone.
  split; [exact Hgone|].
  intros other _ Hname Hin.
  apply containsItemWithName_self in Hin. rewrite Hname, Hgone in Hin.
  discriminate.
Qed.

(** X2. Removal cascades: when [a] depends on [b], [b] depends on a name
    that no item bears, both are removed. *)
Lemma missing_dependency_cascades (items : list buildItem.t)
  (a b : buildItem.t) (missing : string) :
  In a items -> In b items ->
  In (itemName b) (buildItem.DependsOn a) ->
  In missing (buildItem.DependsOn b) ->
  containsItemWithName missing items = false ->
  ~ In b (filterItemsWithMissingDependencies items)
  /\ ~ In a (filterItemsWithMissingDependencies items).
Proof.
  intros Ha Hb Hab Hbc Hmissing.
  assert (Hgone : containsItemWithName (itemName b)
                    (filterItemsWithMissingDependencies items) = false).
  { apply marked_name_gone, marked_now, itemsToRemove_In. eauto. }
  split; intros Hin.
  - apply containsItemWithName_self in Hin. rewrite Hgone in Hin. discriminate.
  - rewrite (filterItems_resolved items a Hin (itemName b) Hab) in Hgone.
    discriminate.
Qed.

(** *** When names are pairwise distinct *)

Lemma sublist_List_filter {A : Type} (f : A -> bool) (l : list A) :
  List.filter f l `sublist_of` l.
Proof.
  induction l as [|a l IH]; simpl; [constructor|].
  destruct (f a); [now apply sublist_skip | now apply sublist_cons].
Qed.

Lemma sublist_into_filter {A : Type} (f : A -> bool) (l1 l2 : list A) :
  l1 `sublist_of` l2 -> (forall x, In x l1 -> f x = true) ->
  l1 `sublist_of` List.filter f l2.
Proof.
  induction 1 as [|x l1 l2 Hsub IH|x l1 l2 Hsub IH]; intros Hall; simpl.
  - constructor.
  - rewrite (Hall x) by now left. apply sublist_skip, IH.
    intros y Hy. apply Hall. now right.
  - destruct (f x); [apply sublist_cons|]; now apply IH.
Qed.

Lemma sublist_In {A : Type} (l1 l2 : list A) (x : A) :
  l1 `sublist_of` l2 -> In x l1 -> In x l2.
Proof.
  intros Hsub Hin. apply list_elem_of_In.
  apply (elem_of_sublist l1); [now apply list_elem_of_In | exact Hsub].
Qed.

Lemma NoDup_names_eq (items : list buildItem.t) (x y : buildItem.t) :
  NoDup (map itemName items) -> In x items -> In y items ->
  itemName x = itemName y -> x = y.
Proof.
  induction items as [|a items IH]; simpl; [contradiction|].
  intros Hnd Hx Hy Hn. apply NoDup_cons in Hnd as [Hnotin Hnd].
  assert (Hfresh : forall z, In z items -> itemName z <> itemName a).
  { intros z Hz E. apply Hnotin. rewrite <- E.
    apply list_elem_of_In, in_map, Hz. }
  destruct Hx as [->|Hx], Hy as [->|Hy];
    [reflexivity | | | now apply IH].
  - exfalso. now apply (Hfresh y Hy).
  - exfalso. now apply (Hfresh x Hx).
Qed.

(** X1. With pairwise distinct names the survivors are the greatest selection
    of items that obeys the rule of the specification. *)
Lemma filterItems_greatest_selection (items : list buildItem.t) :
  NoDup (map itemName items) ->
  greatest_resolved_selection items (filterItemsWithMissingDependencies items).
Proof.
  intros Hnd. split; [|split].
  - rewrite filterItems_by_name. apply sublist_List_filter.
  - apply filterItems_resolved.
  - intros T Hsub Hres. rewrite filterItems_by_name.
    apply sublist_into_filter; [exact Hsub|].
    intros x Hx.
    apply (filterItems_greatest items
             (fun name => containsItemWithName name T = true)).
    + split.
      * intros name. apply containsItemWithName_incl.
        intros z. now apply sublist_In.
      * intros item Hin Hname dep Hdep.
        apply containsItemWithName_true in Hname as (y & Hy & Hn).
        assert (y = item) as ->
          by (apply (NoDup_names_eq items); eauto using sublist_In).
        now apply (Hres item).
    + now apply containsItemWithName_self.
Qed.


(** ** Go integers *)

Lemma int_wrap_small (z : Z) : - 2 ^ 63 <= z < 2 ^ 63 -> int_wrap z = z.
Proof.
  intros Hz. unfold int_wrap. rewrite Z.mod_small; lia.
Qed.



Lemma int_succ_wrap (z : Z) : int_succ (int_wrap z) = int_wrap (z + 1).
Proof.
  unfold int_succ, int_wrap. f_equal.
  replace ((z + 2 ^ 63) mod 2 ^ 64 - 2 ^ 63 + 1 + 2 ^ 63)
    with ((z + 2 ^ 63) mod 2 ^ 64 + 1) by lia.
  rewrite Zplus_mod_idemp_l. f_equal. lia.
Qed.

Lemma pidsFrom_length (n : nat) : forall p, length (pidsFrom p n) = n.
Proof. induction n as [|n IH]; intros p; simpl; [reflexivity | now rewrite IH]. Qed.

Lemma pidsFrom_app (n m : nat) :
  forall p, pidsFrom p (n + m) = pidsFrom p n ++ pidsFrom (p + Z.of_nat n) m.
Proof.
  induction n as [|n IH]; intros p.
  - simpl. f_equal. lia.
  - change (S n + m)%nat with (S (n + m)). simpl pidsFrom at 1 2.
    rewrite IH. simpl. do 3 f_equal. lia.
Qed.

(** Without overflow the sequence is [p + 1, p + 2, ...]: above [p], at
    most [p + n], and increasing. *)
Lemma pidsFrom_sorted (n : nat) :
  forall p,
    - 2 ^ 63 <= p + 1 -> p + Z.of_nat n < 2 ^ 63 ->
    StronglySorted Z.lt (pidsFrom p n)
    /\ Forall (fun x => p < x <= p + Z.of_nat n) (pidsFrom p n).
Proof.
  induction n as [|n IH]; intros p Hlo Hhi; simpl pidsFrom.
  - split; constructor.
  - destruct (IH (p + 1)) as [Hs Hf]; [lia | lia |].
    rewrite int_wrap_small by lia. split.
    + constructor; [exact Hs|].
      eapply Forall_impl; [exact Hf|]. simpl. intros x Hx. lia.
    + constructor; [lia|].
      eapply Forall_impl; [exact Hf|]. simpl. intros x Hx. lia.
Qed.

(** ** The process graph flattener *)

Lemma maxPID_bounds (buildItems : list buildItem.t) :
  forall p,
    p <= maxPID p buildItems
    /\ Forall (fun item => model.Proc.PID (buildItem.Proc item) <= maxPID p buildItems)
         buildItems
    /\ (maxPID p buildItems = p
        \/ exists item, In item buildItems
             /\ maxPID p buildItems = model.Proc.PID (buildItem.Proc item)).
Proof.
  unfold maxPID.
  induction buildItems as [|a l IH]; intros p; simpl.
  - split; [lia|]. split; [constructor | now left].
  - set (p' := if p <? model.Proc.PID (buildItem.Proc a)
               then model.Proc.PID (buildItem.Proc a) else p).
    assert (Hp' : p <= p' /\ model.Proc.PID (buildItem.Proc a) <= p'
                  /\ (p' = p \/ p' = model.Proc.PID (buildItem.Proc a))).
    { subst p'. destruct (Z.ltb_spec p (model.Proc.PID (buildItem.Proc a))); lia. }
    destruct (IH p') as (Hle & Hall & Hor).
    split; [lia|]. split.
    + constructor; [lia | exact Hall].
    + destruct Hor as [Heq|(item & Hin & Heq)].
      * destruct Hp' as (_ & _ & [E|E]).
        -- left. congruence.
        -- right. exists a. split; [now left | congruence].
      * right. exists item. split; [now right | exact Heq].
Qed.

(** The first loop appends the descriptors of the items in their order. *)
Lemma appendItemProc_fold (buildItems : list buildItem.t) :
  forall p procs,
    fold_left appendItemProc buildItems (p, procs)
    = (maxPID p buildItems, procs ++ map buildItem.Proc buildItems).
Proof.
  unfold maxPID.
  induction buildItems as [|a l IH]; intros p procs; simpl.
  - now rewrite app_nil_r.
  - rewrite IH. f_equal. now rewrite <- app_assoc.
Qed.

Lemma stepProc_stepOf (build : model.Build.t) (item : buildItem.t)
  (step : backend.Step.t) (pid gid : Z) :
  model.Proc.PID (stepProc build item step pid gid) = pid
  /\ model.Proc.PPID (stepProc build item step pid gid)
     = model.Proc.PID (buildItem.Proc item)
  /\ model.Proc.BuildID (stepProc build item step pid gid) = model.Build.ID build
  /\ model.Proc.State (stepProc build item step pid gid)
     = (if decide (model.Proc.State (buildItem.Proc item) = model.StatusSkipped)
        then model.StatusSkipped
        else model.StatusPending)
  /\ model.Proc.Name (stepProc build item step pid gid) = backend.Step.Alias step.
Proof.
  unfold stepProc. cbv zeta.
  destruct (decide (model.Proc.State (buildItem.Proc item) = model.StatusSkipped));
    simpl; repeat split; reflexivity.
Qed.

Lemma appends_nil (build : model.Build.t) (item : buildItem.t) (p : Z) :
  appends build item [] p [].
Proof. split; [reflexivity | constructor]. Qed.

Lemma appends_app (build : model.Build.t) (item : buildItem.t)
  (steps1 steps2 : list backend.Step.t) (p : Z) (new1 new2 : list model.Proc.t) :
  appends build item steps1 p new1 ->
  appends build item steps2 (p + Z.of_nat (length steps1)) new2 ->
  appends build item (steps1 ++ steps2) p (new1 ++ new2).
Proof.
  intros [Hp1 Hf1] [Hp2 Hf2]. split.
  - rewrite map_app, length_app, pidsFrom_app. congruence.
  - apply Forall_app. split.
    + eapply Forall_impl; [exact Hf1|]. simpl.
      intros proc (? & ? & ? & step & Hin & ?). repeat split; try assumption.
      exists step. split; [apply in_or_app; now left | assumption].
    + eapply Forall_impl; [exact Hf2|]. simpl.
      intros proc (? & ? & ? & step & Hin & ?). repeat split; try assumption.
      exists step. split; [apply in_or_app; now right | assumption].
Qed.

Lemma appendStep_fold (build : model.Build.t) (item : buildItem.t)
  (steps : list backend.Step.t) :
  forall p gid procs,
  exists gid' new,
    fold_left (appendStep build item) steps (int_wrap p, gid, procs)
    = (int_wrap (p + Z.of_nat (length steps)), gid', procs ++ new)
    /\ appends build item steps p new.
Proof.
  induction steps as [|step steps IH]; intros p gid procs.
  - exists gid, []. simpl. rewrite app_nil_r, Z.add_0_r.
    split; [reflexivity | apply appends_nil].
  - cbn [fold_left appendStep]. rewrite int_succ_wrap.
    set (gid1 := if gid =? 0 then int_wrap (p + 1) else gid).
    destruct (IH (p + 1) gid1
                (procs ++ [stepProc build item step (int_wrap (p + 1)) gid1]))
      as (gid' & new & Hfold & Hnew).
    exists gid', (stepProc build item step (int_wrap (p + 1)) gid1 :: new).
    split.
    + rewrite Hfold. rewrite <- app_assoc. simpl. do 2 f_equal.
      f_equal. rewrite Nat2Z.inj_succ. lia.
    + change (step :: steps) with ([step] ++ steps).
      change (stepProc build item step (int_wrap (p + 1)) gid1 :: new)
        with ([stepProc build item step (int_wrap (p + 1)) gid1] ++ new).
      apply appends_app; [|exact Hnew].
      destruct (stepProc_stepOf build item step (int_wrap (p + 1)) gid1)
        as (Hpid & Hppid & Hbid & Hstate & Hname).
      split.
      * simpl. now rewrite Hpid.
      * constructor; [|constructor]. repeat split; try assumption.
        exists step. split; [now left | assumption].
Qed.

Lemma appendStage_fold (build : model.Build.t) (item : buildItem.t)
  (stages : list backend.Stage.t) :
  forall p procs,
  exists new,
    fold_left (appendStage build item) stages (int_wrap p, procs)
    = (int_wrap (p + Z.of_nat (length (flat_map backend.Stage.Steps stages))),
       procs ++ new)
    /\ appends build item (flat_map backend.Stage.Steps stages) p new.
Proof.
  induction stages as [|stage stages IH]; intros p procs.
  - exists []. simpl. rewrite app_nil_r, Z.add_0_r.
    split; [reflexivity | apply appends_nil].
  - cbn [fold_left appendStage flat_map].
    destruct (appendStep_fold build item (backend.Stage.Steps stage) p 0 procs)
      as (gid' & new1 & Hfold1 & Hnew1).
    rewrite Hfold1.
    destruct (IH (p + Z.of_nat (length (backend.Stage.Steps stage)))
                (procs ++ new1)) as (new2 & Hfold2 & Hnew2).
    exists (new1 ++ new2). split.
    + rewrite Hfold2. rewrite <- app_assoc, length_app, Nat2Z.inj_add.
      do 2 f_equal. lia.
    + now apply appends_app.
Qed.

Lemma totalSteps_cons (item : buildItem.t) (buildItems : list buildItem.t) :
  totalSteps (item :: buildItems) = (stepCount item + totalSteps buildItems)%nat.
Proof. reflexivity. Qed.

(** The second loop appends, item by item, the descriptors of the steps,
    numbered on from [p]. *)
Lemma appendItemSteps_fold (build : model.Build.t)
  (buildItems : list buildItem.t) :
  forall p procs,
  exists new,
    fold_left (appendItemSteps build) buildItems (int_wrap p, procs)
    = (int_wrap (p + Z.of_nat (totalSteps buildItems)), procs ++ new)
    /\ map model.Proc.PID new = pidsFrom p (totalSteps buildItems)
    /\ Forall
         (fun proc => exists item, In item buildItems /\ stepOf build item proc)
         new.
Proof.
  induction buildItems as [|item l IH]; intros p procs.
  - exists []. simpl. rewrite app_nil_r, Z.add_0_r.
    split; [reflexivity|]. split; [reflexivity | constructor].
  - rewrite totalSteps_cons. cbn [fold_left]. unfold appendItemSteps at 2.
    destruct (appendStage_fold build item
                (backend.Config.Stages (buildItem.Config item)) p procs)
      as (new1 & Hfold1 & Hpids1 & Hall1).
    rewrite Hfold1. fold (stepCount item) in *.
    destruct (IH (p + Z.of_nat (stepCount item)) (procs ++ new1))
      as (new2 & Hfold2 & Hpids2 & Hall2).
    exists (new1 ++ new2). split; [|split].
    + rewrite Hfold2. rewrite <- app_assoc, Nat2Z.inj_add.
      do 2 f_equal. lia.
    + rewrite map_app, pidsFrom_app. congruence.
    + apply Forall_app. split.
      * eapply Forall_impl; [exact Hall1|]. simpl.
        intros proc Hproc. exists item. split; [now left | exact Hproc].
      * eapply Forall_impl; [exact Hall2|]. simpl.
        intros proc (it & Hin & Hproc). exists it. split; [now right | exact Hproc].
Qed.

(** The final process list: the descriptors of the items, then those of
    the steps, numbered on from the largest PID of an item. *)
Lemma emittedProcs_shape (build : model.Build.t) (buildItems : list buildItem.t) :
  - 2 ^ 63 <= maxPID 0 buildItems < 2 ^ 63 ->
  exists new,
    emittedProcs build buildItems = map buildItem.Proc buildItems ++ new
    /\ stepProcs build buildItems = new
    /\ map model.Proc.PID new
       = pidsFrom (maxPID 0 buildItems) (totalSteps buildItems)
    /\ Forall
         (fun proc => exists item, In item buildItems /\ stepOf build item proc)
         new.
Proof.
  intros Hrange.
  unfold stepProcs, emittedProcs, setBuildStepsOnBuild.
  rewrite appendItemProc_fold.
  destruct (appendItemSteps_fold build buildItems (maxPID 0 buildItems)
              (model.Build.Procs build ++ map buildItem.Proc buildItems))
    as (new & Hfold & Hpids & Hall).
  rewrite (int_wrap_small _ Hrange) in Hfold. rewrite Hfold.
  exists new. simpl. rewrite <- app_assoc, drop_app_length.
  split; [reflexivity|]. split; [|split; assumption].
  replace (length buildItems) with (length (map buildItem.Proc buildItems))
    by apply length_map.
  apply drop_app_length.
Qed.

(** ** The loops of [Build] *)

Section BuildLoops.
Context `{Collaborators}.

Lemma forEach_invariant {A S : Type} (I : S -> Prop)
  (body : S -> A -> result S) (l : list A) :
  (forall s x s', In x l -> I s -> body s x = Ok s' -> I s') ->
  forall s s', I s -> forEach body l s = Ok s' -> I s'.
Proof.
  induction l as [|x l IH]; intros Hbody s s' Hs Hrun; simpl in Hrun.
  - now injection Hrun as <-.
  - destruct (body s x) as [s1|err] eqn:E; simpl in Hrun; [|discriminate].
    apply (IH (fun s0 y s0' Hy => Hbody s0 y s0' (or_intror Hy)) s1 s');
      [|exact Hrun].
    apply (Hbody s x s1); [now left | exact Hs | exact E].
Qed.

(** A loop over a list with an element on which the body always fails
    ends in an error. *)
Lemma forEach_Err {A S : Type} (body : S -> A -> result S) (l : list A) (x : A) :
  In x l -> (forall s, exists err, body s x = Err err) ->
  forall s, exists err, forEach body l s = Err err.
Proof.
  induction l as [|a l IH]; intros Hin Hfail s; simpl; [contradiction|].
  destruct (body s a) as [s1|err] eqn:E; simpl.
  - destruct Hin as [->|Hin].
    + destruct (Hfail s) as [err Herr]. congruence.
    + now apply IH.
  - now exists err.
Qed.

(** What a successful run of the loop body does. *)
Lemma buildAxis_Ok (b : procBuilder.t) (y : FileMeta.t) (st st' : loopState)
  (axis : Env) :
  buildAxis b y st axis = Ok st' ->
  (items st' = items st /\ pidSequence st' = pidSequence st)
  \/ exists parsed item,
       items st' = items st ++ [item]
       /\ pidSequence st' = int_succ (pidSequence st)
       /\ model.Proc.PID (buildItem.Proc item) = pidSequence st
       /\ compiled_from b y axis (pidSequence st) parsed item.
Proof.
  unfold buildAxis, compiled_from, parsedDefinition. cbv zeta.
  destruct (envsubst_ b (FileMeta.Data y) _) as [substituted|err] eqn:Es;
    simpl; [|discriminate].
  destruct (yaml_ParseString substituted) as [parsed|err] eqn:Ep;
    simpl; [|discriminate].
  destruct (linter_Lint _ parsed) as [lerr|] eqn:El; [discriminate|].
  destruct (rand_Int (rng st)) as [rnd rng'].
  match goal with
  | |- context [backend.Config.Stages ?ir] => set (config := ir)
  end.
  destruct (backend.Config.Stages config) as [|stage stages] eqn:Ec; simpl.
  - intros [= <-]. now left.
  - intros [= <-]. right. exists parsed. eexists. cbn [items pidSequence].
    split; [reflexivity|]. split; [reflexivity|].
    split.
    { destruct (yaml_Labels parsed), (negb _); reflexivity. }
    split; [first [exact Ep | simpl; exact Ep | reflexivity]|].
    split; [exact El|].
    destruct (yaml_Labels parsed) eqn:Ey; simpl; rewrite ?Ec;
      repeat split; try reflexivity; discriminate.
Qed.

(** The loop body fails on an axis that fails at the PID reached. *)
Lemma buildAxis_Err (b : procBuilder.t) (y : FileMeta.t) (axis : Env)
  (st : loopState) :
  axisFailsAt b y (pidSequence st) axis ->
  exists err, buildAxis b y st axis = Err err.
Proof.
  intros Hfails.
  unfold buildAxis, axisFailsAt, parsedDefinition, axisEnviron in *.
  cbv zeta in *.
  destruct Hfails as [(err & Es)|[(substituted & err & Es & Ep)
                                 |(parsed & err & Hp & Hl)]].
  - rewrite Es. simpl. now exists err.
  - rewrite Es. simpl. rewrite Ep. simpl. now exists err.
  - destruct (envsubst_ b (FileMeta.Data y) _) as [substituted|e]; simpl in *;
      [|discriminate].
    rewrite Hp. simpl. rewrite Hl. now exists err.
Qed.

(** It fails there only: the compiler has no error to return. *)
Lemma buildAxis_Err_inv (b : procBuilder.t) (y : FileMeta.t) (axis : Env)
  (st : loopState) (err : error) :
  buildAxis b y st axis = Err err ->
  axisFailsAt b y (pidSequence st) axis.
Proof.
  unfold buildAxis, axisFailsAt, parsedDefinition, axisEnviron.
  cbv zeta. intros Hrun.
  destruct (envsubst_ b (FileMeta.Data y) _) as [substituted|e] eqn:Es;
    simpl in *; [|left; now exists e].
  right.
  destruct (yaml_ParseString substituted) as [parsed|e] eqn:Ep; simpl in *;
    [|left; now exists substituted, e].
  right. exists parsed.
  destruct (linter_Lint _ parsed) as [lerr|] eqn:El; [now exists lerr|].
  destruct (rand_Int (rng st)) as [rnd rng'].
  destruct (length _ =? 0)%nat; discriminate.
Qed.

Lemma forEach_app {A S : Type} (body : S -> A -> result S) (l1 l2 : list A) :
  forall s,
    forEach body (l1 ++ l2) s = (s' ← forEach body l1 s; forEach body l2 s').
Proof.
  induction l1 as [|x l1 IH]; intros s; simpl; [reflexivity|].
  destruct (body s x) as [s1|err]; simpl; [apply IH | reflexivity].
Qed.

(** A loop that fails has come to an element on which its body fails. *)
Lemma forEach_Err_inv {A S : Type} (body : S -> A -> result S) (l : list A) :
  forall s err,
    forEach body l s = Err err ->
    exists pre x post s',
      l = pre ++ x :: post
      /\ forEach body pre s = Ok s'
      /\ body s' x = Err err.
Proof.
  induction l as [|a l IH]; intros s err Hrun; simpl in Hrun; [discriminate|].
  destruct (body s a) as [s1|e] eqn:E; simpl in Hrun.
  - destruct (IH s1 err Hrun) as (pre & x & post & s' & -> & Hpre & Hx).
    exists (a :: pre), x, post, s'. simpl. rewrite E. simpl. auto.
  - injection Hrun as ->. exists [], a, l, s. auto.
Qed.

Lemma buildDocument_Err (b : procBuilder.t) (y : FileMeta.t) :
  documentFailsAnywhere b y ->
  forall st, exists err, buildDocument b st y = Err err.
Proof.
  intros [(err & Hm)|(axes & axis & Haxes & Hin & Hfails)] st;
    unfold buildDocument.
  - unfold documentAxes. rewrite Hm. simpl. now exists err.
  - rewrite Haxes. simpl.
    apply (forEach_Err _ axes axis Hin). intros s. apply buildAxis_Err, Hfails.
Qed.

Lemma buildAxis_invariant (b : procBuilder.t) (y : FileMeta.t)
  (axes : list Env) (st st' : loopState) (axis : Env) :
  In y (procBuilder.Yamls b) -> documentAxes y = Ok axes -> In axis axes ->
  loopInvariant b st -> buildAxis b y st axis = Ok st' -> loopInvariant b st'.
Proof.
  intros Hy Haxes Haxis (Hpids & Hnext & Hall) Hrun.
  apply buildAxis_Ok in Hrun
    as [[Hitems Hpid]|(parsed & item & Hitems & Hpid & Hitem & Hfrom)].
  - unfold loopInvariant. now rewrite Hitems, Hpid.
  - unfold loopInvariant. rewrite Hitems, Hpid, Hnext.
    rewrite length_app, map_app, Hpids, pidsFrom_app. simpl.
    split; [|split].
    + f_equal. rewrite Hitem, Hnext. repeat (f_equal; try lia).
    + rewrite int_succ_wrap. f_equal. lia.
    + apply Forall_app. split; [exact Hall|].
      constructor; [|constructor].
      exists parsed, y, axes, axis. rewrite Hitem. auto.
Qed.

Lemma compileItems_invariant (b : procBuilder.t) (r : Rand) (st : loopState) :
  compileItems b r = Ok st -> loopInvariant b st.
Proof.
  unfold compileItems.
  apply (forEach_invariant (loopInvariant b)).
  - intros s y s' Hy Hs Hrun. unfold buildDocument in Hrun.
    destruct (documentAxes y) as [axes|err] eqn:Haxes; simpl in Hrun;
      [|discriminate].
    assert (Hy' : In y (procBuilder.Yamls b)).
    { apply list_elem_of_In. rewrite <- (sort_ByName_Permutation _).
      now apply list_elem_of_In. }
    revert Hs Hrun. apply forEach_invariant.
    intros s0 axis s0' Haxis. now apply (buildAxis_invariant b y axes).
  - repeat split; constructor.
Qed.

(** [Build] returns items exactly when the loops end without an error. *)
Lemma Build_Ok (b : procBuilder.t) (r : Rand) (survivors : list buildItem.t) :
  Build b r = (survivors, None) ->
  exists st,
    compileItems b r = Ok st
    /\ survivors = filterItemsWithMissingDependencies (items st).
Proof.
  unfold Build. destruct (compileItems b r) as [st|err]; [|discriminate].
  intros [= <-]. now exists st.
Qed.

End BuildLoops.

(** ** The plan: [Build], then [setBuildStepsOnBuild] *)

Lemma sublist_map {A B : Type} (f : A -> B) (l1 l2 : list A) :
  l1 `sublist_of` l2 -> map f l1 `sublist_of` map f l2.
Proof.
  induction 1; simpl;
    [constructor | now apply sublist_skip | now apply sublist_cons].
Qed.

Lemma sublist_Forall {A : Type} (P : A -> Prop) (l1 l2 : list A) :
  l1 `sublist_of` l2 -> Forall P l2 -> Forall P l1.
Proof.
  induction 1 as [|x l1 l2 _ IH|x l1 l2 _ IH]; intros Hall.
  - constructor.
  - apply Forall_cons in Hall as [Hx Hall]. constructor; auto.
  - apply Forall_cons in Hall as [_ Hall]. auto.
Qed.

Lemma sublist_StronglySorted {A : Type} (R : relation A) (l1 l2 : list A) :
  l1 `sublist_of` l2 -> StronglySorted R l2 -> StronglySorted R l1.
Proof.
  induction 1 as [|x l1 l2 Hsub IH|x l1 l2 Hsub IH]; intros Hs.
  - constructor.
  - apply StronglySorted_inv in Hs as [Hs Hx].
    constructor; [auto | now apply (sublist_Forall _ l1 l2)].
  - apply StronglySorted_inv in Hs as [Hs _]. auto.
Qed.

Lemma StronglySorted_lt_NoDup (l : list Z) : StronglySorted Z.lt l -> NoDup l.
Proof.
  induction 1 as [|x l _ IH Hx]; constructor; [|exact IH].
  intros Hin. rewrite Forall_forall in Hx. specialize (Hx x Hin). lia.
Qed.

Lemma filterItems_sublist (items : list buildItem.t) :
  filterItemsWithMissingDependencies items `sublist_of` items.
Proof. rewrite filterItems_by_name. apply sublist_List_filter. Qed.

Section Plan.
Context `{Collaborators}.

(** The items [Build] returns are compiled from the documents of the
    builder. *)
Lemma Build_items_of_plan (b : procBuilder.t) (r : Rand)
  (survivors : list buildItem.t) :
  Build b r = (survivors, None) ->
  Forall (fun item => exists parsed, item_of_plan b parsed item) survivors.
Proof.
  intros Hbuild. apply Build_Ok in Hbuild as (st & Hrun & ->).
  apply compileItems_invariant in Hrun as (_ & _ & Hall).
  eapply sublist_Forall; [apply filterItems_sublist | exact Hall].
Qed.

(** Without overflow the items [Build] returns carry increasing PIDs
    between 1 and the number of compiled items. *)
Lemma Build_PIDs (b : procBuilder.t) (r : Rand) (survivors : list buildItem.t) :
  Build b r = (survivors, None) ->
  Z.of_nat (compiledCount b r) < 2 ^ 63 ->
  StronglySorted Z.lt
    (map (fun item => model.Proc.PID (buildItem.Proc item)) survivors)
  /\ Forall (fun item =>
               0 < model.Proc.PID (buildItem.Proc item)
                 <= Z.of_nat (compiledCount b r))
       survivors.
Proof.
  intros Hbuild Hbound. apply Build_Ok in Hbuild as (st & Hrun & ->).
  unfold compiledCount in *. rewrite Hrun in *.
  apply compileItems_invariant in Hrun as (Hpids & _ & _).
  destruct (pidsFrom_sorted (length (items st)) 0) as [Hsorted Hrange];
    [lia | lia |].
  rewrite <- Hpids in Hsorted, Hrange.
  pose proof (filterItems_sublist (items st)) as Hsub.
  split.
  - eapply sublist_StronglySorted; [|exact Hsorted]. now apply sublist_map.
  - apply (sublist_Forall _ _ _ Hsub).
    rewrite Forall_forall. intros item Hin.
    rewrite Forall_forall in Hrange.
    assert (Hx : model.Proc.PID (buildItem.Proc item)
                 ∈ map (fun item => model.Proc.PID (buildItem.Proc item))
                     (items st)).
    { apply list_elem_of_In.
      apply (in_map (fun item => model.Proc.PID (buildItem.Proc item))).
      now apply list_elem_of_In. }
    specialize (Hrange _ Hx). lia.
Qed.


(** C1. In the final process list of a successful plan, the descriptors
    of the items followed by those of the steps, the PIDs increase
    strictly in the order of emission, and therefore no PID occurs twice
    in that list. The bound keeps [pidSequence], a Go [int], from
    wrapping around. The PID of an item that does not reach the list is
    not covered: it can be assigned again. *)
Theorem process_list_PIDs_increasing (b : procBuilder.t) (r : Rand)
  (build : model.Build.t) (survivors : list buildItem.t) :
  Build b r = (survivors, None) ->
  Z.of_nat (compiledCount b r) + Z.of_nat (totalSteps survivors) < 2 ^ 63 ->
  emittedProcs build survivors
  = map buildItem.Proc survivors ++ stepProcs build survivors
  /\ StronglySorted Z.lt (map model.Proc.PID (emittedProcs build survivors))
  /\ NoDup (map model.Proc.PID (emittedProcs build survivors)).
Proof.
  intros Hbuild Hbound.
  destruct (Build_PIDs b r survivors Hbuild) as [Hsorted Hrange]; [lia|].
  destruct (maxPID_bounds survivors 0) as (Hlo & Hmax & Hhit).
  assert (Hhi : maxPID 0 survivors <= Z.of_nat (compiledCount b r)).
  { destruct Hhit as [->|(item & Hin & ->)]; [lia|].
    rewrite Forall_forall in Hrange.
    apply list_elem_of_In, Hrange in Hin. lia. }
  destruct (emittedProcs_shape build survivors) as (new & Hshape & Hsteps & Hpids & _);
    [lia|].
  destruct (pidsFrom_sorted (totalSteps survivors) (maxPID 0 survivors))
    as [Hs2 Hr2]; [lia | lia |].
  assert (Hall : StronglySorted Z.lt
                   (map model.Proc.PID (emittedProcs build survivors))).
  { rewrite Hshape, map_app, map_map, Hpids.
    apply StronglySorted_app_2; [|exact Hsorted | exact Hs2].
    intros x1 x2 Hx1 Hx2.
    rewrite Forall_forall in Hr2. specialize (Hr2 x2 Hx2).
    apply list_elem_of_In, in_map_iff in Hx1 as (item & <- & Hin).
    rewrite Forall_forall in Hmax.
    apply list_elem_of_In, Hmax in Hin. lia. }
  split; [now rewrite Hsteps|].
  split; [exact Hall | now apply StronglySorted_lt_NoDup].
Qed.


(** X4. An item of the plan has at least one compiled stage. *)
Lemma Build_items_have_stages (b : procBuilder.t) (r : Rand)
  (survivors : list buildItem.t) (item : buildItem.t) :
  Build b r = (survivors, None) ->
  In item survivors ->
  backend.Config.Stages (buildItem.Config item) <> [].
Proof.
  intros Hbuild Hin.
  pose proof (Build_items_of_plan b r survivors Hbuild) as Hitems.
  rewrite Forall_forall in Hitems.
  destruct (Hitems item (proj2 (list_elem_of_In _ _) Hin))
    as (parsed & y & axes & axis & _ & _ & _ & Hfrom).
  now destruct Hfrom as (_ & _ & _ & _ & _ & _ & Hstages).
Qed.

(** C10. The labels of an item [Build] returns are never nil: they are
    the labels of the parsed definition, and the empty map when the
    definition declares none. *)
Theorem Build_labels_not_nil (b : procBuilder.t) (r : Rand)
  (survivors : list buildItem.t) (item : buildItem.t) :
  Build b r = (survivors, None) ->
  In item survivors ->
  buildItem.Labels item <> None
  /\ exists parsed,
       item_of_plan b parsed item
       /\ (yaml_Labels parsed = None -> buildItem.Labels item = Some ∅)
       /\ (forall labels,
             yaml_Labels parsed = Some labels ->
             buildItem.Labels item = Some labels).
Proof.
  intros Hbuild Hin.
  pose proof (Build_items_of_plan b r survivors Hbuild) as Hitems.
  rewrite Forall_forall in Hitems.
  destruct (Hitems item (proj2 (list_elem_of_In _ _) Hin)) as [parsed Hplan].
  assert (Hlabels : buildItem.Labels item = Some (default ∅ (yaml_Labels parsed))).
  { now destruct Hplan as (y & axes & axis & _ & _ & _ & _ & _ & _ & Hl & _). }
  split; [now rewrite Hlabels|].
  exists parsed. split; [exact Hplan|].
  split; [intros E | intros labels E]; now rewrite Hlabels, E.
Qed.

Lemma In_sorted_Yamls (b : procBuilder.t) (y : FileMeta.t) :
  In y (sort_ByName (procBuilder.Yamls b)) <-> In y (procBuilder.Yamls b).
Proof.
  rewrite <- !list_elem_of_In. now rewrite (sort_ByName_Permutation _).
Qed.

(** C5. When a document of the builder fails in the run of [Build], in
    its matrix or, on an axis the loops come to, in the substitution, in
    the parser or in the linter at the PID the sequence has reached,
    [Build] returns no item at all, and an error: the items of the
    documents and axes that had passed are not returned. The compiler
    returns a configuration and no error, so that it has no failure to
    report. *)
Theorem Build_fails_as_a_whole (b : procBuilder.t) (r : Rand) (y : FileMeta.t) :
  In y (procBuilder.Yamls b) ->
  documentFails b r y ->
  exists err, Build b r = ([], Some err).
Proof.
  intros Hy [(merr & Hm)|(axis & st & Hreach & Hfails)];
    unfold Build, compileItems.
  - apply In_sorted_Yamls, in_split in Hy as (before & after & ->).
    rewrite forEach_app.
    destruct (forEach (buildDocument b) before _) as [st0|err];
      cbn [mbind result_bind forEach]; [|now exists err].
    assert (Hdoc : buildDocument b st0 y = Err merr).
    { unfold buildDocument, documentAxes. now rewrite Hm. }
    rewrite Hdoc. now exists merr.
  - destruct Hreach
      as (before & after & st0 & axes & pre & post
          & -> & Hbefore & Haxes & -> & Hpre).
    destruct (buildAxis_Err b y axis st Hfails) as [err Herr].
    exists err.
    assert (Hdoc : buildDocument b st0 y = Err err).
    { unfold buildDocument. rewrite Haxes. cbn [mbind result_bind].
      rewrite forEach_app, Hpre. cbn [mbind result_bind forEach].
      now rewrite Herr. }
    rewrite forEach_app, Hbefore. cbn [mbind result_bind forEach].
    now rewrite Hdoc.
Qed.

(** Nothing else makes [Build] return an error: with an error it returns
    no item, and a document of the builder has failed in the run. *)
Lemma Build_Err_documentFails (b : procBuilder.t) (r : Rand)
  (returned : list buildItem.t) (err : error) :
  Build b r = (returned, Some err) ->
  returned = []
  /\ exists y, In y (procBuilder.Yamls b) /\ documentFails b r y.
Proof.
  unfold Build, compileItems.
  destruct (forEach (buildDocument b) _ _) as [st|e] eqn:Hrun;
    [discriminate|].
  intros [= <- <-]. split; [reflexivity|].
  apply forEach_Err_inv in Hrun as (before & y & after & st0 & Hsorted & Hbefore & Hy).
  exists y. split.
  { apply In_sorted_Yamls. rewrite Hsorted. apply in_elt. }
  unfold buildDocument in Hy.
  destruct (documentAxes y) as [axes|aerr] eqn:Haxes; simpl in Hy.
  - apply forEach_Err_inv in Hy as (pre & axis & post & st & Hsplit & Hpre & Haxis).
    right. exists axis, st. split.
    + now exists before, after, st0, axes, pre, post.
    + now apply (buildAxis_Err_inv b y axis st e).
  - left. unfold documentAxes in Haxes.
    destruct (matrix_ParseString (FileMeta.Data y)) as [parsed|merr];
      [discriminate|].
    now exists merr.
Qed.

(** A document that cannot pass makes [Build] fail wherever it stands
    among the documents. *)
Lemma Build_fails_anywhere (b : procBuilder.t) (r : Rand) (y : FileMeta.t) :
  In y (procBuilder.Yamls b) ->
  documentFailsAnywhere b y ->
  exists err, Build b r = ([], Some err).
Proof.
  intros Hy Hfails. apply In_sorted_Yamls in Hy.
  destruct (forEach_Err (buildDocument b) _ y Hy
              (buildDocument_Err b y Hfails)
              {| items := []; pidSequence := 1; rng := r |}) as [err Herr].
  exists err. unfold Build, compileItems. now rewrite Herr.
Qed.

Lemma compiled_from_name (b : procBuilder.t) (y : FileMeta.t) (axis : Env)
  (pid : Z) (parsed : yaml_Config) (item : buildItem.t) :
  compiled_from b y axis pid parsed item -> itemName item = documentName b y.
Proof.
  intros (_ & _ & Hproc & _). unfold itemName. rewrite Hproc.
  now destruct (negb _).
Qed.

(** A document with at most one axis runs the loop body once. *)
Lemma documentAxes_single (y : FileMeta.t) (axes' : list Env) :
  (forall axes,
      matrix_ParseString (FileMeta.Data y) = Ok axes -> (length axes <= 1)%nat) ->
  documentAxes y = Ok axes' -> exists axis, axes' = [axis].
Proof.
  unfold documentAxes. intros Hone.
  destruct (matrix_ParseString (FileMeta.Data y)) as [axes|err]; simpl;
    [|discriminate].
  specialize (Hone axes eq_refl).
  destruct axes as [|axis [|axis' axes]]; simpl in *; intros [= <-].
  - now exists ∅.
  - now exists axis.
  - lia.
Qed.

(** Over documents of at most one axis each, the loops append at most one
    item for each document, named after it. *)
Lemma compile_names_single_axis (b : procBuilder.t) (docs : list FileMeta.t) :
  (forall y axes,
      In y docs -> matrix_ParseString (FileMeta.Data y) = Ok axes ->
      (length axes <= 1)%nat) ->
  forall st st',
    forEach (buildDocument b) docs st = Ok st' ->
    exists new,
      items st' = items st ++ new
      /\ map itemName new `sublist_of` map (documentName b) docs.
Proof.
  induction docs as [|y docs IH]; intros Hone st st' Hrun; simpl in Hrun.
  - injection Hrun as <-. exists []. rewrite app_nil_r. split; [reflexivity|].
    constructor.
  - destruct (buildDocument b st y) as [st1|err] eqn:Hdoc; simpl in Hrun;
      [|discriminate].
    destruct (IH (fun y0 axes Hy0 => Hone y0 axes (or_intror Hy0)) st1 st' Hrun)
      as (new' & Hitems' & Hsub').
    unfold buildDocument in Hdoc.
    destruct (documentAxes y) as [axes'|err] eqn:Haxes; simpl in Hdoc;
      [|discriminate].
    destruct (documentAxes_single y axes'
                (fun axes => Hone y axes (or_introl eq_refl)) Haxes)
      as [axis ->].
    simpl in Hdoc.
    destruct (buildAxis b y st axis) as [st2|err] eqn:Haxis; simpl in Hdoc;
      [|discriminate].
    injection Hdoc as ->.
    apply buildAxis_Ok in Haxis
      as [[Hitems _]|(parsed & item & Hitems & _ & _ & Hfrom)].
    + exists new'. rewrite Hitems', Hitems. split; [reflexivity|].
      simpl. now apply sublist_cons.
    + exists (item :: new'). rewrite Hitems', Hitems, <- app_assoc.
      split; [reflexivity|]. simpl.
      rewrite (compiled_from_name _ _ _ _ _ _ Hfrom). now apply sublist_skip.
Qed.

(** C3 (as amended). When the documents have pairwise distinct sanitized
    names and none of them expands into more than one axis, the names of
    the items [Build] returns are pairwise distinct. *)
Theorem surviving_names_unique_single_axis (b : procBuilder.t) (r : Rand)
  (survivors : list buildItem.t) :
  Build b r = (survivors, None) ->
  NoDup (map (documentName b) (procBuilder.Yamls b)) ->
  (forall y axes,
      In y (procBuilder.Yamls b) ->
      matrix_ParseString (FileMeta.Data y) = Ok axes ->
      (length axes <= 1)%nat) ->
  NoDup (map itemName survivors).
Proof.
  intros Hbuild Hnames Hone.
  apply Build_Ok in Hbuild as (st & Hrun & ->).
  unfold compileItems in Hrun.
  apply (compile_names_single_axis b) in Hrun as (new & Hitems & Hsub).
  - simpl in Hitems. subst new.
    apply (sublist_NoDup _ (map itemName (items st)));
      [|apply sublist_map, filterItems_sublist].
    apply (sublist_NoDup _ (map (documentName b)
                              (sort_ByName (procBuilder.Yamls b))));
      [|exact Hsub].
    assert (Hperm : map (documentName b) (sort_ByName (procBuilder.Yamls b))
                    ≡ₚ map (documentName b) (procBuilder.Yamls b))
      by apply Permutation_map, sort_ByName_Permutation.
    now rewrite Hperm.
  - intros y axes Hy. apply Hone.
    apply list_elem_of_In. rewrite <- (sort_ByName_Permutation _).
    now apply list_elem_of_In.
Qed.

End Plan.
(** ** More on the dependency resolver *)

(** X5. Running the resolver on its own result changes nothing. *)
Lemma filterItems_idempotent (items : list buildItem.t) :
  filterItemsWithMissingDependencies (filterItemsWithMissingDependencies items)
  = filterItemsWithMissingDependencies items.
Proof. apply filterItems_done, itemsToRemove_nil, filterItems_resolved. Qed.

(** X6. The resolver returns its input unchanged exactly when every
    dependency of every item is the name of an item; it asks for nothing
    more, so that items which depend on each other in a cycle stay. *)
Lemma filterItems_unchanged_iff (items : list buildItem.t) :
  filterItemsWithMissingDependencies items = items
  <-> dependencies_resolved items.
Proof.
  split.
  - intros Heq. rewrite <- Heq. apply filterItems_resolved.
  - intros Hres. now apply filterItems_done, itemsToRemove_nil.
Qed.

(** X7. An item survives when no item of its name has a dependency. *)
Lemma filterItems_keeps_independent (items : list buildItem.t)
  (item : buildItem.t) :
  In item items ->
  (forall other,
      In other items -> itemName other = itemName item ->
      buildItem.DependsOn other = []) ->
  In item (filterItemsWithMissingDependencies items).
Proof.
  intros Hin Hfree.
  rewrite filterItems_by_name. apply filter_In. split; [exact Hin|].
  apply (filterItems_greatest items (fun name => name = itemName item));
    [|reflexivity].
  split.
  - intros name ->. now apply containsItemWithName_self.
  - intros other Hother Hname dep Hdep.
    rewrite (Hfree other Hother Hname) in Hdep. contradiction.
Qed.

(** The resolver never returns more items than it is given. *)
Lemma filterItems_length (items : list buildItem.t) :
  (length (filterItemsWithMissingDependencies items) <= length items)%nat.
Proof. apply sublist_length, filterItems_sublist. Qed.

(** ** The process list in closed form *)

Lemma stepProc_expected (build : model.Build.t) (item : buildItem.t)
  (step : backend.Step.t) (pid gid : Z) :
  stepProc build item step pid gid = expectedStep build item step pid gid.
Proof.
  unfold stepProc, expectedStep. cbv zeta.
  destruct (decide (model.Proc.State (buildItem.Proc item) = model.StatusSkipped));
    reflexivity.
Qed.

(** Once the group of a stage is set, every further step joins it. *)
Lemma appendStep_expected (build : model.Build.t) (item : buildItem.t)
  (steps : list backend.Step.t) :
  forall pid gid procs,
    gid <> 0 -> - 2 ^ 63 <= pid + 1 ->
    pid + Z.of_nat (length steps) < 2 ^ 63 ->
    fold_left (appendStep build item) steps (pid, gid, procs)
    = (pid + Z.of_nat (length steps), gid,
       procs ++ expectedSteps build item gid pid steps).
Proof.
  induction steps as [|step steps IH]; intros pid gid procs Hgid Hlo Hhi.
  - simpl. now rewrite Z.add_0_r, app_nil_r.
  - cbn [fold_left appendStep expectedSteps length] in *.
    rewrite Nat2Z.inj_succ in Hhi.
    unfold int_succ. rewrite int_wrap_small by lia.
    destruct (Z.eqb_spec gid 0) as [E|_]; [contradiction|].
    rewrite IH by lia. rewrite stepProc_expected, <- app_assoc. simpl.
    do 2 f_equal. lia.
Qed.

(** The first step of a stage opens its group. *)
Lemma appendStage_expected (build : model.Build.t) (item : buildItem.t)
  (stage : backend.Stage.t) (pid : Z) (procs : list model.Proc.t) :
  0 <= pid ->
  pid + Z.of_nat (length (backend.Stage.Steps stage)) < 2 ^ 63 ->
  appendStage build item (pid, procs) stage
  = (pid + Z.of_nat (length (backend.Stage.Steps stage)),
     procs ++ expectedSteps build item (pid + 1) pid (backend.Stage.Steps stage)).
Proof.
  intros Hlo Hhi. unfold appendStage.
  destruct (backend.Stage.Steps stage) as [|step steps].
  - simpl. now rewrite Z.add_0_r, app_nil_r.
  - cbn [fold_left appendStep expectedSteps length] in *.
    rewrite Nat2Z.inj_succ in Hhi.
    unfold int_succ. rewrite int_wrap_small by lia. simpl (0 =? 0).
    cbv iota.
    rewrite appendStep_expected by lia.
    rewrite stepProc_expected, <- app_assoc. simpl.
    f_equal. lia.
Qed.

Lemma appendStages_expected (build : model.Build.t) (item : buildItem.t)
  (stages : list backend.Stage.t) :
  forall pid procs,
    0 <= pid ->
    pid + Z.of_nat (length (flat_map backend.Stage.Steps stages)) < 2 ^ 63 ->
    fold_left (appendStage build item) stages (pid, procs)
    = (pid + Z.of_nat (length (flat_map backend.Stage.Steps stages)),
       procs ++ expectedStages build item pid stages).
Proof.
  induction stages as [|stage stages IH]; intros pid procs Hlo Hhi.
  - simpl. now rewrite Z.add_0_r, app_nil_r.
  - cbn [fold_left flat_map expectedStages] in *.
    rewrite length_app, Nat2Z.inj_add in *.
    rewrite appendStage_expected by lia.
    rewrite IH by lia. rewrite <- app_assoc. f_equal. lia.
Qed.

Lemma appendItems_expected (build : model.Build.t)
  (buildItems : list buildItem.t) :
  forall pid procs,
    0 <= pid ->
    pid + Z.of_nat (totalSteps buildItems) < 2 ^ 63 ->
    fold_left (appendItemSteps build) buildItems (pid, procs)
    = (pid + Z.of_nat (totalSteps buildItems),
       procs ++ expectedItems build pid buildItems).
Proof.
  induction buildItems as [|item l IH]; intros pid procs Hlo Hhi.
  - simpl. now rewrite Z.add_0_r, app_nil_r.
  - rewrite totalSteps_cons, Nat2Z.inj_add in *.
    cbn [fold_left expectedItems]. unfold appendItemSteps at 2.
    unfold stepCount in *.
    rewrite appendStages_expected by lia.
    rewrite IH by lia. rewrite <- app_assoc. f_equal. lia.
Qed.

Lemma setBuildStepsOnBuild_expected (build : model.Build.t)
  (buildItems : list buildItem.t) :
  maxPID 0 buildItems + Z.of_nat (totalSteps buildItems) < 2 ^ 63 ->
  setBuildStepsOnBuild build buildItems
  = withProcs build
      (model.Build.Procs build
       ++ map buildItem.Proc buildItems
       ++ expectedItems build (maxPID 0 buildItems) buildItems).
Proof.
  intros Hbound.
  destruct (maxPID_bounds buildItems 0) as (Hlo & _ & _).
  unfold setBuildStepsOnBuild.
  rewrite appendItemProc_fold, appendItems_expected by lia.
  now rewrite <- app_assoc.
Qed.

Lemma emittedProcs_expected (build : model.Build.t)
  (buildItems : list buildItem.t) :
  maxPID 0 buildItems + Z.of_nat (totalSteps buildItems) < 2 ^ 63 ->
  emittedProcs build buildItems
  = map buildItem.Proc buildItems
    ++ expectedItems build (maxPID 0 buildItems) buildItems.
Proof.
  intros Hbound. unfold emittedProcs.
  rewrite setBuildStepsOnBuild_expected by exact Hbound.
  simpl. apply drop_app_length.
Qed.

Lemma expectedItems_length (build : model.Build.t)
  (buildItems : list buildItem.t) :
  forall pid,
    length (expectedItems build pid buildItems) = totalSteps buildItems.
Proof.
  assert (Hsteps : forall item steps gid pid,
             length (expectedSteps build item gid pid steps) = length steps).
  { intros item steps. induction steps as [|step steps IH]; intros gid pid;
      simpl; [reflexivity | now rewrite IH]. }
  assert (Hstages : forall item stages pid,
             length (expectedStages build item pid stages)
             = length (flat_map backend.Stage.Steps stages)).
  { intros item stages. induction stages as [|stage stages IH]; intros pid;
      simpl; [reflexivity|]. now rewrite !length_app, Hsteps, IH. }
  induction buildItems as [|item l IH]; intros pid; [reflexivity|].
  rewrite totalSteps_cons. simpl. rewrite length_app, Hstages, IH. reflexivity.
Qed.

(** X8. Without overflow [setBuildStepsOnBuild] changes nothing of the
    build but its process list, to which it appends the descriptors of
    the items, then for every stage of every item the descriptors of its
    steps: numbered on from the largest PID of an item, each in the group
    of the first step of its stage, with the item as parent, the alias of
    the step as name and the state Skipped or Pending after its item. It
    appends one descriptor for each item and one for each step. *)
Theorem setBuildStepsOnBuild_closed_form (build : model.Build.t)
  (buildItems : list buildItem.t) :
  maxPID 0 buildItems + Z.of_nat (totalSteps buildItems) < 2 ^ 63 ->
  setBuildStepsOnBuild build buildItems
  = withProcs build
      (model.Build.Procs build
       ++ map buildItem.Proc buildItems
       ++ expectedItems build (maxPID 0 buildItems) buildItems)
  /\ length (emittedProcs build buildItems)
     = (length buildItems + totalSteps buildItems)%nat.
Proof.
  intros Hbound. split.
  - now apply setBuildStepsOnBuild_expected.
  - rewrite emittedProcs_expected by exact Hbound.
    now rewrite length_app, length_map, expectedItems_length.
Qed.

(** *** Parents and groups *)

Lemma expectedSteps_In (build : model.Build.t) (item : buildItem.t)
  (steps : list backend.Step.t) :
  forall gid pid proc,
    In proc (expectedSteps build item gid pid steps) ->
    model.Proc.PGID proc = gid
    /\ model.Proc.PPID proc = model.Proc.PID (buildItem.Proc item)
    /\ pid < model.Proc.PID proc.
Proof.
  induction steps as [|step steps IH]; intros gid pid proc; simpl;
    [contradiction|].
  intros [<-|Hin]; simpl; [repeat split; lia|].
  destruct (IH gid (pid + 1) proc Hin) as (? & ? & ?). repeat split; auto; lia.
Qed.

(** In a stage every descriptor names the first one as its group. *)
Lemma expectedStage_leader (build : model.Build.t) (item : buildItem.t)
  (pid : Z) (steps : list backend.Step.t) (proc : model.Proc.t) :
  In proc (expectedSteps build item (pid + 1) pid steps) ->
  model.Proc.PPID proc = model.Proc.PID (buildItem.Proc item)
  /\ exists leader,
       In leader (expectedSteps build item (pid + 1) pid steps)
       /\ model.Proc.PID leader = model.Proc.PGID proc
       /\ model.Proc.PGID leader = model.Proc.PID leader
       /\ model.Proc.PPID leader = model.Proc.PPID proc.
Proof.
  intros Hin.
  destruct (expectedSteps_In build item steps (pid + 1) pid proc Hin)
    as (Hgid & Hppid & _).
  split; [exact Hppid|].
  destruct steps as [|step steps]; [contradiction|].
  exists (expectedStep build item step (pid + 1) (pid + 1)).
  split; [now left|]. simpl. rewrite Hgid, Hppid. repeat split.
Qed.

Lemma expectedStages_leader (build : model.Build.t) (item : buildItem.t)
  (stages : list backend.Stage.t) :
  forall pid proc,
    In proc (expectedStages build item pid stages) ->
    model.Proc.PPID proc = model.Proc.PID (buildItem.Proc item)
    /\ exists leader,
         In leader (expectedStages build item pid stages)
         /\ model.Proc.PID leader = model.Proc.PGID proc
         /\ model.Proc.PGID leader = model.Proc.PID leader
         /\ model.Proc.PPID leader = model.Proc.PPID proc.
Proof.
  induction stages as [|stage stages IH]; intros pid proc; simpl;
    [contradiction|].
  intros Hin. apply in_app_or in Hin as [Hin|Hin].
  - destruct (expectedStage_leader build item pid _ proc Hin)
      as (Hppid & leader & Hl & Hrest).
    split; [exact Hppid|]. exists leader.
    split; [apply in_or_app; now left | exact Hrest].
  - destruct (IH _ proc Hin) as (Hppid & leader & Hl & Hrest).
    split; [exact Hppid|]. exists leader.
    split; [apply in_or_app; now right | exact Hrest].
Qed.

Lemma expectedItems_leader (build : model.Build.t)
  (buildItems : list buildItem.t) :
  forall pid proc,
    In proc (expectedItems build pid buildItems) ->
    (exists item,
        In item buildItems
        /\ model.Proc.PPID proc = model.Proc.PID (buildItem.Proc item))
    /\ exists leader,
         In leader (expectedItems build pid buildItems)
         /\ model.Proc.PID leader = model.Proc.PGID proc
         /\ model.Proc.PGID leader = model.Proc.PID leader
         /\ model.Proc.PPID leader = model.Proc.PPID proc.
Proof.
  induction buildItems as [|item l IH]; intros pid proc; simpl;
    [contradiction|].
  intros Hin. apply in_app_or in Hin as [Hin|Hin].
  - destruct (expectedStages_leader build item _ pid proc Hin)
      as (Hppid & leader & Hl & Hrest).
    split; [exists item; split; [now left | exact Hppid]|].
    exists leader. split; [apply in_or_app; now left | exact Hrest].
  - destruct (IH _ proc Hin) as ((it & Hit & Hppid) & leader & Hl & Hrest).
    split; [exists it; split; [now right | exact Hppid]|].
    exists leader. split; [apply in_or_app; now right | exact Hrest].
Qed.

(** ** More on the plan *)

Section MorePlan.
Context `{Collaborators}.

(** What the descriptor of an item of the plan looks like. *)
Lemma item_of_plan_proc (b : procBuilder.t) (parsed : yaml_Config)
  (item : buildItem.t) :
  item_of_plan b parsed item ->
  model.Proc.ID (buildItem.Proc item) = 0
  /\ model.Proc.BuildID (buildItem.Proc item)
     = model.Build.ID (procBuilder.Curr b)
  /\ model.Proc.PPID (buildItem.Proc item) = 0
  /\ model.Proc.PGID (buildItem.Proc item) = model.Proc.PID (buildItem.Proc item)
  /\ (model.Proc.State (buildItem.Proc item) = model.StatusPending
      \/ model.Proc.State (buildItem.Proc item) = model.StatusSkipped)
  /\ exists y axes,
       In y (procBuilder.Yamls b)
       /\ documentAxes y = Ok axes
       /\ In (model.Proc.Environ (buildItem.Proc item)) axes
       /\ itemName item = documentName b y.
Proof.
  intros (y & axes & axis & Hy & Haxes & Haxis & _ & _ & Hproc & _).
  unfold itemName. rewrite Hproc.
  destruct (negb _); simpl; repeat split; auto; exists y, axes; auto.
Qed.

(** X9. The descriptor of every item [Build] returns belongs to the
    current build, has no parent, leads its own group, is Pending or
    Skipped, is named after a document of the builder and carries one of
    the axes of that document as its environment. *)
Theorem Build_item_descriptors (b : procBuilder.t) (r : Rand)
  (survivors : list buildItem.t) (item : buildItem.t) :
  Build b r = (survivors, None) ->
  In item survivors ->
  model.Proc.ID (buildItem.Proc item) = 0
  /\ model.Proc.BuildID (buildItem.Proc item)
     = model.Build.ID (procBuilder.Curr b)
  /\ model.Proc.PPID (buildItem.Proc item) = 0
  /\ model.Proc.PGID (buildItem.Proc item) = model.Proc.PID (buildItem.Proc item)
  /\ (model.Proc.State (buildItem.Proc item) = model.StatusPending
      \/ model.Proc.State (buildItem.Proc item) = model.StatusSkipped)
  /\ exists y axes,
       In y (procBuilder.Yamls b)
       /\ documentAxes y = Ok axes
       /\ In (model.Proc.Environ (buildItem.Proc item)) axes
       /\ itemName item = documentName b y.
Proof.
  intros Hbuild Hin.
  pose proof (Build_items_of_plan b r survivors Hbuild) as Hitems.
  rewrite Forall_forall in Hitems.
  destruct (Hitems item (proj2 (list_elem_of_In _ _) Hin)) as [parsed Hplan].
  now apply (item_of_plan_proc b parsed).
Qed.

(** The largest PID of the items [Build] returns is at most the number
    of items it compiled. *)
Lemma Build_maxPID_le (b : procBuilder.t) (r : Rand)
  (survivors : list buildItem.t) :
  Build b r = (survivors, None) ->
  Z.of_nat (compiledCount b r) < 2 ^ 63 ->
  0 <= maxPID 0 survivors <= Z.of_nat (compiledCount b r).
Proof.
  intros Hbuild Hbound.
  destruct (Build_PIDs b r survivors Hbuild Hbound) as [_ Hrange].
  destruct (maxPID_bounds survivors 0) as (Hlo & _ & Hhit).
  split; [exact Hlo|].
  destruct Hhit as [->|(item & Hin & ->)]; [lia|].
  rewrite Forall_forall in Hrange.
  apply list_elem_of_In, Hrange in Hin. lia.
Qed.

(** X10. In the final process list of a plan no identifier dangles: the
    group of every descriptor is the PID of a descriptor of the list that
    leads its own group and has the same parent, and the parent of every
    step is the PID of the descriptor of an item of the list. *)
Theorem plan_ids_resolve (b : procBuilder.t) (r : Rand)
  (build : model.Build.t) (survivors : list buildItem.t) :
  Build b r = (survivors, None) ->
  Z.of_nat (compiledCount b r) + Z.of_nat (totalSteps survivors) < 2 ^ 63 ->
  ids_resolve (emittedProcs build survivors).
Proof.
  intros Hbuild Hbound.
  destruct (Build_maxPID_le b r survivors Hbuild) as [_ Hmax]; [lia|].
  rewrite emittedProcs_expected by lia.
  assert (Hitem : forall item,
             In item survivors ->
             model.Proc.PPID (buildItem.Proc item) = 0
             /\ model.Proc.PGID (buildItem.Proc item)
                = model.Proc.PID (buildItem.Proc item)).
  { intros item Hin.
    pose proof (Build_items_of_plan b r survivors Hbuild) as Hitems.
    rewrite Forall_forall in Hitems.
    destruct (Hitems item (proj2 (list_elem_of_In _ _) Hin)) as [parsed Hplan].
    destruct (item_of_plan_proc b parsed item Hplan) as (_ & _ & ? & ? & _).
    split; assumption. }
  intros proc Hin. apply in_app_or in Hin as [Hin|Hin].
  - apply in_map_iff in Hin as (item & <- & Hin).
    destruct (Hitem item Hin) as [Hppid Hpgid].
    split; [|now left].
    exists (buildItem.Proc item).
    split; [apply in_or_app; left; now apply in_map|].
    repeat split; congruence.
  - destruct (expectedItems_leader build survivors _ proc Hin)
      as ((item & Hit & Hppid) & leader & Hl & Hrest).
    split.
    + exists leader. split; [apply in_or_app; now right | exact Hrest].
    + right. exists (buildItem.Proc item).
      split; [apply in_or_app; left; now apply in_map|].
      destruct (Hitem item Hit) as [Hp0 _]. split; congruence.
Qed.

End MorePlan.

(** ** The jobs of a plan *)

Section Jobs.
Context `{Collaborators}.

Lemma compiled_from_job (b : procBuilder.t) (y : FileMeta.t) (axis : Env)
  (pid : Z) (parsed : yaml_Config) (item : buildItem.t) :
  compiled_from b y axis pid parsed item ->
  itemJob item = (documentName b y, axis).
Proof.
  intros (_ & _ & Hproc & _). unfold itemJob, itemName. rewrite Hproc.
  now destruct (negb _).
Qed.

(** The loop over the axes of a document appends, in the order of the
    axes, at most one item for each axis. *)
Lemma buildAxes_jobs (b : procBuilder.t) (y : FileMeta.t) (axes : list Env) :
  forall st st',
    forEach (buildAxis b y) axes st = Ok st' ->
    exists new,
      items st' = items st ++ new
      /\ map itemJob new
         `sublist_of` map (fun axis => (documentName b y, axis)) axes.
Proof.
  induction axes as [|axis axes IH]; intros st st' Hrun; simpl in Hrun.
  - injection Hrun as <-. exists []. rewrite app_nil_r.
    split; [reflexivity | constructor].
  - destruct (buildAxis b y st axis) as [st1|err] eqn:Haxis; simpl in Hrun;
      [|discriminate].
    destruct (IH st1 st' Hrun) as (new' & Hitems' & Hsub').
    apply buildAxis_Ok in Haxis
      as [[Hitems _]|(parsed & item & Hitems & _ & _ & Hfrom)].
    + exists new'. rewrite Hitems', Hitems. split; [reflexivity|].
      simpl. now apply sublist_cons.
    + exists (item :: new'). rewrite Hitems', Hitems, <- app_assoc.
      split; [reflexivity|]. simpl.
      rewrite (compiled_from_job _ _ _ _ _ _ Hfrom). now apply sublist_skip.
Qed.

Lemma sublist_app_both {A : Type} (l1 l2 k1 k2 : list A) :
  l1 `sublist_of` k1 -> l2 `sublist_of` k2 -> l1 ++ l2 `sublist_of` k1 ++ k2.
Proof. intros H1 H2. now apply sublist_app. Qed.

Lemma buildDocuments_jobs (b : procBuilder.t) (docs : list FileMeta.t) :
  forall st st',
    forEach (buildDocument b) docs st = Ok st' ->
    exists new,
      items st' = items st ++ new
      /\ map itemJob new
         `sublist_of`
         flat_map (fun y => map (fun axis => (documentName b y, axis)) (axesOf y))
           docs.
Proof.
  induction docs as [|y docs IH]; intros st st' Hrun; simpl in Hrun.
  - injection Hrun as <-. exists []. rewrite app_nil_r.
    split; [reflexivity | constructor].
  - destruct (buildDocument b st y) as [st1|err] eqn:Hdoc; simpl in Hrun;
      [|discriminate].
    destruct (IH st1 st' Hrun) as (new' & Hitems' & Hsub').
    unfold buildDocument in Hdoc.
    destruct (documentAxes y) as [axes|err] eqn:Haxes; simpl in Hdoc;
      [|discriminate].
    apply buildAxes_jobs in Hdoc as (new & Hitems & Hsub).
    exists (new ++ new'). rewrite Hitems', Hitems, <- app_assoc.
    split; [reflexivity|]. rewrite map_app. simpl.
    unfold axesOf at 1. rewrite Haxes. now apply sublist_app_both.
Qed.

(** X11. The items [Build] returns follow the jobs of the builder, the
    documents in sorted order and the axes of each document in theirs:
    each item bears the name of its document and has its axis as
    environment, no job gives more than one item, and the order of the
    jobs is kept. *)
Theorem Build_follows_jobs (b : procBuilder.t) (r : Rand)
  (survivors : list buildItem.t) :
  Build b r = (survivors, None) ->
  map itemJob survivors `sublist_of` jobs b
  /\ (length survivors <= length (jobs b))%nat.
Proof.
  intros Hbuild. apply Build_Ok in Hbuild as (st & Hrun & ->).
  unfold compileItems in Hrun.
  apply buildDocuments_jobs in Hrun as (new & Hitems & Hsub).
  simpl in Hitems. subst new.
  assert (Hall : map itemJob (filterItemsWithMissingDependencies (items st))
                 `sublist_of` jobs b).
  { etransitivity; [|exact Hsub]. apply sublist_map, filterItems_sublist. }
  split; [exact Hall|].
  apply sublist_length in Hall. now rewrite length_map in Hall.
Qed.

(** *** A successful plan *)

Lemma forEach_each_Ok {A S : Type} (body : S -> A -> result S) (l : list A) :
  forall s s',
    forEach body l s = Ok s' ->
    forall x, In x l -> exists s0 s1, body s0 x = Ok s1.
Proof.
  induction l as [|a l IH]; intros s s' Hrun x Hx; simpl in *; [contradiction|].
  destruct (body s a) as [s1|err] eqn:E; simpl in Hrun; [|discriminate].
  destruct Hx as [->|Hx]; [now exists s, s1 | now apply (IH s1 s')].
Qed.

Lemma buildAxis_passes (b : procBuilder.t) (y : FileMeta.t) (st st' : loopState)
  (axis : Env) :
  buildAxis b y st axis = Ok st' ->
  exists parsed,
    parsedDefinition b y (pidSequence st) axis = Ok parsed
    /\ linter_Lint (model.Repo.IsTrusted (procBuilder.Repo b)) parsed = None.
Proof.
  unfold buildAxis, parsedDefinition. cbv zeta.
  destruct (envsubst_ b (FileMeta.Data y) _) as [substituted|err];
    simpl; [|discriminate].
  destruct (yaml_ParseString substituted) as [parsed|err];
    simpl; [|discriminate].
  destruct (linter_Lint _ parsed) as [lerr|] eqn:El; [discriminate|].
  intros _. now exists parsed.
Qed.

(** X12. When [Build] returns without an error, the matrix of every
    document of the builder parsed, and on every axis the document was
    substituted, parsed and linted without an error, at the PID the loop
    had reached. *)
Theorem Build_success_all_pass (b : procBuilder.t) (r : Rand)
  (survivors : list buildItem.t) (y : FileMeta.t) :
  Build b r = (survivors, None) ->
  In y (procBuilder.Yamls b) ->
  exists axes,
    documentAxes y = Ok axes
    /\ forall axis, In axis axes ->
       exists pid parsed,
         parsedDefinition b y pid axis = Ok parsed
         /\ linter_Lint (model.Repo.IsTrusted (procBuilder.Repo b)) parsed = None.
Proof.
  intros Hbuild Hy. apply Build_Ok in Hbuild as (st & Hrun & _).
  assert (Hy' : In y (sort_ByName (procBuilder.Yamls b))).
  { apply list_elem_of_In. rewrite (sort_ByName_Permutation _).
    now apply list_elem_of_In. }
  unfold compileItems in Hrun.
  destruct (forEach_each_Ok _ _ _ _ Hrun y Hy') as (s0 & s1 & Hdoc).
  unfold buildDocument in Hdoc.
  destruct (documentAxes y) as [axes|err]; simpl in Hdoc; [|discriminate].
  exists axes. split; [reflexivity|].
  intros axis Haxis.
  destruct (forEach_each_Ok _ _ _ _ Hdoc axis Haxis) as (s2 & s3 & Haxis').
  apply buildAxis_passes in Haxis' as (parsed & Hp & Hl).
  now exists (pidSequence s2), parsed.
Qed.

(** *** What the compiler is given *)

Lemma buildAxis_compiledWith (b : procBuilder.t) (y : FileMeta.t)
  (st st' : loopState) (axis : Env) :
  buildAxis b y st axis = Ok st' ->
  Forall (compiledWith b) (items st) -> Forall (compiledWith b) (items st').
Proof.
  unfold buildAxis. cbv zeta.
  destruct (envsubst_ b (FileMeta.Data y) _) as [substituted|err];
    simpl; [|discriminate].
  destruct (yaml_ParseString substituted) as [parsed|err];
    simpl; [|discriminate].
  destruct (linter_Lint _ parsed) as [lerr|]; [discriminate|].
  destruct (rand_Int (rng st)) as [rnd rng'].
  match goal with
  | |- context [backend.Config.Stages ?ir] => set (config := ir)
  end.
  destruct (backend.Config.Stages config) as [|stage stages]; simpl.
  - intros [= <-]. auto.
  - intros [= <-] Hall. simpl. apply Forall_app. split; [exact Hall|].
    constructor; [|constructor].
    unfold compiledWith.
    match goal with
    | config := toInternalRepresentation _ ?p ?e ?m _ ?n |- _ =>
        exists p, e, m, n
    end.
    subst config.
    destruct (yaml_Labels parsed), (negb _); split; reflexivity.
Qed.

Lemma Build_compiledWith (b : procBuilder.t) (r : Rand)
  (survivors : list buildItem.t) :
  Build b r = (survivors, None) -> Forall (compiledWith b) survivors.
Proof.
  intros Hbuild. apply Build_Ok in Hbuild as (st & Hrun & ->).
  eapply sublist_Forall; [apply filterItems_sublist|].
  revert Hrun. unfold compileItems.
  apply (forEach_invariant (fun st => Forall (compiledWith b) (items st)));
    [|constructor].
  intros s y s' _ Hs Hdoc. unfold buildDocument in Hdoc.
  destruct (documentAxes y) as [axes|err]; simpl in Hdoc; [|discriminate].
  revert Hs Hdoc.
  apply (forEach_invariant (fun st => Forall (compiledWith b) (items st))).
  intros s0 axis s0' _ Hs0 Haxis. now apply (buildAxis_compiledWith b y s0 s0' axis).
Qed.

(** X13. The configuration of every item [Build] returns is what the
    compiler made of a parsed definition under options whose prefix is
    "0_" followed by a random number: the process id of the prefix is
    the zero [ID] of a descriptor not stored yet, so that only the random
    part tells two items apart. The options end with the extra
    environment of the builder, carry the netrc of the builder for a
    private repository only, and their metadata holds the platform the
    item records. *)
Theorem Build_compiler_options (b : procBuilder.t) (r : Rand)
  (survivors : list buildItem.t) (item : buildItem.t) :
  Build b r = (survivors, None) ->
  In item survivors ->
  exists options parsed rnd environ,
    buildItem.Config item = compiler_Compile options parsed
    /\ compiler.Options.Prefix options = "0_" +:+ itoa rnd
    /\ compiler.Options.Environ options = [environ; procBuilder.Envs b]
    /\ compiler.Options.Netrc options
       = (if model.Repo.IsPrivate (procBuilder.Repo b)
          then Some (model.Netrc.Login (procBuilder.Netrc b),
                     model.Netrc.Password (procBuilder.Netrc b),
                     model.Netrc.Machine (procBuilder.Netrc b))
          else None)
    /\ buildItem.Platform item
       = frontend.System.Arch
           (frontend.Metadata.Sys (compiler.Options.Metadata options)).
Proof.
  intros Hbuild Hin.
  pose proof (Build_compiledWith b r survivors Hbuild) as Hall.
  rewrite Forall_forall in Hall.
  destruct (Hall item (proj2 (list_elem_of_In _ _) Hin))
    as (parsed & environ & metadata & rnd & Hconfig & Hplatform).
  unfold toInternalRepresentation in Hconfig. cbv zeta in Hconfig.
  eexists _, parsed, rnd, environ.
  split; [exact Hconfig|]. simpl.
  repeat split; try reflexivity. exact Hplatform.
Qed.

End Jobs.

(** ** More on strings and [sanitizePath] *)

Lemma append_cons (a : ascii) (s t : string) :
  String a s +:+ t = String a (s +:+ t).
Proof. reflexivity. Qed.

Lemma append_length (s t : string) :
  String.length (s +:+ t) = (String.length s + String.length t)%nat.
Proof.
  induction s as [|a s IH]; [reflexivity|].
  rewrite append_cons. simpl. now rewrite IH.
Qed.

Lemma append_assoc (s t u : string) : (s +:+ t) +:+ u = s +:+ (t +:+ u).
Proof.
  induction s as [|a s IH]; [reflexivity|].
  rewrite !append_cons. now rewrite IH.
Qed.

Lemma append_empty_r (s : string) : s +:+ EmptyString = s.
Proof.
  induction s as [|a s IH]; [reflexivity|].
  rewrite append_cons. now rewrite IH.
Qed.

Lemma substring_append_l (s t : string) :
  substring 0 (String.length s) (s +:+ t) = s.
Proof.
  induction s as [|a s IH]; [apply substring_0_0|].
  rewrite append_cons. simpl. now rewrite IH.
Qed.

Lemma substring_append_r (s t : string) :
  substring (String.length s) (String.length t) (s +:+ t) = t.
Proof.
  induction s as [|a s IH]; [apply substring_all|].
  rewrite append_cons. simpl. exact IH.
Qed.

Lemma substring_split (s : string) :
  forall n,
    (n <= String.length s)%nat ->
    substring 0 n s +:+ substring n (String.length s - n) s = s.
Proof.
  induction s as [|a s IH]; intros n Hn.
  - destruct n; [reflexivity | simpl in Hn; lia].
  - destruct n as [|n].
    + rewrite substring_0_0, Nat.sub_0_r, substring_all. reflexivity.
    + simpl in *. rewrite append_cons, IH by lia. reflexivity.
Qed.

Lemma HasPrefix_append (p r : string) : HasPrefix (p +:+ r) p = true.
Proof.
  unfold HasPrefix, slice. rewrite append_length, Nat.sub_0_r, substring_append_l.
  rewrite String.eqb_refl, andb_true_r. apply Nat.leb_le. lia.
Qed.

Lemma TrimPrefix_append (p r : string) : TrimPrefix (p +:+ r) p = r.
Proof.
  unfold TrimPrefix, slice. rewrite HasPrefix_append, append_length.
  replace (String.length p + String.length r - String.length p)%nat
    with (String.length r) by lia.
  apply substring_append_r.
Qed.

Lemma HasSuffix_append (r suffix : string) : HasSuffix (r +:+ suffix) suffix = true.
Proof.
  unfold HasSuffix, slice. rewrite append_length.
  replace (String.length r + String.length suffix - String.length suffix)%nat
    with (String.length r) by lia.
  replace (String.length r + String.length suffix - String.length r)%nat
    with (String.length suffix) by lia.
  rewrite substring_append_r, String.eqb_refl, andb_true_r.
  apply Nat.leb_le. lia.
Qed.

Lemma TrimSuffix_append (r suffix : string) :
  TrimSuffix (r +:+ suffix) suffix = r.
Proof.
  unfold TrimSuffix, slice. rewrite HasSuffix_append, append_length.
  replace (String.length r + String.length suffix - String.length suffix - 0)%nat
    with (String.length r) by lia.
  apply substring_append_l.
Qed.

(** [TrimPrefix] removes the prefix or nothing. *)
Lemma TrimPrefix_factor (s p : string) :
  exists pre,
    s = pre +:+ TrimPrefix s p /\ (pre = EmptyString \/ pre = p).
Proof.
  unfold TrimPrefix. destruct (HasPrefix s p) eqn:E.
  - exists p. split; [|now right].
    unfold HasPrefix, slice in *. apply andb_true_iff in E as [Hle Heq].
    apply Nat.leb_le in Hle. apply String.eqb_eq in Heq.
    rewrite Nat.sub_0_r in Heq.
    pose proof (substring_split s (String.length p) Hle) as Hsplit.
    rewrite Heq in Hsplit. now symmetry.
  - exists EmptyString. split; [reflexivity | now left].
Qed.

(** [TrimSuffix] removes the suffix or nothing. *)
Lemma TrimSuffix_factor (s suffix : string) :
  exists post,
    s = TrimSuffix s suffix +:+ post
    /\ (post = EmptyString \/ post = suffix).
Proof.
  unfold TrimSuffix. destruct (HasSuffix s suffix) eqn:E.
  - exists suffix. split; [|now right].
    unfold HasSuffix, slice in *. apply andb_true_iff in E as [Hle Heq].
    apply Nat.leb_le in Hle. apply String.eqb_eq in Heq.
    rewrite Nat.sub_0_r.
    replace (String.length s - (String.length s - String.length suffix))%nat
      with (String.length suffix) in Heq by lia.
    assert (Hn : (String.length s - String.length suffix <= String.length s)%nat)
      by lia.
    pose proof (substring_split s _ Hn) as Hsplit.
    replace (String.length s - (String.length s - String.length suffix))%nat
      with (String.length suffix) in Hsplit by lia.
    rewrite Heq in Hsplit. now symmetry.
  - exists EmptyString. split; [now rewrite append_empty_r | now left].
Qed.

(** X14. The name of a document [name.yml] in the config folder is
    [name], less a leading dot: [sanitizePath] undoes the folder in front
    and the extension behind. *)
Theorem sanitizePath_document (configFolder name : string) :
  sanitizePath (configFolder +:+ name +:+ ".yml") configFolder
  = TrimPrefix name ".".
Proof.
  unfold sanitizePath. cbv zeta.
  rewrite <- append_assoc, TrimSuffix_append, TrimPrefix_append. reflexivity.
Qed.

(** X15. [sanitizePath] only strips: the path is its result with, in
    front, nothing, the config folder, a dot, or the config folder and a
    dot, and, behind, nothing or ".yml". *)
Theorem sanitizePath_factor (path configFolder : string) :
  exists pre post,
    path = pre +:+ sanitizePath path configFolder +:+ post
    /\ (pre = EmptyString \/ pre = configFolder \/ pre = "."
        \/ pre = configFolder +:+ ".")
    /\ (post = EmptyString \/ post = ".yml").
Proof.
  unfold sanitizePath. cbv zeta.
  destruct (TrimSuffix_factor path ".yml") as (post & Hpost & Hpost').
  destruct (TrimPrefix_factor (TrimSuffix path ".yml") configFolder)
    as (pre1 & Hpre1 & Hpre1').
  destruct (TrimPrefix_factor (TrimPrefix (TrimSuffix path ".yml") configFolder) ".")
    as (pre2 & Hpre2 & Hpre2').
  exists (pre1 +:+ pre2), post. split; [|split; [|exact Hpost']].
  - rewrite append_assoc, <- (append_assoc pre2), <- Hpre2.
    rewrite <- append_assoc, <- Hpre1. exact Hpost.
  - destruct Hpre1' as [->| ->], Hpre2' as [->| ->]; simpl.
    + now left.
    + right. right. now left.
    + right. left. apply append_empty_r.
    + now do 3 right.
Qed.

(** ** The Gitea remote *)

Section GiteaProperties.
Context `{Gitea}.

Lemma FileMeta_eta (config : FileMeta.t) :
  {| FileMeta.Name := FileMeta.Name config; FileMeta.Data := FileMeta.Data config |}
  = config.
Proof. now destruct config. Qed.

Lemma dirEntry_fetch (c : gitea.oauthclient.t) (u : gitea.User.t)
  (r : gitea.Repo.t) (b : model.Build.t) (f : string)
  (configs : list FileMeta.t) (e : gitea.GitEntry.t) :
  filepath_Match f (gitea.GitEntry.Path e)
  && String.eqb (gitea.GitEntry.Type_ e) "blob" = true ->
  dirEntry c u r b f configs e
  = match File c u r b (gitea.GitEntry.Path e) with
    | Err err =>
        Err ("multi-pipeline cannot get " +:+ gitea.GitEntry.Path e
             +:+ ": " +:+ err)
    | Ok data =>
        Ok (configs ++ [ {| FileMeta.Name := gitea.GitEntry.Path e;
                            FileMeta.Data := data |} ])
    end.
Proof. intros Hwanted. unfold dirEntry. now rewrite Hwanted. Qed.

Lemma dirEntry_skip (c : gitea.oauthclient.t) (u : gitea.User.t)
  (r : gitea.Repo.t) (b : model.Build.t) (f : string)
  (configs : list FileMeta.t) (e : gitea.GitEntry.t) :
  filepath_Match f (gitea.GitEntry.Path e)
  && String.eqb (gitea.GitEntry.Type_ e) "blob" = false ->
  dirEntry c u r b f configs e = Ok configs.
Proof. intros Hwanted. unfold dirEntry. now rewrite Hwanted. Qed.

(** The loop of [Dir] succeeds exactly with the documents of the wanted
    entries, appended in the order of the tree. *)
Lemma dirEntries_Ok (c : gitea.oauthclient.t) (u : gitea.User.t)
  (r : gitea.Repo.t) (b : model.Build.t) (f : string)
  (tree : list gitea.GitEntry.t) :
  forall acc configs,
    forEach (dirEntry c u r b (dirPattern f)) tree acc = Ok configs
    <-> exists new,
          configs = acc ++ new
          /\ Forall2 (documentOf c u r b) (wanted f tree) new.
Proof.
  unfold wanted.
  induction tree as [|e tree IH]; intros acc configs;
    cbn [forEach List.filter].
  - split.
    + intros [= <-]. exists []. rewrite app_nil_r. split; [reflexivity | constructor].
    + intros (new & -> & Hall). apply Forall2_nil_inv_l in Hall as ->.
      now rewrite app_nil_r.
  - destruct (filepath_Match (dirPattern f) (gitea.GitEntry.Path e)
              && String.eqb (gitea.GitEntry.Type_ e) "blob") eqn:Hwanted.
    + rewrite (dirEntry_fetch _ _ _ _ _ _ _ Hwanted).
      destruct (File c u r b (gitea.GitEntry.Path e)) as [data|err] eqn:Hfile;
        cbn [mbind result_bind].
      * rewrite IH. split.
        -- intros (new & -> & Hall).
           exists ({| FileMeta.Name := gitea.GitEntry.Path e;
                      FileMeta.Data := data |} :: new).
           rewrite <- app_assoc. split; [reflexivity|].
           constructor; [now split | exact Hall].
        -- intros (new & -> & Hall).
           apply Forall2_cons_inv_l in Hall
             as (config & new' & [Hname Hdata] & Hall & ->).
           exists new'. split; [|exact Hall].
           rewrite <- app_assoc. simpl. do 2 f_equal.
           rewrite Hdata in Hfile. injection Hfile as <-.
           rewrite <- Hname. symmetry. apply FileMeta_eta.
      * split; [discriminate|].
        intros (new & _ & Hall).
        apply Forall2_cons_inv_l in Hall as (config & _ & [_ Hdata] & _).
        rewrite Hdata in Hfile. discriminate.
    + rewrite (dirEntry_skip _ _ _ _ _ _ _ Hwanted). apply IH.
Qed.

(** X16. When the client and the tree of the commit are to be had, [Dir]
    returns documents exactly when every blob of the tree whose path
    matches the pattern of the folder can be fetched: then it returns
    one document for each of them, in the order of the tree, named by
    the path and holding the content of the file. Entries that do not
    match, or are no blobs, take no part. *)
Theorem Dir_Ok_iff (c : gitea.oauthclient.t) (u : gitea.User.t)
  (r : gitea.Repo.t) (b : model.Build.t) (f : string)
  (client : Client) (tree : list gitea.GitEntry.t) (configs : list FileMeta.t) :
  newClientToken c (gitea.User.Token u) = Ok client ->
  GetTrees client (gitea.Repo.Owner r) (gitea.Repo.Name r)
    (model.Build.Commit b) true = Ok tree ->
  Dir c u r b f = Ok configs
  <-> Forall2 (documentOf c u r b) (wanted f tree) configs.
Proof.
  intros Hclient Htree. unfold Dir. rewrite Hclient. simpl.
  rewrite Htree. simpl.
  change (path_Clean f +:+ "/" +:+ "*") with (dirPattern f).
  rewrite dirEntries_Ok. split.
  - now intros (new & -> & Hall).
  - intros Hall. now exists configs.
Qed.

Lemma dirEntries_Err (c : gitea.oauthclient.t) (u : gitea.User.t)
  (r : gitea.Repo.t) (b : model.Build.t) (f : string)
  (tree : list gitea.GitEntry.t) :
  (exists e err,
      In e (wanted f tree) /\ File c u r b (gitea.GitEntry.Path e) = Err err) ->
  forall acc,
  exists e err,
    In e (wanted f tree)
    /\ File c u r b (gitea.GitEntry.Path e) = Err err
    /\ forEach (dirEntry c u r b (dirPattern f)) tree acc
       = Err ("multi-pipeline cannot get " +:+ gitea.GitEntry.Path e
              +:+ ": " +:+ err).
Proof.
  unfold wanted.
  induction tree as [|e0 tree IH]; intros (e & err & Hin & Hfail) acc;
    cbn [forEach List.filter] in *; [contradiction|].
  destruct (filepath_Match (dirPattern f) (gitea.GitEntry.Path e0)
            && String.eqb (gitea.GitEntry.Type_ e0) "blob") eqn:Hwanted.
  - rewrite (dirEntry_fetch _ _ _ _ _ _ _ Hwanted).
    destruct (File c u r b (gitea.GitEntry.Path e0)) as [data|err0] eqn:Hfile;
      cbn [mbind result_bind].
    + destruct Hin as [->|Hin]; [congruence|].
      destruct (IH (ex_intro _ e (ex_intro _ err (conj Hin Hfail)))
                  (acc ++ [ {| FileMeta.Name := gitea.GitEntry.Path e0;
                               FileMeta.Data := data |} ]))
        as (e' & err' & Hin' & Hfail' & Hrun).
      exists e', err'. split; [now right | now split].
    + exists e0, err0. split; [now left | now split].
  - rewrite (dirEntry_skip _ _ _ _ _ _ _ Hwanted). apply IH. now exists e, err.
Qed.

(** X17. When one of the wanted files cannot be fetched, [Dir] returns
    no document at all, and the error "multi-pipeline cannot get", the
    path of a wanted file that failed, and the error of the fetch. *)
Theorem Dir_Err (c : gitea.oauthclient.t) (u : gitea.User.t)
  (r : gitea.Repo.t) (b : model.Build.t) (f : string)
  (client : Client) (tree : list gitea.GitEntry.t)
  (e : gitea.GitEntry.t) (err : error) :
  newClientToken c (gitea.User.Token u) = Ok client ->
  GetTrees client (gitea.Repo.Owner r) (gitea.Repo.Name r)
    (model.Build.Commit b) true = Ok tree ->
  In e (wanted f tree) ->
  File c u r b (gitea.GitEntry.Path e) = Err err ->
  exists e' err',
    In e' (wanted f tree)
    /\ File c u r b (gitea.GitEntry.Path e') = Err err'
    /\ Dir c u r b f
       = Err ("multi-pipeline cannot get " +:+ gitea.GitEntry.Path e'
              +:+ ": " +:+ err').
Proof.
  intros Hclient Htree Hin Hfail. unfold Dir. rewrite Hclient. simpl.
  rewrite Htree. simpl.
  change (path_Clean f +:+ "/" +:+ "*") with (dirPattern f).
  apply dirEntries_Err. now exists e, err.
Qed.

(** *** The pages of [Repos] *)

Lemma convertedRepos_cons (c : gitea.oauthclient.t) (all : list Repository)
  (pages : list (list Repository)) :
  convertedRepos c (all :: pages)
  = map (fun repo => toRepo repo (gitea.oauthclient.PrivateMode c)) all
    ++ convertedRepos c pages.
Proof. unfold convertedRepos. simpl. apply map_app. Qed.

(** The loop reads the pages in order until the page after them, which
    ends it: empty, or with an error. *)
Lemma reposLoop_pages (c : gitea.oauthclient.t) (client : Client)
  (pages : list (list Repository)) :
  forall fuel page repos,
    pagesFrom client page pages ->
    - 2 ^ 63 <= page ->
    page + Z.of_nat (length pages) < 2 ^ 63 ->
    (length pages < fuel)%nat ->
    reposLoop fuel c client page repos
    = match ListMyRepos client (page + Z.of_nat (length pages)) 50 with
      | Ok [] => Some (repos ++ convertedRepos c pages, None)
      | Err err => Some (repos ++ convertedRepos c pages, Some err)
      | Ok (repo :: all) =>
          reposLoop (fuel - length pages) c client
            (page + Z.of_nat (length pages)) (repos ++ convertedRepos c pages)
      end.
Proof.
  induction pages as [|all pages IH]; intros fuel page repos Hpages Hlo Hhi Hfuel.
  - simpl length. rewrite Z.add_0_r, Nat.sub_0_r.
    unfold convertedRepos. simpl. rewrite app_nil_r.
    destruct fuel as [|fuel]; [simpl in Hfuel; lia|]. simpl.
    destruct (ListMyRepos client page 50) as [[|repo all]|err];
      simpl; rewrite ?app_nil_r; reflexivity.
  - destruct Hpages as (Hpage & Hne & Hrest).
    simpl length in *. rewrite Nat2Z.inj_succ in *.
    destruct fuel as [|fuel]; [lia|].
    cbn [reposLoop]. rewrite Hpage.
    destruct all as [|repo all]; [contradiction|].
    cbn [length Nat.eqb].
    rewrite int_wrap_small by lia.
    rewrite (IH fuel (page + 1)) by (try assumption; lia).
    rewrite convertedRepos_cons, <- app_assoc.
    replace (page + 1 + Z.of_nat (length pages))
      with (page + Z.succ (Z.of_nat (length pages))) by lia.
    reflexivity.
Qed.

(** X18. When the pages of the account are [pages], none of them empty,
    and the page after them is empty, [Repos] returns the repositories
    of all these pages, converted, in their order, and no error. *)
Theorem Repos_all_pages (c : gitea.oauthclient.t) (u : gitea.User.t)
  (client : Client) (pages : list (list Repository)) (fuel : nat) :
  newClientToken c (gitea.User.Token u) = Ok client ->
  pagesFrom client 1 pages ->
  ListMyRepos client (1 + Z.of_nat (length pages)) 50 = Ok [] ->
  1 + Z.of_nat (length pages) < 2 ^ 63 ->
  (length pages < fuel)%nat ->
  Repos fuel c u = Some (convertedRepos c pages, None).
Proof.
  intros Hclient Hpages Hlast Hbound Hfuel. unfold Repos. rewrite Hclient.
  rewrite (reposLoop_pages c client pages) by (try assumption; lia).
  now rewrite Hlast.
Qed.

(** X19. When the page after [pages] fails, [Repos] returns the error
    of that page together with the repositories of the pages read before
    it, converted, in their order. *)
Theorem Repos_error_keeps_pages (c : gitea.oauthclient.t) (u : gitea.User.t)
  (client : Client) (pages : list (list Repository)) (fuel : nat) (err : error) :
  newClientToken c (gitea.User.Token u) = Ok client ->
  pagesFrom client 1 pages ->
  ListMyRepos client (1 + Z.of_nat (length pages)) 50 = Err err ->
  1 + Z.of_nat (length pages) < 2 ^ 63 ->
  (length pages < fuel)%nat ->
  Repos fuel c u = Some (convertedRepos c pages, Some err).
Proof.
  intros Hclient Hpages Hlast Hbound Hfuel. unfold Repos. rewrite Hclient.
  rewrite (reposLoop_pages c client pages) by (try assumption; lia).
  now rewrite Hlast.
Qed.

End GiteaProperties.

(** * The planner on the sample inputs *)

Module OnSamples.
Import Sample.
#[local] Existing Instance Sample.collaborators.

Example filterItems_same_name :
  filterItemsWithMissingDependencies [deploy_1_10; deploy_1_11; lint_1_11]
  = [lint_1_11].
Proof. vm_compute. reflexivity. Qed.

(** The cascade of the specification: A needs B, B needs C, no C. *)
Example filterItems_cascade :
  filterItemsWithMissingDependencies
    [item 1 "A" ["B"]; item 2 "B" ["C"]; item 3 "D" []]
  = [item 3 "D" []].
Proof. vm_compute. reflexivity. Qed.

Example filterItems_keeps_resolved :
  filterItemsWithMissingDependencies [item 1 "a" []; item 2 "b" ["a"]]
  = [item 1 "a" []; item 2 "b" ["a"]].
Proof. vm_compute. reflexivity. Qed.

(** The items [Build] compiles from [deploy_yml] and [lint_yml], and the
    one it returns. *)
Example Build_deploy_lint :
  (st ← compileItems (builder [deploy_yml; lint_yml] ∅) seed;
   Ok (map (fun item =>
              (model.Proc.PID (buildItem.Proc item), itemName item,
               buildItem.DependsOn item))
         (items st)))
  = Ok [ (1, "deploy", ["lint-1.10"]);
         (2, "deploy", ["lint-1.11"]);
         (3, "lint-1.11", []) ]
  /\ map (fun item => (model.Proc.PID (buildItem.Proc item), itemName item))
       (planned [deploy_yml; lint_yml])
     = [ (3, "lint-1.11") ].
Proof. split; vm_compute; reflexivity. Qed.

(** X1 (witness). The items of two documents with different names: the
    resolver keeps the greatest selection that obeys the rule. *)
Lemma filterItems_greatest_selection_witness :
  greatest_resolved_selection [deploy_1_11; lint_1_11]
    (filterItemsWithMissingDependencies [deploy_1_11; lint_1_11]).
Proof.
  apply (filterItems_greatest_selection [deploy_1_11; lint_1_11]).
  vm_compute. apply NoDup_cons. split.
  - intros Hin. apply list_elem_of_In in Hin.
    destruct Hin as [Heq|[]]. discriminate.
  - apply NoDup_singleton.
Defined.

(** C2 (counterexample). The leg [deploy_1_11] and [lint_1_11] obey the
    rule of the specification together, yet the resolver drops the leg:
    it drops every item named like the marked [deploy_1_10]. *)
Lemma resolver_not_greatest_fixed_point : ~ resolver_is_greatest_fixed_point.
Proof.
  intros Hclaim.
  destruct (Hclaim [deploy_1_10; deploy_1_11; lint_1_11]) as (_ & _ & Hgreatest).
  specialize (Hgreatest [deploy_1_11; lint_1_11]).
  rewrite filterItems_same_name in Hgreatest.
  assert (Hsub : [deploy_1_11; lint_1_11] `sublist_of` [lint_1_11]).
  { apply Hgreatest.
    - apply sublist_cons. apply sublist_skip, sublist_skip. constructor.
    - intros item [<-|[<-|[]]] dep Hdep; simpl in Hdep.
      + destruct Hdep as [<-|[]]. reflexivity.
      + contradiction. }
  apply sublist_length in Hsub. simpl in Hsub. lia.
Qed.

(** C9 (witness). The dependency of [deploy_1_11] resolves, and it is
    removed with the marked [deploy_1_10]. *)
Lemma marked_name_removed_witness :
  containsItemWithName (itemName deploy_1_10)
    (filterItemsWithMissingDependencies [deploy_1_10; deploy_1_11; lint_1_11])
  = false
  /\ forall other,
       In other [deploy_1_10; deploy_1_11; lint_1_11] ->
       itemName other = itemName deploy_1_10 ->
       ~ In other
           (filterItemsWithMissingDependencies
              [deploy_1_10; deploy_1_11; lint_1_11]).
Proof.
  apply (marked_name_removed [deploy_1_10; deploy_1_11; lint_1_11] deploy_1_10).
  apply marked_now. left. reflexivity.
Defined.

(** X2 (witness). A missing "C" removes "B", which needs it, and "A",
    which needs "B". *)
Lemma missing_dependency_cascades_witness :
  ~ In (item 2 "B" ["C"])
      (filterItemsWithMissingDependencies
         [item 1 "A" ["B"]; item 2 "B" ["C"]; item 3 "D" []])
  /\ ~ In (item 1 "A" ["B"])
        (filterItemsWithMissingDependencies
           [item 1 "A" ["B"]; item 2 "B" ["C"]; item 3 "D" []]).
Proof.
  apply (missing_dependency_cascades
           [item 1 "A" ["B"]; item 2 "B" ["C"]; item 3 "D" []]
           (item 1 "A" ["B"]) (item 2 "B" ["C"]) "C").
  - left. reflexivity.
  - right. left. reflexivity.
  - left. reflexivity.
  - left. reflexivity.
  - reflexivity.
Defined.

(** ** The planner on sample documents *)

Example Build_ci_release :
  Build (builder [ci_yml; release_yml] ∅) seed
  = (planned [ci_yml; release_yml], None).
Proof. vm_compute. reflexivity. Qed.

Example plan_ci_release :
  map (fun proc =>
         (model.Proc.PID proc, model.Proc.PPID proc, model.Proc.PGID proc,
          model.Proc.Name proc, model.Proc.State proc))
    (emittedProcs (build 7) (planned [ci_yml; release_yml]))
  = [ (1, 0, 1, "ci", model.StatusPending);
      (2, 0, 2, "release", model.StatusSkipped);
      (3, 1, 3, "clone", model.StatusPending);
      (4, 1, 4, "build", model.StatusPending);
      (5, 1, 5, "test", model.StatusPending);
      (6, 2, 6, "clone", model.StatusSkipped);
      (7, 2, 7, "build", model.StatusSkipped) ].
Proof. vm_compute. reflexivity. Qed.

(** The two legs of the matrix are both named after their document. *)
Example plan_matrix_names :
  Build (builder [matrix_yml] ∅) seed = (planned [matrix_yml], None)
  /\ map itemName (planned [matrix_yml]) = ["matrix"; "matrix"]
  /\ map (fun item => model.Proc.PID (buildItem.Proc item)) (planned [matrix_yml])
     = [1; 2].
Proof. split; [|split]; vm_compute; reflexivity. Qed.

(** A document that compiles to no stage is left out of the plan, and
    the PID made for it goes to the next item. *)
Example plan_without_stages :
  map (fun item => (itemName item, model.Proc.PID (buildItem.Proc item)))
    (planned [empty_yml; ci_yml])
  = [("ci", 1)].
Proof. vm_compute. reflexivity. Qed.

(** The resolver prunes the item of [notify_yml], which had PID 2; the
    steps are numbered on from the largest PID left. *)
Example plan_after_pruning :
  map (fun proc =>
         (model.Proc.PID proc, model.Proc.PPID proc, model.Proc.Name proc))
    (emittedProcs (build 7) (planned [ci_yml; notify_yml]))
  = [ (1, 0, "ci"); (2, 1, "clone"); (3, 1, "build"); (4, 1, "test") ].
Proof. vm_compute. reflexivity. Qed.

(** The PIDs assigned for [ci_yml] and [notify_yml]: 1 and 2 to the
    items, then, the item of [notify_yml] pruned, 2, 3 and 4 to the steps
    of [ci_yml]. *)
Example assignedPIDs_after_pruning :
  assignedPIDs (builder [ci_yml; notify_yml] ∅) seed (build 7) = [1; 2; 2; 3; 4].
Proof. vm_compute. reflexivity. Qed.

(** C1 (counterexample). The plan of [ci_yml] and [notify_yml] succeeds,
    and the PID 2 is assigned twice in it: to the item of [notify_yml],
    which the resolver prunes, and to the first step of [ci_yml]. *)
Lemma pruned_PID_assigned_again : ~ PIDs_never_reused.
Proof.
  intros Hclaim.
  destruct (Hclaim collaborators (builder [ci_yml; notify_yml] ∅) seed (build 7)
              (planned [ci_yml; notify_yml])) as (_ & _ & Hnodup).
  - vm_compute. reflexivity.
  - vm_compute. reflexivity.
  - rewrite assignedPIDs_after_pruning in Hnodup.
    apply NoDup_cons in Hnodup as [_ Hnodup].
    apply NoDup_cons in Hnodup as [Hnotin _].
    apply Hnotin. constructor.
Qed.

(** C1 (witness). The plan of [ci_yml] and [release_yml]. *)
Lemma process_list_PIDs_increasing_witness :
  emittedProcs (build 7) (planned [ci_yml; release_yml])
  = map buildItem.Proc (planned [ci_yml; release_yml])
    ++ stepProcs (build 7) (planned [ci_yml; release_yml])
  /\ StronglySorted Z.lt
       (map model.Proc.PID
          (emittedProcs (build 7) (planned [ci_yml; release_yml])))
  /\ NoDup
       (map model.Proc.PID
          (emittedProcs (build 7) (planned [ci_yml; release_yml]))).
Proof.
  apply (process_list_PIDs_increasing
           (builder [ci_yml; release_yml] ∅) seed (build 7)).
  - vm_compute. reflexivity.
  - vm_compute. reflexivity.
Defined.

(** C3 (counterexample). One document with a matrix of two Go versions:
    the plan succeeds with two items, both named "matrix". *)
Lemma matrix_legs_share_a_name : ~ surviving_names_unique.
Proof.
  intros Hclaim.
  destruct plan_matrix_names as (Hbuild & Hnames & _).
  apply Hclaim in Hbuild. rewrite Hnames in Hbuild.
  apply NoDup_cons in Hbuild as [Hnotin _].
  apply Hnotin. constructor.
Qed.

(** C3 (witness). Two documents without a matrix. *)
Lemma surviving_names_unique_single_axis_witness :
  NoDup (map itemName (planned [ci_yml; release_yml])).
Proof.
  apply (surviving_names_unique_single_axis
           (builder [ci_yml; release_yml] ∅) seed).
  - vm_compute. reflexivity.
  - vm_compute. apply NoDup_cons. split.
    + intros Hin. apply list_elem_of_In in Hin.
      destruct Hin as [Heq|[]]. discriminate.
    + apply NoDup_singleton.
  - intros y axes [<-|[<-|[]]] Hparse; vm_compute in Hparse;
      injection Hparse as <-; simpl; lia.
Defined.


(** With the strict parser [retry_yml] alone is planned, at PID 1. *)
Example Build_retry_alone :
  map (fun item => (itemName item, model.Proc.PID (buildItem.Proc item)))
    (fst (@Build strict (builder [retry_yml] ∅) strictSeed))
  = [("retry", 1)]
  /\ snd (@Build strict (builder [retry_yml] ∅) strictSeed) = None.
Proof. split; vm_compute; reflexivity. Qed.

(** After [ci_yml] it is planned at PID 2, where it does not parse: the
    item of [ci_yml] is not returned. *)
Example Build_retry_after_ci :
  @Build strict (builder [ci_yml; retry_yml] ∅) strictSeed
  = ([], Some "yaml: retries must be below 2").
Proof. vm_compute. reflexivity. Qed.

(** A result that is no error is its value. *)
Lemma Ok_value {A : Type} (res : result A) (default : A) :
  match res with Ok _ => true | Err _ => false end = true ->
  res = Ok (match res with Ok a => a | Err _ => default end).
Proof. destruct res; [reflexivity | discriminate]. Qed.

(** C5 (witness). [retry_yml] after [ci_yml], with the strict parser:
    the loops come to it with the PID 2, where it does not parse. *)
Lemma Build_fails_as_a_whole_witness :
  exists err,
    @Build strict (builder [ci_yml; retry_yml] ∅) strictSeed = ([], Some err).
Proof.
  apply (@Build_fails_as_a_whole strict (builder [ci_yml; retry_yml] ∅)
           strictSeed retry_yml).
  - right. left. reflexivity.
  - right. exists ∅, after_ci. split.
    + exists [ci_yml], [], after_ci, [∅], [], [].
      split; [vm_compute; reflexivity|].
      split; [apply Ok_value; vm_compute; reflexivity|].
      split; [vm_compute; reflexivity|].
      split; reflexivity.
    + right. left.
      exists "pipeline:
  build:
    image: golang
    retries: 2
", "yaml: retries must be below 2".
      split; vm_compute; reflexivity.
Defined.

(** [broken_yml] has no pipeline section: the parser rejects it whatever
    the PID, and the sound [ci_yml] is not planned either. *)
Example broken_yml_fails_anywhere :
  documentFailsAnywhere (builder [ci_yml; broken_yml] ∅) broken_yml.
Proof.
  right. exists [∅], ∅. split; [reflexivity|]. split; [now left|].
  intros pid. right. left.
  exists (FileMeta.Data broken_yml), "yaml: no pipeline section".
  split; reflexivity.
Qed.

Example Build_broken :
  Build (builder [ci_yml; broken_yml] ∅) seed
  = ([], Some "yaml: no pipeline section").
Proof. vm_compute. reflexivity. Qed.

(** C6 (counterexample). The extra environment sets GO_VERSION to 1.12
    and the axis to 1.10: the substitution sees 1.10. *)
Lemma extra_environment_does_not_win : ~ extra_environment_wins.
Proof.
  intros Hclaim.
  specialize (Hclaim collaborators
                (builder [matrix_yml] {[ "GO_VERSION" := "1.12" ]})
                (metadataFromStruct repo (build 7) (build 6)
                   (newProc (builder [matrix_yml] ∅) matrix_yml 1
                      {[ "GO_VERSION" := "1.10" ]})
                   "https://ci.example.com")
                {[ "GO_VERSION" := "1.10" ]} "GO_VERSION" "1.12" eq_refl).
  vm_compute in Hclaim. discriminate.
Qed.

Example envsubst_mapping_multiline :
  envsubst_mapping {[ "KEY" := "first
second" ]} "KEY"
  = quote "first
second"
  /\ envsubst_mapping {[ "KEY" := "first
second" ]} "OTHER" = EmptyString.
Proof. split; vm_compute; reflexivity. Qed.

(** C10 (witness). [ci_yml] declares no labels. *)
Lemma Build_labels_not_nil_witness :
  buildItem.Labels ci_item <> None
  /\ exists parsed,
       item_of_plan (builder [ci_yml] ∅) parsed ci_item
       /\ (yaml_Labels parsed = None -> buildItem.Labels ci_item = Some ∅)
       /\ (forall labels,
             yaml_Labels parsed = Some labels ->
             buildItem.Labels ci_item = Some labels).
Proof.
  apply (Build_labels_not_nil (builder [ci_yml] ∅) seed (planned [ci_yml]) ci_item).
  - vm_compute. reflexivity.
  - vm_compute. left. reflexivity.
Defined.

Example ci_item_labels : buildItem.Labels ci_item = Some ∅.
Proof. vm_compute. reflexivity. Qed.

(** X4 (witness). The item of [ci_yml] has three stages. *)
Lemma Build_items_have_stages_witness :
  backend.Config.Stages (buildItem.Config ci_item) <> [].
Proof.
  apply (Build_items_have_stages (builder [ci_yml] ∅) seed (planned [ci_yml])).
  - vm_compute. reflexivity.
  - vm_compute. left. reflexivity.
Defined.

(** ** More of the resolver *)

(** Two items that need each other, and nothing else: both stay. *)
Example filterItems_cycle :
  filterItemsWithMissingDependencies [item 1 "a" ["b"]; item 2 "b" ["a"]]
  = [item 1 "a" ["b"]; item 2 "b" ["a"]].
Proof. vm_compute. reflexivity. Qed.

(** X7 (witness). [lint_1_11] needs nothing and is alone of its name. *)
Lemma filterItems_keeps_independent_witness :
  In lint_1_11
    (filterItemsWithMissingDependencies [deploy_1_10; deploy_1_11; lint_1_11]).
Proof.
  apply (filterItems_keeps_independent
           [deploy_1_10; deploy_1_11; lint_1_11] lint_1_11).
  - do 2 right. left. reflexivity.
  - intros other [<-|[<-|[<-|[]]]] Hname;
      first [reflexivity | vm_compute in Hname; discriminate].
Defined.

(** ** More of the flattener and of the plan *)

(** X8 (witness). The plan of [ci_yml] and [release_yml]: two items and
    six steps. *)
Lemma setBuildStepsOnBuild_closed_form_witness :
  setBuildStepsOnBuild (build 7) (planned [ci_yml; release_yml])
  = withProcs (build 7)
      (model.Build.Procs (build 7)
       ++ map buildItem.Proc (planned [ci_yml; release_yml])
       ++ expectedItems (build 7) (maxPID 0 (planned [ci_yml; release_yml]))
            (planned [ci_yml; release_yml]))
  /\ length (emittedProcs (build 7) (planned [ci_yml; release_yml]))
     = (length (planned [ci_yml; release_yml])
        + totalSteps (planned [ci_yml; release_yml]))%nat.
Proof.
  apply (setBuildStepsOnBuild_closed_form (build 7)
           (planned [ci_yml; release_yml])).
  vm_compute. reflexivity.
Defined.

Example plan_ci_release_size :
  length (emittedProcs (build 7) (planned [ci_yml; release_yml])) = 7%nat.
Proof. vm_compute. reflexivity. Qed.

(** X9 (witness). The item of [ci_yml]. *)
Lemma Build_item_descriptors_witness :
  model.Proc.ID (buildItem.Proc ci_item) = 0
  /\ model.Proc.BuildID (buildItem.Proc ci_item)
     = model.Build.ID (procBuilder.Curr (builder [ci_yml] ∅))
  /\ model.Proc.PPID (buildItem.Proc ci_item) = 0
  /\ model.Proc.PGID (buildItem.Proc ci_item)
     = model.Proc.PID (buildItem.Proc ci_item)
  /\ (model.Proc.State (buildItem.Proc ci_item) = model.StatusPending
      \/ model.Proc.State (buildItem.Proc ci_item) = model.StatusSkipped)
  /\ exists y axes,
       In y (procBuilder.Yamls (builder [ci_yml] ∅))
       /\ documentAxes y = Ok axes
       /\ In (model.Proc.Environ (buildItem.Proc ci_item)) axes
       /\ itemName ci_item = documentName (builder [ci_yml] ∅) y.
Proof.
  apply (Build_item_descriptors (builder [ci_yml] ∅) seed (planned [ci_yml])).
  - vm_compute. reflexivity.
  - vm_compute. left. reflexivity.
Defined.

(** X10 (witness). The plan of [ci_yml] and [release_yml]. *)
Lemma plan_ids_resolve_witness :
  ids_resolve (emittedProcs (build 7) (planned [ci_yml; release_yml])).
Proof.
  apply (plan_ids_resolve (builder [ci_yml; release_yml] ∅) seed (build 7)).
  - vm_compute. reflexivity.
  - vm_compute. reflexivity.
Defined.

(** X11 (witness). [notify_yml] is a job of the builder and gives no
    item: its dependency is missing. *)
Lemma Build_follows_jobs_witness :
  map itemJob (planned [ci_yml; notify_yml])
    `sublist_of` jobs (builder [ci_yml; notify_yml] ∅)
  /\ (length (planned [ci_yml; notify_yml])
      <= length (jobs (builder [ci_yml; notify_yml] ∅)))%nat.
Proof.
  apply (Build_follows_jobs (builder [ci_yml; notify_yml] ∅) seed).
  vm_compute. reflexivity.
Defined.

Example jobs_ci_notify :
  jobs (builder [ci_yml; notify_yml] ∅) = [ ("ci", ∅); ("notify", ∅) ]
  /\ map itemJob (planned [ci_yml; notify_yml]) = [ ("ci", ∅) ].
Proof. split; vm_compute; reflexivity. Qed.

(** X12 (witness). The release pipeline in the plan of [ci_yml] and
    [release_yml]. *)
Lemma Build_success_all_pass_witness :
  exists axes,
    documentAxes release_yml = Ok axes
    /\ forall axis, In axis axes ->
       exists pid parsed,
         parsedDefinition (builder [ci_yml; release_yml] ∅) release_yml pid axis
         = Ok parsed
         /\ linter_Lint
              (model.Repo.IsTrusted
                 (procBuilder.Repo (builder [ci_yml; release_yml] ∅)))
              parsed = None.
Proof.
  apply (Build_success_all_pass (builder [ci_yml; release_yml] ∅) seed
           (planned [ci_yml; release_yml]) release_yml).
  - vm_compute. reflexivity.
  - right. left. reflexivity.
Defined.

(** X13 (witness). The item of [ci_yml]. *)
Lemma Build_compiler_options_witness :
  exists options parsed rnd environ,
    buildItem.Config ci_item = compiler_Compile options parsed
    /\ compiler.Options.Prefix options = "0_" +:+ itoa rnd
    /\ compiler.Options.Environ options
       = [environ; procBuilder.Envs (builder [ci_yml] ∅)]
    /\ compiler.Options.Netrc options
       = (if model.Repo.IsPrivate (procBuilder.Repo (builder [ci_yml] ∅))
          then Some (model.Netrc.Login (procBuilder.Netrc (builder [ci_yml] ∅)),
                     model.Netrc.Password (procBuilder.Netrc (builder [ci_yml] ∅)),
                     model.Netrc.Machine (procBuilder.Netrc (builder [ci_yml] ∅)))
          else None)
    /\ buildItem.Platform ci_item
       = frontend.System.Arch
           (frontend.Metadata.Sys (compiler.Options.Metadata options)).
Proof.
  apply (Build_compiler_options (builder [ci_yml] ∅) seed (planned [ci_yml])).
  - vm_compute. reflexivity.
  - vm_compute. left. reflexivity.
Defined.

(** ** The Gitea remote on the sample server *)

#[local] Existing Instance Sample.server.

(** The folder of octocat/hello holds two documents; the document of
    the folder below it, the folders and the README are left out. *)
Example Dir_hello :
  Dir remote octocat hello (build 7) ".woodpecker/" = Ok [ci_yml; release_yml].
Proof. vm_compute. reflexivity. Qed.

(** X16 (witness). The folder of octocat/hello. *)
Lemma Dir_Ok_iff_witness :
  Dir remote octocat hello (build 7) ".woodpecker/" = Ok [ci_yml; release_yml]
  <-> Forall2 (documentOf remote octocat hello (build 7))
        (wanted ".woodpecker/" helloTree) [ci_yml; release_yml].
Proof.
  apply (@Dir_Ok_iff server remote octocat hello (build 7) ".woodpecker/"
           "token" helloTree [ci_yml; release_yml]).
  - vm_compute. reflexivity.
  - vm_compute. reflexivity.
Defined.

(** One document of octocat/stale cannot be fetched: the two that can
    are not returned either. *)
Example Dir_stale :
  Dir remote octocat stale (build 7) ".woodpecker/"
  = Err "multi-pipeline cannot get .woodpecker/gone.yml: 404 Not Found".
Proof. vm_compute. reflexivity. Qed.

(** X17 (witness). The folder of octocat/stale. *)
Lemma Dir_Err_witness :
  exists e' err',
    In e' (wanted ".woodpecker/" staleTree)
    /\ File remote octocat stale (build 7) (gitea.GitEntry.Path e') = Err err'
    /\ Dir remote octocat stale (build 7) ".woodpecker/"
       = Err ("multi-pipeline cannot get " +:+ gitea.GitEntry.Path e'
              +:+ ": " +:+ err').
Proof.
  apply (@Dir_Err server remote octocat stale (build 7) ".woodpecker/"
           "token" staleTree gone_yml "404 Not Found").
  - vm_compute. reflexivity.
  - vm_compute. reflexivity.
  - vm_compute. right. left. reflexivity.
  - vm_compute. reflexivity.
Defined.

(** The two pages of the account. *)
Definition pages : list (list ListedRepo) :=
  [ [ {| fullName := "octocat/hello"; private := false |};
      {| fullName := "octocat/stale"; private := true |} ];
    [ {| fullName := "octocat/spoon"; private := false |} ] ].

(** X18 (witness). The account has two pages; the third is empty. *)
Lemma Repos_all_pages_witness :
  Repos 3 remote octocat = Some (convertedRepos remote pages, None).
Proof.
  apply (@Repos_all_pages server remote octocat "token" pages 3).
  - vm_compute. reflexivity.
  - split; [reflexivity|]. split; [discriminate|].
    split; [reflexivity|]. split; [discriminate | exact I].
  - vm_compute. reflexivity.
  - vm_compute. reflexivity.
  - simpl. lia.
Defined.

Example Repos_octocat :
  option_map (fun '(repos, err) => (map model.Repo.FullName repos, err))
    (Repos 3 remote octocat)
  = Some (["octocat/hello"; "octocat/stale"; "octocat/spoon"], None).
Proof. vm_compute. reflexivity. Qed.

(** With too little fuel the model gives no result. *)
Example Repos_out_of_fuel : Repos 2 remote octocat = None.
Proof. vm_compute. reflexivity. Qed.

(** X19 (witness). The second page fails: the first is returned with
    the error. *)
Lemma Repos_error_keeps_pages_witness :
  Repos 2 remote flaky
  = Some (convertedRepos remote (firstn 1 pages), Some "502 Bad Gateway").
Proof.
  apply (@Repos_error_keeps_pages server remote flaky "flaky" (firstn 1 pages) 2
           "502 Bad Gateway").
  - vm_compute. reflexivity.
  - split; [reflexivity|]. split; [discriminate | exact I].
  - vm_compute. reflexivity.
  - vm_compute. reflexivity.
  - simpl. lia.
Defined.

End OnSamples.
